(** * PubMed research assistant: a shallow embedding of the dispatch loop

    The development follows the three Python sources of the repository:
    - [research_paper_agent.py]  (command-line agent, module [Agent]);
    - [streamlit_app.py] and [streamlit_app_v2.py] (web variants, module
      [AppV2]; the first differs from the second in the shape of the tool
      results only and has no paginator).

    Python strings are sequences of code points.  They are modelled as
    lists of [ascii], each [ascii] standing for the code point of the same
    number (0..255, the Latin-1 range); the character classes below are
    Python's own classes restricted to that range. *)

From Stdlib Require Import Strings.Ascii Strings.String.
From Stdlib Require Import Numbers.DecimalString Numbers.DecimalNat.
From Stdlib Require Import Bool Arith ZArith Lia List.
Import ListNotations.

(** ** Characters *)

Module Char.

Definition code (c : ascii) : N := N_of_ascii c.

Definition in_range (lo hi : N) (c : ascii) : bool :=
  ((lo <=? code c) && (code c <=? hi))%N.

(** [\d] of module [re] on a [str] pattern: Unicode category Nd. *)
Definition is_decimal (c : ascii) : bool := in_range 48 57 c.

(** [str.isdigit], one character: Numeric_Type Decimal or Digit.  In
    Latin-1 this adds the superscripts U+00B2, U+00B3 and U+00B9. *)
Definition isdigit (c : ascii) : bool :=
  is_decimal c || (code c =? 178)%N || (code c =? 179)%N || (code c =? 185)%N.

(** [str.isnumeric], one character: adds the fractions U+00BC..U+00BE. *)
Definition isnumeric (c : ascii) : bool := isdigit c || in_range 188 190 c.

(** [str.isalpha], one character. *)
Definition isalpha (c : ascii) : bool :=
  in_range 65 90 c || in_range 97 122 c
  || (code c =? 170)%N || (code c =? 181)%N || (code c =? 186)%N
  || in_range 192 214 c || in_range 216 246 c || in_range 248 255 c.

(** [\w] of module [re]: alphanumeric or underscore. *)
Definition is_word (c : ascii) : bool :=
  isalpha c || isnumeric c || (code c =? 95)%N.

(** [str.isspace], one character; also [\s] of module [re]. *)
Definition isspace (c : ascii) : bool :=
  in_range 9 13 c || in_range 28 32 c || (code c =? 133)%N || (code c =? 160)%N.

(** [str.lower], one character. *)
Definition lower (c : ascii) : ascii :=
  if in_range 65 90 c || in_range 192 214 c || in_range 216 222 c
  then ascii_of_N (code c + 32) else c.

End Char.

(** ** Strings *)

Definition str := list ascii.

(** Literals of the sources are written as Rocq strings and converted. *)
Definition lit (s : String.string) : str := String.list_ascii_of_string s.
Arguments lit s%_string.

Definition str_eqb (a b : str) : bool :=
  if list_eq_dec ascii_dec a b then true else false.

Module Str.

(** [s.startswith(p)] *)
Fixpoint startswith (p s : str) : bool :=
  match p, s with
  | [], _ => true
  | _ :: _, [] => false
  | a :: p', b :: s' => Ascii.eqb a b && startswith p' s'
  end.

(** [needle in s] *)
Fixpoint contains (needle s : str) : bool :=
  startswith needle s ||
  match s with
  | [] => false
  | _ :: s' => contains needle s'
  end.

(** [s.lower()] *)
Definition lower (s : str) : str := map Char.lower s.

Fixpoint dropwhile (p : ascii -> bool) (s : str) : str :=
  match s with
  | [] => []
  | c :: s' => if p c then dropwhile p s' else s
  end.

Fixpoint takewhile (p : ascii -> bool) (s : str) : str :=
  match s with
  | [] => []
  | c :: s' => if p c then c :: takewhile p s' else []
  end.

Definition lstrip (s : str) : str := dropwhile Char.isspace s.
Definition rstrip (s : str) : str := rev (dropwhile Char.isspace (rev s)).

(** [s.strip()] *)
Definition strip (s : str) : str := rstrip (lstrip s).

(** [s.isdigit()]: every character is a digit and there is at least one. *)
Definition isdigit (s : str) : bool :=
  match s with
  | [] => false
  | _ :: _ => forallb Char.isdigit s
  end.

(** [sep.join(xs)] *)
Fixpoint join (sep : str) (xs : list str) : str :=
  match xs with
  | [] => []
  | [x] => x
  | x :: rest => x ++ sep ++ join sep rest
  end.

(** [s.split()] without argument: maximal runs of non-space characters.
    [cur] is the run being read, reversed. *)
Fixpoint split_ws_aux (cur : str) (s : str) : list str :=
  match s with
  | [] => match cur with [] => [] | _ => [rev cur] end
  | c :: s' =>
      if Char.isspace c
      then match cur with
           | [] => split_ws_aux [] s'
           | _ => rev cur :: split_ws_aux [] s'
           end
      else split_ws_aux (c :: cur) s'
  end.

Definition split_ws (s : str) : list str := split_ws_aux [] s.

(** [s.split(sep)] for a non-empty [sep]: cut at the leftmost occurrences
    of [sep], which do not overlap.  [skip] counts the characters of an
    occurrence still to be passed over; [cur] is the piece being read,
    reversed. *)
Fixpoint split_aux (sep : str) (skip : nat) (cur : str) (s : str) : list str :=
  match s with
  | [] => [rev cur]
  | c :: s' =>
      match skip with
      | S k => split_aux sep k cur s'
      | O =>
          if startswith sep s
          then rev cur :: split_aux sep (length sep - 1) [] s'
          else split_aux sep 0 (c :: cur) s'
      end
  end.

Definition split (sep s : str) : list str := split_aux sep 0 [] s.

(** [str(n)] for a natural number. *)
Definition of_nat (n : nat) : str :=
  lit (NilEmpty.string_of_uint (Nat.to_uint n)).

(** [c * n] for a one-character string. *)
Definition rep (c : ascii) (n : nat) : str := repeat c n.

End Str.

Definition NL : str := [ascii_of_nat 10].

(** ** The two regular expressions of the sources

    Both are used through [re.search] / [re.findall]: leftmost match, and
    at one start position the match the backtracking matcher prefers. *)

Module Re.

Definition word_opt (c : option ascii) : bool :=
  match c with
  | Some a => Char.is_word a
  | None => false
  end.

(** [\b] between the character before and the character after a position;
    [None] is the start or the end of the text. *)
Definition boundary (prev next : option ascii) : bool :=
  xorb (word_opt prev) (word_opt next).

(** [\d{k}] then [\b], at the head of [s]. *)
Definition digits_then_boundary (k : nat) (s : str) : option str :=
  let m := firstn k s in
  if (length m =? k) && forallb Char.is_decimal m
     && boundary (hd_error (rev m)) (hd_error (skipn k s))
  then Some m else None.

(** [\b(\d{7,9})\b] at one position: the greedy quantifier is tried at 9,
    then 8, then 7 characters. *)
Definition id_match_here (prev : option ascii) (s : str) : option str :=
  if boundary prev (hd_error s) then
    match digits_then_boundary 9 s with
    | Some m => Some m
    | None =>
        match digits_then_boundary 8 s with
        | Some m => Some m
        | None => digits_then_boundary 7 s
        end
    end
  else None.

Fixpoint id_search_from (prev : option ascii) (s : str) : option str :=
  match id_match_here prev s with
  | Some m => Some m
  | None =>
      match s with
      | [] => None
      | c :: s' => id_search_from (Some c) s'
      end
  end.

(** [re.search] of the identifier pattern, group 1 of the match. *)
Definition id_search (s : str) : option str := id_search_from None s.

(** The matches of [re.findall] do not overlap: after a match the scan
    resumes behind it.  [skip] counts the characters of the last match
    still to be passed over. *)
Fixpoint id_findall_from (skip : nat) (prev : option ascii) (s : str)
  : list str :=
  match s with
  | [] => []
  | c :: s' =>
      match skip with
      | S k => id_findall_from k (Some c) s'
      | O =>
          match id_match_here prev s with
          | Some m => m :: id_findall_from (length m - 1) (Some c) s'
          | None => id_findall_from 0 (Some c) s'
          end
      end
  end.

(** [re.findall] of the identifier pattern. *)
Definition id_findall (s : str) : list str := id_findall_from 0 None s.

Definition DQUOTE : ascii := ascii_of_nat 34.

Definition not_dquote (c : ascii) : bool := negb (Ascii.eqb c DQUOTE).

(** The tool pattern [Tool:\s*(\w+)\(Q([^Q]+)Q\)], where Q stands for the
    double quote, at one position.  Each repetition is followed by a
    character outside its own class, so the greedy choice is the only one
    that can succeed. *)
Definition tool_match_here (s : str) : option (str * str) :=
  if Str.startswith (lit "Tool:") s then
    let r1 := Str.dropwhile Char.isspace (skipn 5 s) in
    let name := Str.takewhile Char.is_word r1 in
    let r2 := Str.dropwhile Char.is_word r1 in
    match name with
    | [] => None
    | _ :: _ =>
        if Str.startswith (lit "(" ++ [DQUOTE]) r2 then
          let r3 := skipn 2 r2 in
          let arg := Str.takewhile not_dquote r3 in
          let r4 := Str.dropwhile not_dquote r3 in
          match arg with
          | [] => None
          | _ :: _ =>
              if Str.startswith (DQUOTE :: lit ")") r4
              then Some (name, arg) else None
          end
        else None
    end
  else None.

(** [re.search(tool_pattern, s)], groups 1 and 2. *)
Fixpoint tool_search (s : str) : option (str * str) :=
  match tool_match_here s with
  | Some r => Some r
  | None =>
      match s with
      | [] => None
      | _ :: s' => tool_search s'
      end
  end.

End Re.

(** ** The outside world

    Three blocking calls leave the program: the language model, the index
    search ([esearch]) and the record source ([efetch]).  Every call is
    logged in a trace, and the answer of the world may depend on the trace
    so far.  A tool invocation is logged as well. *)

Inductive http (A : Type) : Type :=
| Ok (a : A)
| Raise (msg : str).
Arguments Ok {A} a.
Arguments Raise {A} msg.

(** [data.get("esearchresult", {})] with the defaults of [get] applied:
    [count] is "0" and [idlist] is empty when the key is missing. *)
Record esearch_result := { count : str ; idlist : list str }.

(** One [AbstractText] element: its [Label] attribute (default empty) and
    its text (default empty). *)
Record abstract_text := { label : str ; text : str }.

(** One [Author] element, [findtext] with default empty. *)
Record author := { last_name : str ; fore_name : str }.

(** One [ArticleId] element. *)
Record article_id := { id_type : str ; id_text : option str }.

(** The [PubmedArticle] element as the program reads it; [None] is an
    element that was not found. *)
Record article := {
  article_title : option str ;
  abstract_texts : list abstract_text ;
  authors : list author ;
  journal_title : option str ;
  pub_year : option str ;
  article_ids : list article_id
}.

Inductive tool_id := AuthorTool | DetailsTool | TitleTool.

(** The prompt of the model call is a fixed template with two holes, the
    user request and the recent conversation; a call is logged, and
    answered, by the two texts that fill the holes. *)
Inductive event :=
| LLMCall (user_input recent : str)
| Invoke (t : tool_id) (arg : str)
| HttpSearch (term : str) (retmax : nat)
| HttpFetch (id : str).

Definition trace := list event.

(** [efetch] answers [Ok None] when the document holds no usable
    [PubmedArticle] element. *)
Record world := {
  llm : trace -> str -> str -> http str ;
  esearch : trace -> str -> nat -> http esearch_result ;
  efetch : trace -> str -> http (option article)
}.

Definition M (A : Type) : Type := trace -> A * trace.

Definition ret {A} (a : A) : M A := fun tr => (a, tr).

Definition bind {A B} (m : M A) (k : A -> M B) : M B :=
  fun tr => let (a, tr') := m tr in k a tr'.

Notation "x <- m ;; k" := (bind m (fun x => k))
  (at level 61, m at next level, right associativity).
Notation "m ;;; k" := (bind m (fun _ => k))
  (at level 61, right associativity).

Definition emit (e : event) : M unit := fun tr => (tt, tr ++ [e]).

Definition http_search (w : world) (term : str) (retmax : nat)
  : M (http esearch_result) :=
  fun tr => (esearch w tr term retmax, tr ++ [HttpSearch term retmax]).

Definition http_fetch (w : world) (id : str) : M (http (option article)) :=
  fun tr => (efetch w tr id, tr ++ [HttpFetch id]).

Definition ask_llm (w : world) (user_input recent : str) : M (http str) :=
  fun tr => (llm w tr user_input recent, tr ++ [LLMCall user_input recent]).

Fixpoint mapM {A B} (f : A -> M B) (xs : list A) : M (list B) :=
  match xs with
  | [] => ret []
  | x :: rest => y <- f x ;; ys <- mapM f rest ;; ret (y :: ys)
  end.

(** ** Author-name clean-up, identical in the three sources *)

Definition titles : list str :=
  map lit ["Dr."; "Dr"; "Prof."; "Prof"; "Professor"; "Mr."; "Ms."; "Mrs."]%string.

(** One turn of the loop over [titles]. *)
Definition strip_title (cleaned_name title : str) : str :=
  if Str.startswith (title ++ lit " ") cleaned_name
  then Str.strip (skipn (length title) cleaned_name)
  else cleaned_name.

Definition cleaned_name (author_name : str) : str :=
  fold_left strip_title titles (Str.strip author_name).

(** ** Python dictionaries keep insertion order: association lists *)

Module Dict.

Definition t := list (str * str).

(** [d[k] = v] *)
Fixpoint set (k v : str) (d : t) : t :=
  match d with
  | [] => [(k, v)]
  | (k', v') :: rest =>
      if str_eqb k k' then (k, v) :: rest else (k', v') :: set k v rest
  end.

(** [d.get(k)] *)
Fixpoint get (k : str) (d : t) : option str :=
  match d with
  | [] => None
  | (k', v') :: rest => if str_eqb k k' then Some v' else get k rest
  end.

(** [repr] of a string that holds no quote, no backslash and only printable
    characters, which is the case of every key and value of the cache. *)
Definition repr (s : str) : str := lit "'" ++ s ++ lit "'".

Definition item (kv : str * str) : str :=
  repr (fst kv) ++ lit ": " ++ repr (snd kv).

(** [str(d)] *)
Definition to_str (d : t) : str :=
  lit "{" ++ Str.join (lit ", ") (map item d) ++ lit "}".

End Dict.

(** ** research_paper_agent.py *)

Module Agent.

(** The pictographs of the reply templates lie outside Latin-1.  Each is
    written as its name between brackets; the program never reads a reply
    back. *)
Definition BOOKS : str := lit "[books]".
Definition PAGE : str := lit "[page]".
Definition BULB : str := lit "[bulb]".

Section Tools.

Variable w : world.

(** *** Record Fetcher *)

Definition or_default (o : option str) (d : str) : str :=
  match o with
  | Some s => s
  | None => d
  end.

Definition abstract_part (a : abstract_text) : str :=
  match label a with
  | [] => text a
  | _ :: _ => label a ++ lit ": " ++ text a
  end.

Definition abstract_of (a : article) : str :=
  match abstract_texts a with
  | [] => lit "No abstract available"
  | parts => Str.join (lit " ") (map abstract_part parts)
  end.

Definition author_names (a : article) : list str :=
  map (fun au => Str.strip (fore_name au ++ lit " " ++ last_name au))
      (filter (fun au => match last_name au, fore_name au with
                         | [], [] => false
                         | _, _ => true
                         end)
              (authors a)).

(** The first [ArticleId] whose [IdType] is doi; its text may be missing. *)
Definition doi_of (a : article) : option str :=
  match find (fun i => str_eqb (id_type i) (lit "doi")) (article_ids a) with
  | Some i => id_text i
  | None => None
  end.

(** [x or d] on an optional string: [None] and the empty string are false. *)
Definition or_else (o : option str) (d : str) : str :=
  match o with
  | Some (c :: s) => c :: s
  | _ => d
  end.

Definition render_details (paper_id : str) (a : article) : str :=
  NL ++ lit "PAPER DETAILS:" ++ NL
  ++ lit "==============" ++ NL
  ++ lit "Paper ID: " ++ paper_id ++ NL
  ++ lit "Title: " ++ or_default (article_title a) (lit "No title") ++ NL
  ++ lit "Authors: "
  ++ match author_names a with
     | [] => lit "No authors listed"
     | names => Str.join (lit ", ") names
     end ++ NL
  ++ lit "Journal: " ++ or_default (journal_title a) (lit "Unknown journal")
  ++ lit " (" ++ or_default (pub_year a) (lit "Unknown year") ++ lit ")" ++ NL
  ++ lit "DOI: " ++ or_else (doi_of a) (lit "Not available") ++ NL
  ++ NL
  ++ lit "ABSTRACT:" ++ NL
  ++ abstract_of a ++ NL.

Definition invalid_id (paper_id : str) : str :=
  lit "Invalid paper ID: " ++ paper_id ++ lit ". Paper IDs must be numeric.".

Definition get_paper_details (paper_id : str) : M str :=
  emit (Invoke DetailsTool paper_id) ;;;
  if negb (Str.isdigit paper_id) then ret (invalid_id paper_id)
  else
    r <- http_fetch w paper_id ;;
    match r with
    | Raise msg => ret (lit "Error fetching paper details: " ++ msg)
    | Ok None => ret (lit "No article found for ID " ++ paper_id)
    | Ok (Some a) => ret (render_details paper_id a)
    end.

(** *** Search Executor *)

Definition found_by (name : str) (d : esearch_result) : str :=
  lit "Found " ++ count d ++ lit " papers by " ++ name
  ++ lit ". Paper IDs: " ++ Str.join (lit ", ") (firstn 10 (idlist d)).

Definition found_by_last_name (last : str) (d : esearch_result) : str :=
  lit "Found " ++ count d ++ lit " papers by authors with last name '" ++ last
  ++ lit "'. Paper IDs: " ++ Str.join (lit ", ") (firstn 10 (idlist d)).

(** [cleaned_name.split()[-1] if cleaned_name.split() else cleaned_name] *)
Definition last_token (name : str) : str :=
  match rev (Str.split_ws name) with
  | x :: _ => x
  | [] => name
  end.

Definition search_papers_by_author (author_name : str) : M str :=
  emit (Invoke AuthorTool author_name) ;;;
  let name := cleaned_name author_name in
  r1 <- http_search w (name ++ lit "[Author]") 20 ;;
  match r1 with
  | Raise msg => ret (lit "Error searching papers: " ++ msg)
  | Ok d1 =>
      if str_eqb (count d1) (lit "0") then
        let last := last_token name in
        r2 <- http_search w (last ++ lit "[Author]") 20 ;;
        match r2 with
        | Raise msg => ret (lit "Error searching papers: " ++ msg)
        | Ok d2 =>
            if negb (str_eqb (count d2) (lit "0"))
            then ret (found_by_last_name last d2)
            else ret (found_by name d2)
        end
      else ret (found_by name d1)
  end.

Definition quoted_title_term (title : str) : str :=
  [Re.DQUOTE] ++ title ++ [Re.DQUOTE] ++ lit "[Title]".

Definition plain_title_term (title : str) : str := title ++ lit "[Title]".

Definition title_not_found : str :=
  lit "No papers found with this title. Try searching by author or use a shorter title.".

Definition search_paper_by_title (title : str) : M str :=
  emit (Invoke TitleTool title) ;;;
  r1 <- http_search w (quoted_title_term title) 5 ;;
  match r1 with
  | Raise msg => ret (lit "Error searching paper by title: " ++ msg)
  | Ok d1 =>
      match idlist d1 with
      | first :: _ => get_paper_details first
      | [] =>
          r2 <- http_search w (plain_title_term title) 5 ;;
          match r2 with
          | Raise msg => ret (lit "Error searching paper by title: " ++ msg)
          | Ok d2 =>
              match idlist d2 with
              | first :: _ => get_paper_details first
              | [] => ret title_not_found
              end
          end
      end
  end.

End Tools.

(** *** The agent class *)

Record agent := {
  conversation_history : list str ;
  paper_id_cache : Dict.t
}.

(** [__init__] *)
Definition init : agent :=
  {| conversation_history := [] ; paper_id_cache := [] |}.

Definition remember (line : str) (a : agent) : agent :=
  {| conversation_history := conversation_history a ++ [line] ;
     paper_id_cache := paper_id_cache a |}.

Definition with_cache (d : Dict.t) (a : agent) : agent :=
  {| conversation_history := conversation_history a ;
     paper_id_cache := d |}.

(** The keys of [self.tools]. *)
Definition tools : list str :=
  map lit ["search_papers_by_author"; "get_paper_details";
           "search_paper_by_title"]%string.

Definition parse_tool_call (llm_output : str) : option (str * str) :=
  Re.tool_search llm_output.

Definition unknown_tool (tool_name : str) : str :=
  lit "Unknown tool: " ++ tool_name.

Section Loop.

Variable w : world.

Definition execute_tool (tool_name argument : str) : M str :=
  if existsb (str_eqb tool_name) tools then
    if Str.contains (lit "author") tool_name
    then search_papers_by_author w argument
    else if str_eqb tool_name (lit "get_paper_details")
    then get_paper_details w argument
    else if str_eqb tool_name (lit "search_paper_by_title")
    then search_paper_by_title w argument
    else ret (unknown_tool tool_name)
  else ret (unknown_tool tool_name).

Definition format_response (tool_result : str) : str :=
  if Str.contains (lit "PAPER DETAILS:") tool_result then tool_result
  else if Str.contains (lit "Found") tool_result
          && Str.contains (lit "papers by") tool_result
  then BOOKS ++ lit " " ++ tool_result ++ NL ++ NL
       ++ lit "Would you like me to show details for any of these papers?"
  else tool_result.

(** The loop over [enumerate(papers[1:], 1)]; [n] is [len(papers)]. *)
Fixpoint paper_blocks (n i : nat) (papers : list str) : str :=
  match papers with
  | [] => []
  | paper :: rest =>
      NL ++ PAGE ++ lit " PAPER " ++ Str.of_nat i ++ lit ":" ++ NL
      ++ Str.strip paper
      ++ (if i <? n - 1 then NL ++ Str.rep "-"%char 50 ++ NL else [])
      ++ paper_blocks n (S i) rest
  end.

Definition format_multiple_papers (combined_results : str) (count : nat) : str :=
  let lines := Str.split NL combined_results in
  let summary_line :=
    match find (Str.contains (lit "Found")) lines with
    | Some l => l
    | None => []
    end in
  let papers := Str.split (lit "PAPER DETAILS:") combined_results in
  BOOKS ++ lit " " ++ summary_line ++ NL ++ NL
  ++ lit "Here are details for the first " ++ Str.of_nat count
  ++ lit " papers:" ++ NL
  ++ Str.rep "="%char 50 ++ NL
  ++ paper_blocks (length papers) 1 (tl papers)
  ++ NL ++ NL ++ BULB
  ++ lit " Need more papers or specific details? Just ask!".

Definition triggers : list str :=
  map lit ["details"; "paper id"; "tell me about"; "get"]%string.

(** The test of the first shortcut: a match of the identifier pattern and
    one of the trigger words in the lowered input. *)
Definition id_request (user_input : str) : option str :=
  match Re.id_search user_input with
  | Some paper_id =>
      if existsb (fun word => Str.contains word (Str.lower user_input)) triggers
      then Some paper_id else None
  | None => None
  end.

(** The test of the second shortcut. *)
Definition cached_title_request (user_input : str) (cache : Dict.t) : bool :=
  Str.contains (lit "cavity architecture") (Str.lower user_input)
  && Str.contains (lit "37635766") (Dict.to_str cache).

(** The loop over [enumerate(ids[:5])], from index [i]. *)
Fixpoint cache_ids (i : nat) (ids : list str) (cache : Dict.t) : Dict.t :=
  match ids with
  | [] => cache
  | pid :: rest =>
      cache_ids (S i) rest (Dict.set (lit "paper_" ++ Str.of_nat (i + 1)) pid cache)
  end.

(** [xs[-3:]] *)
Definition last3 (xs : list str) : list str := skipn (length xs - 3) xs.

Inductive outcome :=
| Reply (text : str)
| Propagated (msg : str).

Definition clarification : str :=
  lit "I couldn't understand your request. Please try again with a clearer query.".

(** What follows a parsed tool call. *)
Definition act (tool_name argument : str) (a : agent) : M (outcome * agent) :=
  result <- execute_tool tool_name argument ;;
  let a1 := remember (lit "Tool: " ++ tool_name ++ lit ", Result: "
                      ++ firstn 200 result ++ lit "...") a in
  let a2 :=
    if Str.contains (lit "Paper IDs:") result
    then with_cache (cache_ids 0 (firstn 5 (Re.id_findall result))
                       (paper_id_cache a1)) a1
    else a1 in
  if str_eqb tool_name (lit "search_papers_by_author")
     && Str.contains (lit "Paper IDs:") result
  then
    let paper_ids := firstn 3 (Re.id_findall result) in
    details <- mapM (get_paper_details w) paper_ids ;;
    ret (Reply (format_multiple_papers
                  (Str.join (NL ++ NL) (result :: details))
                  (length paper_ids)), a2)
  else ret (Reply (format_response result), a2).

(** What follows the two shortcuts: the model decides. *)
Definition decide (user_input : str) (a : agent) : M (outcome * agent) :=
  r <- ask_llm w user_input (Str.join NL (last3 (conversation_history a))) ;;
  match r with
  | Raise msg => ret (Propagated msg, a)
  | Ok llm_output =>
      if Str.startswith (lit "Direct:") llm_output
      then ret (Reply (Str.strip (skipn 7 llm_output)), a)
      else
        match parse_tool_call llm_output with
        | Some (tool_name, argument) => act tool_name argument a
        | None => ret (Reply clarification, a)
        end
  end.

(** The fetch of a shortcut, its log entry and its reply. *)
Definition lookup (paper_id : str) (a : agent) : M (outcome * agent) :=
  result <- get_paper_details w paper_id ;;
  ret (Reply (format_response result),
       remember (lit "Tool Result: " ++ result) a).

Definition think_and_act (user_input : str) (a : agent) : M (outcome * agent) :=
  let a0 := remember (lit "User: " ++ user_input) a in
  match id_request user_input with
  | Some paper_id => lookup paper_id a0
  | None =>
      if cached_title_request user_input (paper_id_cache a0)
      then lookup (lit "37635766") a0
      else decide user_input a0
  end.

End Loop.

End Agent.

(** ** streamlit_app_v2.py: structured results and pagination *)

Module AppV2.

(** The dictionary a successful fetch returns, or the failure dictionary
    with its [error] text. *)
Record paper := {
  paper_id : str ;
  title : str ;
  paper_authors : list str ;
  journal : str ;
  year : str ;
  doi : option str ;
  abstract : str
}.

(** The dictionaries the tools return: a record, the outcome of an author
    search, or a failure with its [error] text. *)
Inductive result :=
| Paper (p : paper)
| Authors (count : Z) (author : str) (paper_ids : list str)
| Failure (error : str).

Definition get_paper_details (w : world) (id : str) : M result :=
  emit (Invoke DetailsTool id) ;;;
  if negb (Str.isdigit id) then ret (Failure (lit "Invalid paper ID: " ++ id))
  else
    r <- http_fetch w id ;;
    match r with
    | Raise msg => ret (Failure (lit "Error fetching paper details: " ++ msg))
    | Ok None => ret (Failure (lit "No article found for ID " ++ id))
    | Ok (Some a) =>
        ret (Paper {| paper_id := id ;
                      title := Agent.or_default (article_title a) (lit "No title") ;
                      paper_authors := Agent.author_names a ;
                      journal := Agent.or_default (journal_title a) (lit "Unknown journal") ;
                      year := Agent.or_default (pub_year a) (lit "Unknown year") ;
                      doi := Agent.doi_of a ;
                      abstract := Agent.abstract_of a |})
    end.

Definition search_paper_by_title (w : world) (title : str) : M result :=
  emit (Invoke TitleTool title) ;;;
  r1 <- http_search w (Agent.quoted_title_term title) 5 ;;
  match r1 with
  | Raise msg => ret (Failure (lit "Error searching paper by title: " ++ msg))
  | Ok d1 =>
      match idlist d1 with
      | first :: _ => get_paper_details w first
      | [] =>
          r2 <- http_search w (Agent.plain_title_term title) 5 ;;
          match r2 with
          | Raise msg =>
              ret (Failure (lit "Error searching paper by title: " ++ msg))
          | Ok d2 =>
              match idlist d2 with
              | first :: _ => get_paper_details w first
              | [] => ret (Failure (lit "No papers found with this title."))
              end
          end
      end
  end.

Section Dispatch.

(** [int] of Python, applied to the count; [inl] is the number, [inr] the
    text of the [ValueError]. *)
Variable int_of_str : str -> Z + str.

Variable w : world.

Definition authors_dict (name : str) (d : esearch_result) : result :=
  match int_of_str (count d) with
  | inl n => Authors n name (idlist d)
  | inr msg => Failure msg
  end.

Definition search_papers_by_author (author_name : str) : M result :=
  emit (Invoke AuthorTool author_name) ;;;
  let name := cleaned_name author_name in
  r1 <- http_search w (name ++ lit "[Author]") 50 ;;
  match r1 with
  | Raise msg => ret (Failure msg)
  | Ok d1 =>
      if str_eqb (count d1) (lit "0") then
        r2 <- http_search w (Agent.last_token name ++ lit "[Author]") 50 ;;
        match r2 with
        | Raise msg => ret (Failure msg)
        | Ok d2 => ret (authors_dict name d2)
        end
      else ret (authors_dict name d1)
  end.

(** What [process_query] hands to the page: a text, a dictionary, or the
    exception of the model call. *)
Inductive answer :=
| Text (s : str)
| Dict (r : result)
| Propagated (msg : str).

Definition as_dict (m : M result) : M answer := r <- m ;; ret (Dict r).

Definition execute_tool (tool_name argument : str) : M answer :=
  if existsb (str_eqb tool_name) Agent.tools then
    if Str.contains (lit "author") tool_name
    then as_dict (search_papers_by_author argument)
    else if str_eqb tool_name (lit "get_paper_details")
    then as_dict (get_paper_details w argument)
    else if str_eqb tool_name (lit "search_paper_by_title")
    then as_dict (search_paper_by_title w argument)
    else ret (Text (Agent.unknown_tool tool_name))
  else ret (Text (Agent.unknown_tool tool_name)).

(** [process_query]; the same text in streamlit_app.py, whose tools return
    strings where these return failure dictionaries.  Its prompt has the
    user request as its only hole. *)
Definition process_query (user_input : str) : M answer :=
  match Agent.id_request user_input with
  | Some id => execute_tool (lit "get_paper_details") id
  | None =>
      r <- ask_llm w user_input [] ;;
      match r with
      | Raise msg => ret (Propagated msg)
      | Ok llm_output =>
          if Str.startswith (lit "Direct:") llm_output
          then ret (Text (Str.strip (skipn 7 llm_output)))
          else
            match Agent.parse_tool_call llm_output with
            | Some (tool_name, argument) => execute_tool tool_name argument
            | None =>
                ret (Text (lit "I couldn't understand your request. Please try again."))
            end
      end
  end.

End Dispatch.

(** The two keys of [st.session_state] the paginator uses; [None] is a key
    that is not in the session state. *)
Record session_state := {
  prev_papers_per_page : option Z ;
  current_page : option Z
}.

(** [xs[a:b]] for bounds that are not negative. *)
Definition slice (a b : Z) (xs : list str) : list str :=
  firstn (Z.to_nat (b - a)) (skipn (Z.to_nat a) xs).

Definition total_pages (n papers_per_page : Z) : Z :=
  (n + papers_per_page - 1) / papers_per_page.

(** The session state after the reset and the range checks. *)
Definition settle (papers_per_page total : Z) (st : session_state)
  : session_state :=
  let prev := match prev_papers_per_page st with
              | Some p => p
              | None => papers_per_page
              end in
  let st1 :=
    if negb (prev =? papers_per_page)%Z
    then {| prev_papers_per_page := Some papers_per_page ;
            current_page := Some 1%Z |}
    else {| prev_papers_per_page := Some prev ;
            current_page := current_page st |} in
  let cur := match current_page st1 with
             | Some c => c
             | None => 1%Z
             end in
  let cur := if (cur >? total)%Z then total else cur in
  let cur := if (cur <? 1)%Z then 1%Z else cur in
  {| prev_papers_per_page := prev_papers_per_page st1 ;
     current_page := Some cur |}.

Record page_view := {
  view_page : Z ;
  view_total_pages : Z ;
  start_idx : Z ;
  end_idx : Z ;
  current_page_ids : list str
}.

(** [st.session_state.current_page], read after [settle]. *)
Definition page_of (st : session_state) : Z :=
  match current_page st with
  | Some c => c
  | None => 1%Z
  end.

(** The first half of [display_all_author_papers]: the number of pages,
    the page, and the slice of identifiers of that page. *)
Definition view (paper_ids : list str) (papers_per_page : Z)
    (st : session_state) : session_state * page_view :=
  let n := Z.of_nat (length paper_ids) in
  let total := total_pages n papers_per_page in
  let st' := settle papers_per_page total st in
  let page := page_of st' in
  let start := ((page - 1) * papers_per_page)%Z in
  let stop := Z.min (start + papers_per_page) n in
  (st', {| view_page := page ;
           view_total_pages := total ;
           start_idx := start ;
           end_idx := stop ;
           current_page_ids := slice start stop paper_ids |}).

(** [display_all_author_papers]: the page is chosen, then every identifier
    of the page is fetched, one after the other.  The page size comes from
    a select box whose options are 5, 10, 15, 20 and 30. *)
Definition display_all_author_papers (w : world) (paper_ids : list str)
    (papers_per_page : Z) (st : session_state)
  : M (session_state * page_view * list result) :=
  let (st', v) := view paper_ids papers_per_page st in
  cards <- mapM (get_paper_details w) (current_page_ids v) ;;
  ret (st', v, cards).

(** *** Page buttons *)

(** [range(a, b)] *)
Definition range (a b : Z) : list Z :=
  map (fun i => (a + Z.of_nat i)%Z) (seq 0 (Z.to_nat (b - a))).

(** The page numbers [create_clean_pagination] makes buttons for. *)
Definition pages_to_show (current_page total_pages : Z) : list Z :=
  if (total_pages <=? 5)%Z then range 1 (total_pages + 1)
  else if (current_page <=? 3)%Z then [1; 2; 3; 4; 5]%Z
  else if (current_page >=? total_pages - 2)%Z
  then [total_pages - 4; total_pages - 3; total_pages - 2;
        total_pages - 1; total_pages]%Z
  else [current_page - 2; current_page - 1; current_page;
        current_page + 1; current_page + 2]%Z.

Inductive button :=
| Previous
| PageNumber (page_num : Z)
| Next.

(** The buttons that are drawn: at most five page numbers. *)
Definition drawn (current_page total_pages : Z) (b : button) : bool :=
  match b with
  | PageNumber p =>
      existsb (Z.eqb p) (firstn 5 (pages_to_show current_page total_pages))
  | _ => true
  end.

(** The [disabled] argument of each button; the button of the current
    page is drawn disabled. *)
Definition disabled (current_page total_pages : Z) (b : button) : bool :=
  match b with
  | Previous => (current_page <=? 1)%Z
  | PageNumber p => (p =? current_page)%Z
  | Next => (current_page >=? total_pages)%Z
  end.

(** The page the handler of each button assigns to
    [st.session_state.current_page]. *)
Definition clicked (current_page total_pages : Z) (b : button) : Z :=
  match b with
  | Previous => Z.max 1 (current_page - 1)
  | PageNumber p => p
  | Next => Z.min total_pages (current_page + 1)
  end.

(** *** What the page shows

    A call of Streamlit that draws something is a widget; a piece of HTML
    is kept as the values it is filled with. *)

Record card := {
  badge : option nat ;
  card_title : str ;
  card_authors : str ;
  card_journal : str ;
  card_year : str ;
  card_paper_id : str ;
  card_doi : str
}.

Inductive widget :=
| Success (text : str)
| Error (text : str)
| Info (text : str)
| DetailsHeading
| CardHtml (c : card)
| AbstractExpander (text : str)
| DoiLink (doi : str)
| PubMedLink (pid : str)
| CopyButton (key : str)
| StatsBar (total_papers : Z) (author_name : str) (shown : nat)
| PageHeading (current_page total_pages : Z)
| DebugLine (current_page total_pages papers_per_page : Z)
| Pagination (current_page total_pages : Z) (page_numbers : list Z)
| PaginationInfo (first last : Z) (shown : nat) (total_papers : Z).

(** [paper_number] is true when it is a number other than 0. *)
Definition truthy_number (paper_number : option nat) : option nat :=
  match paper_number with
  | Some (S n) => Some (S n)
  | _ => None
  end.

(** The card of a dictionary: [get] with its defaults.  A key that is
    present with the value [None] is formatted as the text None. *)
Definition card_of (paper_data : result) (paper_number : option nat) : card :=
  match paper_data with
  | Paper p =>
      {| badge := truthy_number paper_number ;
         card_title := title p ;
         card_authors := match paper_authors p with
                         | [] => lit "No authors listed"
                         | names => Str.join (lit ", ") names
                         end ;
         card_journal := journal p ;
         card_year := year p ;
         card_paper_id := paper_id p ;
         card_doi := match doi p with
                     | Some d => d
                     | None => lit "None"
                     end |}
  | _ =>
      {| badge := truthy_number paper_number ;
         card_title := lit "No title" ;
         card_authors := lit "No authors listed" ;
         card_journal := lit "Unknown" ;
         card_year := lit "Unknown year" ;
         card_paper_id := lit "N/A" ;
         card_doi := lit "Not available" |}
  end.

Definition copy_key (paper_data : result) (paper_number : option nat) : str :=
  lit "copy_"
  ++ match paper_data with
     | Paper p => paper_id p
     | _ => lit "unknown"
     end
  ++ lit "_"
  ++ match truthy_number paper_number with
     | Some n => Str.of_nat n
     | None => lit "single"
     end.

Definition display_paper_card (paper_data : result) (paper_number : option nat)
  : list widget :=
  [CardHtml (card_of paper_data paper_number)]
  ++ match paper_data with
     | Paper p =>
         match abstract p with
         | [] => []
         | text => if str_eqb text (lit "No abstract available") then []
                   else [AbstractExpander text]
         end
         ++ match doi p with
            | Some (c :: d) => [DoiLink (c :: d)]
            | _ => []
            end
         ++ match paper_id p with
            | [] => []
            | pid => [PubMedLink pid]
            end
     | _ => []
     end
  ++ [CopyButton (copy_key paper_data paper_number)].

(** The cards of a list of fetched dictionaries, numbered from [from]. *)
Fixpoint numbered_cards (from : nat) (cards : list result) : list widget :=
  match cards with
  | [] => []
  | c :: rest => display_paper_card c (Some from) ++ numbered_cards (S from) rest
  end.

(** [display_all_author_papers] with what it draws. *)
Definition author_page (w : world) (total_papers : Z) (author_name : str)
    (paper_ids : list str) (papers_per_page : Z) (st : session_state)
  : M (session_state * list widget) :=
  r <- display_all_author_papers w paper_ids papers_per_page st ;;
  let '(st', v, cards) := r in
  ret (st',
       [StatsBar total_papers author_name (length paper_ids);
        PageHeading (view_page v) (view_total_pages v);
        DebugLine (view_page v) (view_total_pages v) papers_per_page]
       ++ numbered_cards (Z.to_nat (start_idx v) + 1) cards
       ++ (if (view_total_pages v >? 1)%Z
           then [Pagination (view_page v) (view_total_pages v)
                   (firstn 5 (pages_to_show (view_page v) (view_total_pages v)))]
           else [])
       ++ [PaginationInfo (start_idx v + 1) (end_idx v) (length paper_ids)
             total_papers]).

(** [display_results], and for the exception of [process_query] the
    [except] branch of [main]. *)
Definition display_results (w : world) (papers_per_page : Z)
    (st : session_state) (r : answer) : M (session_state * list widget) :=
  match r with
  | Dict (Authors total_papers author_name paper_ids) =>
      author_page w total_papers author_name paper_ids papers_per_page st
  | Dict d => ret (st, display_paper_card d None)
  | Text text =>
      if Str.contains (lit "Found") text && Str.contains (lit "papers by") text
      then
        match Re.id_findall text with
        | [] => ret (st, [Success text])
        | ids =>
            cards <- mapM (get_paper_details w) (firstn 3 ids) ;;
            ret (st, [Success text; DetailsHeading] ++ numbered_cards 1 cards)
        end
      else if Str.contains (lit "Error") text then ret (st, [Error text])
      else ret (st, [Info text])
  | Propagated msg => ret (st, [Error (lit "An error occurred: " ++ msg)])
  end.

(** The search button of [main]: the query is processed and the result
    displayed. *)
Definition search (int_of_str : str -> Z + str) (w : world)
    (papers_per_page : Z) (st : session_state) (query : str)
  : M (session_state * list widget) :=
  match query with
  | [] => ret (st, [])
  | _ => r <- process_query int_of_str w query ;;
         display_results w papers_per_page st r
  end.

End AppV2.

(** ** The command line of research_paper_agent.py *)

Module Main.

Definition farewells : list str := map lit ["quit"; "exit"; "bye"]%string.

(** The loop of the main program over the lines the user types; the list
    ends where the input ends.  The result is the list of the replies
    printed, and the agent at the end.  An exception of the model call
    leaves the loop. *)
Fixpoint loop (w : world) (lines : list str) (a : Agent.agent)
  : M (list str * Agent.agent) :=
  match lines with
  | [] => ret ([], a)
  | line :: rest =>
      let user_input := Str.strip line in
      if existsb (str_eqb (Str.lower user_input)) farewells then ret ([], a)
      else
        match user_input with
        | [] => loop w rest a
        | _ =>
            r <- Agent.think_and_act w user_input a ;;
            match r with
            | (Agent.Reply response, a') =>
                r' <- loop w rest a' ;;
                ret (response :: fst r', snd r')
            | (Agent.Propagated _, a') => ret ([], a')
            end
        end
  end.

End Main.

(** * Vocabulary of the statements *)

(** [s] has no white space at either end. *)
Definition stripped (s : str) : Prop := Str.strip s = s.

(** No honorific followed by a space starts [s]. *)
Definition no_title (s : str) : bool :=
  forallb (fun t => negb (Str.startswith (t ++ lit " ") s)) titles.

(** The one-character string made of U+00B2, superscript two. *)
Definition SUPERSCRIPT_TWO : str := [ascii_of_nat 178].

(** A record of the record source, and worlds used to run the program. *)
Definition demo_article : article :=
  {| article_title := Some (lit "Cavity architecture") ;
     abstract_texts := [ {| label := lit "AIM" ; text := lit "To see." |} ;
                         {| label := [] ; text := lit "Seen." |} ] ;
     authors := [ {| last_name := lit "Doe" ; fore_name := lit "Jane" |} ] ;
     journal_title := Some (lit "J Cavities") ;
     pub_year := None ;
     article_ids := [ {| id_type := lit "pubmed" ; id_text := Some (lit "37635766") |} ;
                      {| id_type := lit "doi" ; id_text := Some (lit "10.1/x") |} ] |}.

(** The index knows a title only without quotes; the record source knows
    every identifier; the model is unreachable. *)
Definition title_world : world :=
  {| llm := fun _ _ _ => Raise (lit "unreachable") ;
     esearch := fun _ term _ =>
       if Str.startswith [Re.DQUOTE] term
       then Ok {| count := lit "0" ; idlist := [] |}
       else Ok {| count := lit "2" ; idlist := [lit "37635766"; lit "40125545"] |} ;
     efetch := fun _ _ => Ok (Some demo_article) |}.

(** The model is reached, it answers with a tool call, and the call is
    parsed as [tool_name] applied to [argument]. *)
Definition routes_to (w : world) (user_input : str) (a : Agent.agent)
    (tr : trace) (tool_name argument : str) : Prop :=
  let a0 := Agent.remember (lit "User: " ++ user_input) a in
  Agent.id_request user_input = None
  /\ Agent.cached_title_request user_input (Agent.paper_id_cache a) = false
  /\ exists llm_output,
       llm w tr user_input
           (Str.join NL (Agent.last3 (Agent.conversation_history a0)))
       = Ok llm_output
       /\ Str.startswith (lit "Direct:") llm_output = false
       /\ Agent.parse_tool_call llm_output = Some (tool_name, argument).

(** The log entry of the model call of a turn. *)
Definition llm_event (user_input : str) (a : Agent.agent) : event :=
  LLMCall user_input
    (Str.join NL (Agent.last3
       (Agent.conversation_history
          (Agent.remember (lit "User: " ++ user_input) a)))).

(** The model always answers with the same text; the index and the record
    source know nothing. *)
Definition scripted_world (answer : str) : world :=
  {| llm := fun _ _ _ => Ok answer ;
     esearch := fun _ _ _ => Ok {| count := lit "0" ; idlist := [] |} ;
     efetch := fun _ _ => Ok None |}.

(** A tool call as the model writes it. *)
Definition tool_call_text (tool_name argument : str) : str :=
  lit "Tool: " ++ tool_name ++ lit "(" ++ [Re.DQUOTE] ++ argument
  ++ [Re.DQUOTE] ++ lit ")".

(** The model is unreachable and the record source knows every
    identifier. *)
Definition record_world : world :=
  {| llm := fun _ _ _ => Raise (lit "unreachable") ;
     esearch := fun _ _ _ => Ok {| count := lit "0" ; idlist := [] |} ;
     efetch := fun _ _ => Ok (Some demo_article) |}.

(** The matches of the identifier pattern at every position of a text, in
    order.  No two of them overlap (inside a run of digits there is no word
    boundary), so this is the list [re.findall] returns; see
    [id_findall_all_positions]. *)
Fixpoint id_matches_from (prev : option ascii) (s : str) : list str :=
  match s with
  | [] => []
  | c :: s' =>
      match Re.id_match_here prev s with
      | Some m => m :: id_matches_from (Some c) s'
      | None => id_matches_from (Some c) s'
      end
  end.

(** A string of 7 to 9 decimal digits. *)
Definition id_token (tok : str) : Prop :=
  7 <= length tok <= 9 /\ forallb Char.is_decimal tok = true.

(** The last character of a text, or the one before the text. *)
Definition last_char (prev : option ascii) (s : str) : option ascii :=
  match rev s with
  | c :: _ => Some c
  | [] => prev
  end.

(** The key under which the identifier of index [j] is cached. *)
Definition cache_key (j : nat) : str := lit "paper_" ++ Str.of_nat (j + 1).

(** The model turns every utterance into an author search for it; the
    index knows five papers of authors called Jane and two of anybody
    else; the record source knows nothing. *)
Definition two_author_world : world :=
  {| llm := fun _ user_input _ =>
       Ok (tool_call_text (lit "search_papers_by_author") user_input) ;
     esearch := fun _ term _ =>
       if Str.startswith (lit "Jane") term
       then Ok {| count := lit "5" ;
                  idlist := map lit ["1111111"; "2222222"; "3333333";
                                     "4444444"; "5555555"]%string |}
       else Ok {| count := lit "2" ;
                  idlist := map lit ["6666661"; "6666662"]%string |} ;
     efetch := fun _ _ => Ok None |}.

(** The state and the trace after a turn. *)
Definition after (run : Agent.outcome * Agent.agent * trace)
  : Agent.agent * trace := (snd (fst run), snd run).

(** The name under which the author search is registered. *)
Definition AUTHOR_TOOL : str := lit "search_papers_by_author".

(** The model always answers [answer], the index always answers [found],
    the record source always answers [rec]. *)
Definition staged_world (answer : str) (found : esearch_result)
    (rec : option article) : world :=
  {| llm := fun _ _ _ => Ok answer ;
     esearch := fun _ _ _ => Ok found ;
     efetch := fun _ _ => Ok rec |}.

(** The identifiers the Record Fetcher was invoked on, in order. *)
Definition fetcher_calls (tr : trace) : list str :=
  flat_map (fun e => match e with
                     | Invoke DetailsTool id => [id]
                     | _ => []
                     end) tr.

(** The log of one fetch that passes validation. *)
Definition fetch_events (id : str) : trace :=
  [Invoke DetailsTool id; HttpFetch id].

(** The ceiling of [n / s] for a positive [s], written from the quotient
    and the remainder. *)
Definition ceil_div (n s : Z) : Z :=
  if (n mod s =? 0)%Z then (n / s)%Z else (n / s + 1)%Z.

(** A session that shows page [p] with [s] papers per page. *)
Definition on_page (p s : Z) : AppV2.session_state :=
  {| AppV2.prev_papers_per_page := Some s ; AppV2.current_page := Some p |}.

(** A session in which nothing is stored yet. *)
Definition fresh_session : AppV2.session_state :=
  {| AppV2.prev_papers_per_page := None ; AppV2.current_page := None |}.

(** The page the session asks for: the tracked page, or 1 when nothing is
    tracked or when the page size is not the one of the previous run. *)
Definition requested_page (s : Z) (st : AppV2.session_state) : Z :=
  match AppV2.prev_papers_per_page st with
  | Some p =>
      if (p =? s)%Z
      then match AppV2.current_page st with
           | Some c => c
           | None => 1%Z
           end
      else 1%Z
  | None =>
      match AppV2.current_page st with
      | Some c => c
      | None => 1%Z
      end
  end.

(** A computation only adds to the log. *)
Definition extends {A : Type} (m : M A) : Prop :=
  forall tr, exists evs, snd (m tr) = tr ++ evs.


(** No character of [s] is white space. *)
Definition no_space (s : str) : bool :=
  forallb (fun c => negb (Char.isspace c)) s.

(** The index fails on every query; the model asks for the title tool. *)
Definition broken_index_world : world :=
  {| llm := fun _ _ _ => Raise (lit "unreachable") ;
     esearch := fun _ _ _ => Raise (lit "timed out") ;
     efetch := fun _ _ => Ok (Some demo_article) |}.

(** The index knows the last name Doe only. *)
Definition last_name_world : world :=
  {| llm := fun _ _ _ => Raise (lit "unreachable") ;
     esearch := fun _ term _ =>
       if str_eqb term (lit "Doe[Author]")
       then Ok {| count := lit "2" ; idlist := [lit "11111111"; lit "22222222"] |}
       else Ok {| count := lit "0" ; idlist := [] |} ;
     efetch := fun _ _ => Ok None |}.

(** The five keys the agent ever writes to its cache. *)
Definition five_keys : list str :=
  map lit ["paper_1"; "paper_2"; "paper_3"; "paper_4"; "paper_5"]%string.

(** A cache with distinct keys among the five, each holding a string of 7
    to 9 decimal digits. *)
Definition cache_ok (d : Dict.t) : Prop :=
  NoDup (map fst d)
  /\ Forall (fun kv => In (fst kv) five_keys /\ id_token (snd kv)) d.

(** The card of a dictionary that is not a record, and what is drawn for
    it when it stands alone. *)
Definition blank_card : AppV2.card :=
  {| AppV2.badge := None ;
     AppV2.card_title := lit "No title" ;
     AppV2.card_authors := lit "No authors listed" ;
     AppV2.card_journal := lit "Unknown" ;
     AppV2.card_year := lit "Unknown year" ;
     AppV2.card_paper_id := lit "N/A" ;
     AppV2.card_doi := lit "Not available" |}.

Definition blank_page : list AppV2.widget :=
  [AppV2.CardHtml blank_card; AppV2.CopyButton (lit "copy_unknown_single")].

(** [int] on the decimal numbers of at most one digit, enough to run the
    examples; any other text is refused. *)
Definition small_int (s : str) : Z + str :=
  match s with
  | [c] => if Char.is_decimal c then inl (Z.of_N (Char.code c) - 48)%Z
           else inr (lit "invalid literal")
  | _ => inr (lit "invalid literal")
  end.

(** The answer of an index that finds nothing. *)
Definition nothing_found : esearch_result :=
  {| count := lit "0" ; idlist := [] |}.

(** The lines of the record [a] under the identifier [paper_id]: the
    identifier, the title, the authors, the journal with the year, and the
    DOI. *)
Definition holds_fields (paper_id : str) (a : article) (text : str) : Prop :=
  Str.contains (lit "Paper ID: " ++ paper_id ++ NL) text = true
  /\ Str.contains (lit "Title: "
                   ++ Agent.or_default (article_title a) (lit "No title") ++ NL)
       text = true
  /\ Str.contains (lit "Authors: "
                   ++ match Agent.author_names a with
                      | [] => lit "No authors listed"
                      | names => Str.join (lit ", ") names
                      end ++ NL) text = true
  /\ Str.contains (lit "Journal: "
                   ++ Agent.or_default (journal_title a) (lit "Unknown journal")
                   ++ lit " ("
                   ++ Agent.or_default (pub_year a) (lit "Unknown year")
                   ++ lit ")" ++ NL) text = true
  /\ Str.contains (lit "DOI: "
                   ++ Agent.or_else (Agent.doi_of a) (lit "Not available") ++ NL)
       text = true.


(** The heading of a card, and the card of a record after its heading:
    the text that follows the heading in what the Record Fetcher returns. *)
Definition HEADING : str := lit "PAPER DETAILS:".

Definition card_body (paper_id : str) (a : article) : str :=
  skipn (length (NL ++ HEADING)) (Agent.render_details paper_id a).

(** [sep] starts at no position of [x] in the text [x ++ rest]. *)
Fixpoint no_start (sep x rest : str) : bool :=
  match x with
  | [] => true
  | _ :: x' => negb (Str.startswith sep (x ++ rest)) && no_start sep x' rest
  end.

(** A record whose title holds the heading of a card. *)
Definition heading_article : article :=
  {| article_title := Some (lit "On PAPER DETAILS: a view") ;
     abstract_texts := [] ;
     authors := [] ;
     journal_title := None ;
     pub_year := None ;
     article_ids := [] |}.

(** The text of the reply of a turn; empty when the turn ended with the
    exception of the model call. *)
Definition reply_text (run : Agent.outcome * Agent.agent * trace) : str :=
  match fst (fst run) with
  | Agent.Reply text => text
  | Agent.Propagated _ => []
  end.

(** An index answer with the count 5 and five identifiers of eight
    digits. *)
Definition five_found : esearch_result :=
  {| count := lit "5" ;
     idlist := map lit ["11111111"; "22222222"; "33333333";
                        "44444444"; "55555555"]%string |}.


(** The same for the web variant, whose Record Fetcher returns a
    dictionary: every field of the record is filled from the answer of the
    record source. *)
Definition resolved_v2 (w : world) (first : str) (tr' : trace)
    (run : AppV2.result * trace) : Prop :=
  if Str.isdigit first then
    snd run = tr' ++ [Invoke DetailsTool first; HttpFetch first]
    /\ match efetch w (tr' ++ [Invoke DetailsTool first]) first with
       | Ok (Some a) =>
           exists p,
             fst run = AppV2.Paper p
             /\ AppV2.paper_id p = first
             /\ AppV2.title p
                = Agent.or_default (article_title a) (lit "No title")
             /\ AppV2.paper_authors p = Agent.author_names a
             /\ AppV2.journal p
                = Agent.or_default (journal_title a) (lit "Unknown journal")
             /\ AppV2.year p
                = Agent.or_default (pub_year a) (lit "Unknown year")
             /\ AppV2.doi p = Agent.doi_of a
             /\ AppV2.abstract p = Agent.abstract_of a
       | Ok None =>
           fst run = AppV2.Failure (lit "No article found for ID " ++ first)
       | Raise msg =>
           fst run = AppV2.Failure (lit "Error fetching paper details: " ++ msg)
       end
  else
    run = (AppV2.Failure (lit "Invalid paper ID: " ++ first),
           tr' ++ [Invoke DetailsTool first]).

(** A second record, and a world for a session of two turns: the model
    asks for an author search when the utterance holds [papers by] and
    otherwise answers directly that it does not know the paper; the index
    knows one paper of the author, and the record source answers with the
    second record. *)
Definition gut_article : article :=
  {| article_title := Some (lit "HgutMgene-Miner: genome mining of the gut microbiome") ;
     abstract_texts := [ {| label := [] ; text := lit "A mining tool." |} ] ;
     authors := [ {| last_name := lit "Doe" ; fore_name := lit "Jane" |} ] ;
     journal_title := Some (lit "J Microbes") ;
     pub_year := Some (lit "2025") ;
     article_ids := [] |}.

Definition topic_world : world :=
  {| llm := fun _ user_input _ =>
       if Str.contains (lit "papers by") (Str.lower user_input)
       then Ok (tool_call_text (lit "search_papers_by_author") (lit "Jane Doe"))
       else Ok (lit "Direct: Which paper do you mean?") ;
     esearch := fun _ _ _ => Ok {| count := lit "1" ; idlist := [lit "40125545"] |} ;
     efetch := fun _ _ => Ok (Some gut_article) |}.

(** * Lemmas *)

(** ** The definitions at work *)

Example split_demo :
  Str.split (lit "--") (lit "a--b----c-") = [lit "a"; lit "b"; []; lit "c-"].
Proof. reflexivity. Qed.

Example split_ws_demo :
  Str.split_ws (lit "  Jane   van Doe ") = [lit "Jane"; lit "van"; lit "Doe"].
Proof. reflexivity. Qed.

Example of_nat_demo : Str.of_nat 0 = lit "0" /\ Str.of_nat 37 = lit "37".
Proof. split; reflexivity. Qed.

Example id_search_demo :
  Re.id_search (lit "Tell me about paper 37635766") = Some (lit "37635766")
  /\ Re.id_search (lit "x1234567 12345678901 a 123456789.") = Some (lit "123456789")
  /\ Re.id_search (lit "id 1234567890") = None.
Proof. repeat split. Qed.

Example id_findall_demo :
  Re.id_findall (lit "Found 3 papers by A B. Paper IDs: 1234567, 123456, 40125545")
  = [lit "1234567"; lit "40125545"].
Proof. reflexivity. Qed.

Example tool_search_demo :
  Re.tool_search (lit "I think Tool:  get_paper_details(" ++ [Re.DQUOTE]
                  ++ lit "40125545" ++ [Re.DQUOTE] ++ lit ") is right")
  = Some (lit "get_paper_details", lit "40125545").
Proof. reflexivity. Qed.

Example cleaned_name_demo :
  cleaned_name (lit "  Prof. Dr. Jane Doe ") = lit "Dr. Jane Doe"
  /\ cleaned_name (lit "Dr. Prof. Jane Doe") = lit "Jane Doe".
Proof. split; reflexivity. Qed.

Example dict_demo :
  Dict.to_str (Dict.set (lit "paper_1") (lit "40125545")
                 (Dict.set (lit "paper_2") (lit "2222222")
                    (Dict.set (lit "paper_1") (lit "1111111") [])))
  = lit "{'paper_1': '40125545', 'paper_2': '2222222'}".
Proof. reflexivity. Qed.


(** ** Strings *)

Section StringFacts.

Lemma str_eqb_eq (a b : str) : str_eqb a b = true <-> a = b.
Proof.
  unfold str_eqb. destruct (list_eq_dec ascii_dec a b); split; congruence.
Qed.

Lemma str_eqb_neq (a b : str) : str_eqb a b = false <-> a <> b.
Proof.
  unfold str_eqb. destruct (list_eq_dec ascii_dec a b); split; congruence.
Qed.

Lemma str_eqb_refl (a : str) : str_eqb a a = true.
Proof. now apply str_eqb_eq. Qed.

Lemma startswith_app (p r : str) : Str.startswith p (p ++ r) = true.
Proof.
  induction p as [|c p IH]; simpl; [reflexivity|].
  now rewrite Ascii.eqb_refl.
Qed.

Lemma startswith_split (p s : str) :
  Str.startswith p s = true -> exists r, s = p ++ r.
Proof.
  revert s. induction p as [|c p IH]; intros s H.
  - now exists s.
  - destruct s as [|d s]; simpl in H; [discriminate|].
    apply andb_prop in H. destruct H as [Hc Hp].
    apply Ascii.eqb_eq in Hc. subst d.
    destruct (IH _ Hp) as [r ->]. now exists r.
Qed.

Lemma contains_app (x a b : str) : Str.contains x (a ++ x ++ b) = true.
Proof.
  induction a as [|c a IH].
  - simpl. destruct (x ++ b) eqn:E; simpl.
    + destruct x; [reflexivity | discriminate].
    + rewrite <- E, startswith_app. reflexivity.
  - simpl. rewrite IH. apply orb_true_r.
Qed.

Lemma contains_split (x s : str) :
  Str.contains x s = true -> exists a b, s = a ++ x ++ b.
Proof.
  induction s as [|c s IH]; simpl; intros H.
  - rewrite orb_false_r in H.
    destruct (startswith_split _ _ H) as [r ->]. now exists [], r.
  - apply orb_prop in H. destruct H as [H|H].
    + destruct (startswith_split _ _ H) as [r ->]. now exists [], r.
    + destruct (IH H) as (a & b & ->). now exists (c :: a), b.
Qed.


Lemma contains_after (x p s : str) :
  Str.contains x s = true -> Str.contains x (p ++ s) = true.
Proof.
  intros H. induction p as [|c p IH]; [exact H|].
  cbn [app Str.contains]. rewrite IH. apply orb_true_r.
Qed.

Lemma contains_before (x s t : str) :
  Str.contains x s = true -> Str.contains x (s ++ t) = true.
Proof.
  intros H. destruct (contains_split _ _ H) as (a & b & ->).
  rewrite <- !app_assoc. apply contains_app.
Qed.

Lemma contains_head (x b : str) : Str.contains x (x ++ b) = true.
Proof. apply (contains_app x [] b). Qed.

Lemma dropwhile_idem p (s : str) :
  Str.dropwhile p (Str.dropwhile p s) = Str.dropwhile p s.
Proof.
  induction s as [|c s IH]; simpl; [reflexivity|].
  destruct (p c) eqn:E; [exact IH|]. simpl. now rewrite E.
Qed.

Lemma dropwhile_snoc p (s : str) (c : ascii) :
  p c = false -> Str.dropwhile p (s ++ [c]) = Str.dropwhile p s ++ [c].
Proof.
  intros Hc. induction s as [|d s IH]; simpl.
  - now rewrite Hc.
  - destruct (p d); [exact IH | reflexivity].
Qed.

Lemma lstrip_idem (s : str) : Str.lstrip (Str.lstrip s) = Str.lstrip s.
Proof. apply dropwhile_idem. Qed.

Lemma rstrip_idem (s : str) : Str.rstrip (Str.rstrip s) = Str.rstrip s.
Proof.
  unfold Str.rstrip. now rewrite rev_involutive, dropwhile_idem.
Qed.

Lemma rstrip_cons (c : ascii) (s : str) :
  Char.isspace c = false -> Str.rstrip (c :: s) = c :: Str.rstrip s.
Proof.
  intros Hc. unfold Str.rstrip. simpl.
  rewrite dropwhile_snoc by exact Hc. now rewrite rev_app_distr.
Qed.

Lemma lstrip_rstrip_lstrip (s : str) :
  Str.lstrip (Str.rstrip (Str.lstrip s)) = Str.rstrip (Str.lstrip s).
Proof.
  unfold Str.lstrip at 2 3.
  induction s as [|c s IH]; simpl; [reflexivity|].
  destruct (Char.isspace c) eqn:E; [exact IH|].
  rewrite rstrip_cons by exact E. unfold Str.lstrip. simpl. now rewrite E.
Qed.

Lemma strip_idem (s : str) : Str.strip (Str.strip s) = Str.strip s.
Proof.
  unfold Str.strip. now rewrite lstrip_rstrip_lstrip, rstrip_idem.
Qed.

End StringFacts.

(** ** Author-name clean-up *)

Section CleanedName.

Lemma strip_title_stripped (s t : str) :
  stripped s -> stripped (strip_title s t).
Proof.
  unfold stripped, strip_title. intros Hs.
  destruct (Str.startswith (t ++ lit " ") s); [apply strip_idem | exact Hs].
Qed.

Lemma fold_strip_title_stripped (ts : list str) (s : str) :
  stripped s -> stripped (fold_left strip_title ts s).
Proof.
  revert s. induction ts as [|t ts IH]; intros s Hs; simpl; [exact Hs|].
  apply IH. now apply strip_title_stripped.
Qed.

Lemma cleaned_name_stripped (x : str) : stripped (cleaned_name x).
Proof.
  unfold cleaned_name. apply fold_strip_title_stripped.
  unfold stripped. apply strip_idem.
Qed.

Lemma fold_strip_title_fixed (ts : list str) (s : str) :
  forallb (fun t => negb (Str.startswith (t ++ lit " ") s)) ts = true ->
  fold_left strip_title ts s = s.
Proof.
  induction ts as [|t ts IH]; cbn [forallb fold_left]; intros H; [reflexivity|].
  apply andb_prop in H. destruct H as [Ht Hts].
  unfold strip_title at 2. apply negb_true_iff in Ht. rewrite Ht.
  now apply IH.
Qed.

Lemma cleaned_name_fixed (s : str) :
  stripped s -> no_title s = true -> cleaned_name s = s.
Proof.
  intros Hs Hn. unfold cleaned_name. rewrite Hs.
  now apply fold_strip_title_fixed.
Qed.

(** C3, first half alone: every honorific of the list is removed from the
    front of a plain name. *)
Lemma cleaned_name_strips_each_title :
  Forall (fun P => cleaned_name (P ++ lit " Jane Doe") = lit "Jane Doe") titles.
Proof. repeat constructor. Qed.

(** C3 as stated fails: the loop runs over the honorifics once, in list
    order, so [Dr.] is tried before [Dr] is removed and survives the first
    pass. *)
Lemma cleaned_name_not_idempotent :
  ~ ((forall P, In P titles ->
        cleaned_name (P ++ lit " Jane Doe") = lit "Jane Doe")
     /\ (forall x, cleaned_name (cleaned_name x) = cleaned_name x)).
Proof.
  intros [_ H]. specialize (H (lit "Dr Dr. Jane Doe")).
  vm_compute in H. discriminate H.
Qed.

(** C3, amended: every honorific of the list is removed from the front of
    [Jane Doe]; a cleaned name never has surrounding white space; and the
    clean-up is idempotent at every input whose cleaned name no longer
    starts with an honorific followed by a space. *)
Theorem cleaned_name_idempotent_when_no_title_left :
  (forall P, In P titles ->
     cleaned_name (P ++ lit " Jane Doe") = lit "Jane Doe")
  /\ (forall x, Str.strip (cleaned_name x) = cleaned_name x)
  /\ (forall x, no_title (cleaned_name x) = true ->
        cleaned_name (cleaned_name x) = cleaned_name x).
Proof.
  split; [|split].
  - apply Forall_forall. exact cleaned_name_strips_each_title.
  - exact cleaned_name_stripped.
  - intros x Hx. apply cleaned_name_fixed; [apply cleaned_name_stripped | exact Hx].
Qed.

Lemma cleaned_name_idempotent_witness :
  no_title (cleaned_name (lit "Prof. Jane Doe")) = true
  /\ cleaned_name (cleaned_name (lit "Prof. Jane Doe"))
     = cleaned_name (lit "Prof. Jane Doe").
Proof.
  split; [reflexivity|].
  apply (proj2 (proj2 cleaned_name_idempotent_when_no_title_left)).
  reflexivity.
Defined.

End CleanedName.

(** ** Record Fetcher *)

Section RecordFetcher.

Variable w : world.

Lemma get_paper_details_invalid (s : str) (tr : trace) :
  Str.isdigit s = false ->
  Agent.get_paper_details w s tr
  = (Agent.invalid_id s, tr ++ [Invoke DetailsTool s]).
Proof.
  intros H. unfold Agent.get_paper_details, bind, emit, ret. now rewrite H.
Qed.

Lemma get_paper_details_valid (s : str) (tr : trace) :
  Str.isdigit s = true ->
  Agent.get_paper_details w s tr
  = (match efetch w (tr ++ [Invoke DetailsTool s]) s with
     | Raise msg => lit "Error fetching paper details: " ++ msg
     | Ok None => lit "No article found for ID " ++ s
     | Ok (Some a) => Agent.render_details s a
     end,
     tr ++ [Invoke DetailsTool s; HttpFetch s]).
Proof.
  intros H. unfold Agent.get_paper_details, bind, emit, ret, http_fetch.
  rewrite H. cbn [negb]. rewrite <- app_assoc. cbn [app].
  destruct (efetch w (tr ++ [Invoke DetailsTool s]) s) as [[a|]|msg]; reflexivity.
Qed.

Lemma get_paper_details_v2_trace (s : str) (tr : trace) :
  Str.isdigit s = true ->
  snd (AppV2.get_paper_details w s tr)
  = tr ++ [Invoke DetailsTool s; HttpFetch s].
Proof.
  intros H. unfold AppV2.get_paper_details, bind, emit, ret, http_fetch.
  rewrite H. cbn [negb]. rewrite <- app_assoc. cbn [app].
  destruct (efetch w (tr ++ [Invoke DetailsTool s]) s) as [[a|]|msg]; reflexivity.
Qed.

Lemma get_paper_details_v2_invalid (s : str) (tr : trace) :
  Str.isdigit s = false ->
  AppV2.get_paper_details w s tr
  = (AppV2.Failure (lit "Invalid paper ID: " ++ s), tr ++ [Invoke DetailsTool s]).
Proof.
  intros H. unfold AppV2.get_paper_details, bind, emit, ret. now rewrite H.
Qed.

Lemma decimal_is_digit (c : ascii) :
  Char.is_decimal c = true -> Char.isdigit c = true.
Proof. unfold Char.isdigit. now intros ->. Qed.

Lemma decimals_isdigit (s : str) :
  s <> [] -> forallb Char.is_decimal s = true -> Str.isdigit s = true.
Proof.
  intros Hne H. destruct s as [|c s]; [congruence|].
  unfold Str.isdigit. apply forallb_forall. intros x Hx.
  apply decimal_is_digit. revert x Hx. now apply forallb_forall.
Qed.

End RecordFetcher.

(** C7 at its failing input.  The string made of the single character
    U+00B2 is not composed of decimal digits, [str.isdigit] accepts it, and
    both variants of the Record Fetcher go on to the network call instead
    of returning the validation failure. *)
Theorem get_paper_details_fetches_superscript_two (w : world) (tr : trace) :
  forallb Char.is_decimal SUPERSCRIPT_TWO = false
  /\ Str.isdigit SUPERSCRIPT_TWO = true
  /\ snd (Agent.get_paper_details w SUPERSCRIPT_TWO tr)
     = tr ++ [Invoke DetailsTool SUPERSCRIPT_TWO; HttpFetch SUPERSCRIPT_TWO]
  /\ fst (Agent.get_paper_details w SUPERSCRIPT_TWO tr)
     <> Agent.invalid_id SUPERSCRIPT_TWO
  /\ snd (AppV2.get_paper_details w SUPERSCRIPT_TWO tr)
     = tr ++ [Invoke DetailsTool SUPERSCRIPT_TWO; HttpFetch SUPERSCRIPT_TWO].
Proof.
  split; [reflexivity|]. split; [reflexivity|].
  rewrite get_paper_details_valid by reflexivity. cbn [fst snd].
  split; [reflexivity|]. split.
  - destruct (efetch w (tr ++ [Invoke DetailsTool SUPERSCRIPT_TWO]) SUPERSCRIPT_TWO)
      as [[a|]|msg]; vm_compute; discriminate.
  - now apply get_paper_details_v2_trace.
Qed.

(** ** Title search *)



(** The rendering of a record holds every line of the record. *)
Lemma contains_starts (p s : str) :
  (exists b, s = p ++ b) -> Str.contains p s = true.
Proof. intros [b ->]. apply contains_head. Qed.





(** ** The dispatch loop *)

(** Closes [routes_to] in a world that computes. *)
Ltac route :=
  split; [reflexivity|]; split; [reflexivity|];
  eexists; split; [reflexivity|]; split; reflexivity.

Section Dispatch.

Variable w : world.

Lemma think_and_act_routed (u : str) (a : Agent.agent) (tr : trace)
    (tool_name argument : str) :
  routes_to w u a tr tool_name argument ->
  Agent.think_and_act w u a tr
  = Agent.act w tool_name argument
      (Agent.remember (lit "User: " ++ u) a) (tr ++ [llm_event u a]).
Proof.
  intros (Hid & Hc & out & Hllm & Hd & Hp).
  unfold Agent.think_and_act. rewrite Hid.
  change (Agent.paper_id_cache (Agent.remember (lit "User: " ++ u) a))
    with (Agent.paper_id_cache a).
  rewrite Hc. unfold Agent.decide, bind, ask_llm.
  rewrite Hllm, Hd, Hp. reflexivity.
Qed.

Lemma takewhile_forallb p (s : str) : forallb p (Str.takewhile p s) = true.
Proof.
  induction s as [|c s IH]; simpl; [reflexivity|].
  destruct (p c) eqn:E; simpl; [now rewrite E | reflexivity].
Qed.

Lemma tool_match_here_name (s name arg : str) :
  Re.tool_match_here s = Some (name, arg) ->
  forallb Char.is_word name = true /\ name <> [].
Proof.
  unfold Re.tool_match_here.
  destruct (Str.startswith (lit "Tool:") s); [|discriminate].
  set (r1 := Str.dropwhile Char.isspace (skipn 5 s)).
  destruct (Str.takewhile Char.is_word r1) as [|c n] eqn:En; [discriminate|].
  destruct (Str.startswith _ _); [|discriminate].
  destruct (Str.takewhile Re.not_dquote _); [discriminate|].
  destruct (Str.startswith _ _); [|discriminate].
  intros H. injection H as <- _. split; [|discriminate].
  rewrite <- En. apply takewhile_forallb.
Qed.

Lemma parse_tool_call_name (out name arg : str) :
  Agent.parse_tool_call out = Some (name, arg) ->
  forallb Char.is_word name = true /\ name <> [].
Proof.
  unfold Agent.parse_tool_call.
  induction out as [|c out IH]; cbn [Re.tool_search].
  - destruct (Re.tool_match_here []) as [[n x]|] eqn:E; [|discriminate].
    intros H. injection H as -> ->. eapply tool_match_here_name; eauto.
  - destruct (Re.tool_match_here (c :: out)) as [[n x]|] eqn:E; [|exact IH].
    intros H. injection H as -> ->. eapply tool_match_here_name; eauto.
Qed.

(** A needle with a character that is not a word character cannot reach
    into a run of word characters: if it occurs in [pre ++ name], its part
    up to that character occurs in [pre]. *)
Lemma startswith_stops_at_word_run (n1 n2 : str) (c : ascii) (name : str) :
  Char.is_word c = false -> forallb Char.is_word name = true ->
  forall pre,
    Str.startswith (n1 ++ c :: n2) (pre ++ name) = true ->
    Str.startswith (n1 ++ [c]) pre = true.
Proof.
  intros Hc. revert name.
  induction n1 as [|z n1 IH]; intros name Hn pre H.
  - destruct pre as [|y pre]; cbn in H |- *.
    + destruct name as [|x name]; [discriminate|].
      cbn in Hn. apply andb_prop in H. destruct H as [H _].
      apply Ascii.eqb_eq in H. subst x.
      rewrite Hc in Hn. discriminate.
    + apply andb_prop in H. destruct H as [H _]. now rewrite H.
  - destruct pre as [|y pre]; cbn in H |- *.
    + destruct name as [|x name]; [discriminate|].
      apply andb_prop in H. destruct H as [_ H].
      cbn in Hn. apply andb_prop in Hn. destruct Hn as [_ Hn].
      specialize (IH name Hn [] H). destruct n1; discriminate IH.
    + apply andb_prop in H. destruct H as [H1 H2]. rewrite H1. cbn.
      now apply IH with (name := name).
Qed.

Lemma contains_stops_at_word_run (n1 n2 : str) (c : ascii) (name : str) :
  Char.is_word c = false -> forallb Char.is_word name = true ->
  forall pre,
    Str.contains (n1 ++ c :: n2) (pre ++ name) = true ->
    Str.contains (n1 ++ [c]) pre = true.
Proof.
  intros Hc Hn pre. induction pre as [|y pre IH]; intros H.
  - cbn [app] in H. destruct (contains_split _ _ H) as (x & b & E).
    assert (Hin : In c name).
    { rewrite E. apply in_or_app. right. apply in_or_app. left.
      apply in_or_app. right. now left. }
    rewrite forallb_forall in Hn. rewrite (Hn _ Hin) in Hc. discriminate.
  - cbn [app Str.contains] in H |- *. apply orb_prop in H.
    destruct H as [H|H].
    + change (y :: pre ++ name) with ((y :: pre) ++ name) in H.
      rewrite (startswith_stops_at_word_run n1 n2 c name Hc Hn _ H). reflexivity.
    + rewrite (IH H). apply orb_true_r.
Qed.

Lemma unknown_tool_plain (name : str) :
  forallb Char.is_word name = true ->
  Str.contains (lit "Paper IDs:") (Agent.unknown_tool name) = false
  /\ Agent.format_response (Agent.unknown_tool name) = Agent.unknown_tool name.
Proof.
  intros Hn.
  assert (no : forall n1 n2,
             Str.contains (n1 ++ " "%char :: n2) (Agent.unknown_tool name) = true ->
             Str.contains (n1 ++ [" "%char]) (lit "Unknown tool: ") = false ->
             False).
  { intros n1 n2 H F. unfold Agent.unknown_tool in H.
    rewrite (contains_stops_at_word_run n1 n2 " "%char name eq_refl Hn _ H) in F.
    discriminate. }
  split.
  - destruct (Str.contains (lit "Paper IDs:") _) eqn:E; [|reflexivity].
    exfalso. now apply (no (lit "Paper") (lit "IDs:") E).
  - unfold Agent.format_response.
    destruct (Str.contains (lit "PAPER DETAILS:") _) eqn:E1; [reflexivity|].
    destruct (Str.contains (lit "papers by") _) eqn:E2.
    + exfalso. now apply (no (lit "papers") (lit "by") E2).
    + now rewrite andb_false_r.
Qed.

End Dispatch.

(** C2 as stated fails: a call to a tool that is not registered is
    answered with the text naming the unknown tool, not with the fixed
    clarification message. *)
Lemma unknown_tool_not_clarified :
  let out := tool_call_text (lit "summarize_paper") (lit "40125545") in
  let w := scripted_world out in
  Agent.parse_tool_call out = Some (lit "summarize_paper", lit "40125545")
  /\ existsb (str_eqb (lit "summarize_paper")) Agent.tools = false
  /\ fst (fst (Agent.think_and_act w (lit "Summarize 40125545") Agent.init []))
     <> Agent.Reply Agent.clarification.
Proof. vm_compute. repeat split; discriminate. Qed.

(** C2, amended.  When the model output parses as a call of a tool that is
    not one of the three registered ones, no tool is invoked and nothing is
    sent to the index or the record source; the reply is the text
    [Unknown tool: ] followed by the name, which is not the fixed
    clarification message; the history gains the user line and the
    truncated tool-result line, and the cache is left as it was. *)
Theorem unregistered_tool_is_reported
    (w : world) (u : str) (a : Agent.agent) (tr : trace) (name arg : str) :
  routes_to w u a tr name arg ->
  existsb (str_eqb name) Agent.tools = false ->
  Agent.think_and_act w u a tr
  = (Agent.Reply (Agent.unknown_tool name),
     Agent.remember (lit "Tool: " ++ name ++ lit ", Result: "
                     ++ firstn 200 (Agent.unknown_tool name) ++ lit "...")
       (Agent.remember (lit "User: " ++ u) a),
     tr ++ [llm_event u a])
  /\ Agent.unknown_tool name <> Agent.clarification.
Proof.
  intros R Hreg. split; [|discriminate].
  rewrite (think_and_act_routed w u a tr name arg R).
  destruct R as (_ & _ & out & _ & _ & Hp).
  destruct (parse_tool_call_name out name arg Hp) as [Hw _].
  destruct (unknown_tool_plain name Hw) as [Hids Hfmt].
  unfold Agent.act, Agent.execute_tool, bind, ret. rewrite Hreg.
  rewrite Hids, andb_false_r, Hfmt. reflexivity.
Qed.

Lemma unregistered_tool_is_reported_witness :
  let out := tool_call_text (lit "summarize_paper") (lit "40125545") in
  fst (fst (Agent.think_and_act (scripted_world out) (lit "Summarize 40125545")
              Agent.init []))
  = Agent.Reply (lit "Unknown tool: summarize_paper").
Proof.
  intros out.
  assert (R : routes_to (scripted_world out) (lit "Summarize 40125545")
                Agent.init [] (lit "summarize_paper") (lit "40125545")).
  { route. }
  rewrite (proj1 (unregistered_tool_is_reported _ _ _ _ _ _ R eq_refl)). reflexivity.
Defined.

(** ** The identifier shortcut *)

Section IdShortcut.

Lemma format_response_contains (x r : str) :
  Str.contains x r = true -> Str.contains x (Agent.format_response r) = true.
Proof.
  intros H. unfold Agent.format_response.
  destruct (Str.contains (lit "PAPER DETAILS:") r); [exact H|].
  destruct (_ && _); [|exact H].
  do 2 apply contains_after. now apply contains_before.
Qed.

Lemma render_details_contains_id (pid : str) (a : article) :
  Str.contains pid (Agent.render_details pid a) = true.
Proof.
  unfold Agent.render_details.
  do 6 apply contains_after. apply contains_head.
Qed.

Lemma digits_then_boundary_sound (k : nat) (s m : str) :
  Re.digits_then_boundary k s = Some m ->
  length m = k /\ forallb Char.is_decimal m = true /\ m = firstn k s.
Proof.
  unfold Re.digits_then_boundary.
  destruct (length (firstn k s) =? k) eqn:El; [|discriminate].
  destruct (forallb Char.is_decimal (firstn k s)) eqn:Ed; [|discriminate].
  destruct (Re.boundary _ _); [|discriminate].
  intros H. injection H as <-. apply Nat.eqb_eq in El. auto.
Qed.

Lemma id_match_here_sound (prev : option ascii) (s m : str) :
  Re.id_match_here prev s = Some m ->
  7 <= length m <= 9 /\ forallb Char.is_decimal m = true
  /\ exists k, m = firstn k s.
Proof.
  unfold Re.id_match_here.
  destruct (Re.boundary prev (hd_error s)); [|discriminate].
  destruct (Re.digits_then_boundary 9 s) eqn:E9.
  { intros H. injection H as <-.
    destruct (digits_then_boundary_sound _ _ _ E9) as (L & D & F).
    rewrite L. repeat split; try lia; eauto. }
  destruct (Re.digits_then_boundary 8 s) eqn:E8.
  { intros H. injection H as <-.
    destruct (digits_then_boundary_sound _ _ _ E8) as (L & D & F).
    rewrite L. repeat split; try lia; eauto. }
  intros E7.
  destruct (digits_then_boundary_sound _ _ _ E7) as (L & D & F).
  rewrite L. repeat split; try lia; eauto.
Qed.

Lemma id_search_from_sound (s : str) (prev : option ascii) (m : str) :
  Re.id_search_from prev s = Some m ->
  7 <= length m <= 9 /\ forallb Char.is_decimal m = true.
Proof.
  revert prev. induction s as [|c s IH]; intros prev; cbn [Re.id_search_from].
  - destruct (Re.id_match_here prev []) eqn:E; [|discriminate].
    intros H. injection H as <-.
    destruct (id_match_here_sound _ _ _ E) as (L & D & _). auto.
  - destruct (Re.id_match_here prev (c :: s)) eqn:E.
    + intros H. injection H as <-.
      destruct (id_match_here_sound _ _ _ E) as (L & D & _). auto.
    + apply IH.
Qed.

Lemma id_token_isdigit (m : str) :
  7 <= length m <= 9 -> forallb Char.is_decimal m = true ->
  Str.isdigit m = true.
Proof.
  intros L D. apply decimals_isdigit; [|exact D].
  intros ->. cbn in L. lia.
Qed.

Variable w : world.

Lemma lookup_run (pid : str) (a : Agent.agent) (tr : trace) :
  Str.isdigit pid = true ->
  exists result,
    Agent.lookup w pid a tr
    = (Agent.Reply (Agent.format_response result),
       Agent.remember (lit "Tool Result: " ++ result) a,
       tr ++ [Invoke DetailsTool pid; HttpFetch pid])
    /\ (forall r, efetch w (tr ++ [Invoke DetailsTool pid]) pid = Ok r ->
          Str.contains pid result = true).
Proof.
  intros Hd. unfold Agent.lookup, bind, ret.
  rewrite (get_paper_details_valid w pid tr Hd).
  eexists. split; [reflexivity|].
  intros r Hr. rewrite Hr. destruct r as [art|].
  - apply render_details_contains_id.
  - apply contains_after. rewrite <- (app_nil_r pid) at 2. apply contains_head.
Qed.

Lemma get_paper_details_v2_valid (s : str) (tr : trace) :
  Str.isdigit s = true ->
  AppV2.get_paper_details w s tr
  = (match efetch w (tr ++ [Invoke DetailsTool s]) s with
     | Raise msg => AppV2.Failure (lit "Error fetching paper details: " ++ msg)
     | Ok None => AppV2.Failure (lit "No article found for ID " ++ s)
     | Ok (Some a) =>
         AppV2.Paper
           {| AppV2.paper_id := s ;
              AppV2.title := Agent.or_default (article_title a) (lit "No title") ;
              AppV2.paper_authors := Agent.author_names a ;
              AppV2.journal :=
                Agent.or_default (journal_title a) (lit "Unknown journal") ;
              AppV2.year := Agent.or_default (pub_year a) (lit "Unknown year") ;
              AppV2.doi := Agent.doi_of a ;
              AppV2.abstract := Agent.abstract_of a |}
     end,
     tr ++ [Invoke DetailsTool s; HttpFetch s]).
Proof.
  intros H. unfold AppV2.get_paper_details, bind, emit, ret, http_fetch.
  rewrite H. cbn [negb]. rewrite <- app_assoc. cbn [app].
  destruct (efetch w (tr ++ [Invoke DetailsTool s]) s) as [[a|]|msg]; reflexivity.
Qed.

(** The first shortcut of [process_query]. *)
Lemma process_query_lookup (int_of_str : str -> Z + str) (u pid : str)
    (tr : trace) :
  Agent.id_request u = Some pid -> Str.isdigit pid = true ->
  snd (AppV2.process_query int_of_str w u tr)
  = tr ++ [Invoke DetailsTool pid; HttpFetch pid]
  /\ forall art, efetch w (tr ++ [Invoke DetailsTool pid]) pid = Ok (Some art) ->
       exists p, fst (AppV2.process_query int_of_str w u tr)
                 = AppV2.Dict (AppV2.Paper p)
                 /\ AppV2.paper_id p = pid.
Proof.
  intros Hr Hd. unfold AppV2.process_query. rewrite Hr.
  unfold AppV2.execute_tool.
  change (existsb (str_eqb (lit "get_paper_details")) Agent.tools) with true.
  change (Str.contains (lit "author") (lit "get_paper_details")) with false.
  change (str_eqb (lit "get_paper_details") (lit "get_paper_details")) with true.
  cbv iota. unfold AppV2.as_dict, bind, ret.
  rewrite (get_paper_details_v2_valid pid tr Hd). cbn [fst snd].
  split; [reflexivity|]. intros art Ha. rewrite Ha.
  eexists. split; reflexivity.
Qed.

End IdShortcut.

(** C1.  An utterance in which the identifier pattern finds [pid], and
    whose lowered text holds one of the trigger words, is answered by the
    first shortcut: the Record Fetcher is invoked once, on [pid], which is
    7 to 9 decimal digits long and so passes validation; one request goes
    to the record source and none to the model.  Whenever the record source
    answers, the reply holds [pid].  The same holds of [process_query] of
    the web variants, whose reply is then the record with that
    identifier. *)
Theorem id_shortcut_fetches_once
    (w : world) (u : str) (a : Agent.agent) (tr : trace) (pid : str)
    (int_of_str : str -> Z + str) :
  Re.id_search u = Some pid ->
  existsb (fun word => Str.contains word (Str.lower u)) Agent.triggers = true ->
  let run := Agent.think_and_act w u a tr in
  let web := AppV2.process_query int_of_str w u tr in
  snd run = tr ++ [Invoke DetailsTool pid; HttpFetch pid]
  /\ (7 <= length pid <= 9 /\ forallb Char.is_decimal pid = true)
  /\ (exists result,
        fst run = (Agent.Reply (Agent.format_response result),
                   Agent.remember (lit "Tool Result: " ++ result)
                     (Agent.remember (lit "User: " ++ u) a)))
  /\ (forall r, efetch w (tr ++ [Invoke DetailsTool pid]) pid = Ok r ->
        exists text, fst (fst run) = Agent.Reply text
                     /\ Str.contains pid text = true)
  /\ snd web = tr ++ [Invoke DetailsTool pid; HttpFetch pid]
  /\ (forall art, efetch w (tr ++ [Invoke DetailsTool pid]) pid = Ok (Some art) ->
        exists p, fst web = AppV2.Dict (AppV2.Paper p)
                  /\ AppV2.paper_id p = pid).
Proof.
  intros Hs Ht run web.
  destruct (id_search_from_sound _ _ _ Hs) as [L D].
  pose proof (id_token_isdigit pid L D) as Hd.
  assert (Hr : Agent.id_request u = Some pid)
    by (unfold Agent.id_request; now rewrite Hs, Ht).
  assert (E : run = Agent.lookup w pid (Agent.remember (lit "User: " ++ u) a) tr).
  { unfold run, Agent.think_and_act. now rewrite Hr. }
  destruct (lookup_run w pid (Agent.remember (lit "User: " ++ u) a) tr Hd)
    as (result & Er & Hc).
  destruct (process_query_lookup w int_of_str u pid tr Hr Hd) as [Wt Wr].
  rewrite E, Er. cbn [fst snd].
  split; [reflexivity|]. split; [split; [lia | exact D]|].
  split; [now exists result|]. split; [|split; [exact Wt | exact Wr]].
  intros r Hr'. eexists. split; [reflexivity|].
  apply format_response_contains. now apply (Hc r).
Qed.

Lemma id_shortcut_fetches_once_witness :
  snd (Agent.think_and_act record_world (lit "Tell me about paper 37635766")
         Agent.init [])
  = [Invoke DetailsTool (lit "37635766"); HttpFetch (lit "37635766")].
Proof.
  exact (proj1 (id_shortcut_fetches_once record_world
                  (lit "Tell me about paper 37635766") Agent.init []
                  (lit "37635766") (fun _ => inl 0%Z) eq_refl eq_refl)).
Defined.

(** ** Scanning a text for identifiers *)

Section Scan.

Lemma decimal_is_word (c : ascii) :
  Char.is_decimal c = true -> Char.is_word c = true.
Proof.
  intros H. unfold Char.is_word, Char.isnumeric, Char.isdigit.
  rewrite H. cbn [orb]. now rewrite orb_true_r.
Qed.

Lemma id_match_here_inside_word (prev : option ascii) (c : ascii) (s : str) :
  Re.word_opt prev = true -> Char.is_decimal c = true ->
  Re.id_match_here prev (c :: s) = None.
Proof.
  intros Hp Hc. unfold Re.id_match_here, Re.boundary. cbn [hd_error Re.word_opt].
  now rewrite Hp, (decimal_is_word c Hc).
Qed.

Lemma firstn_length_firstn (k : nat) (s : str) :
  firstn (length (firstn k s)) s = firstn k s.
Proof.
  rewrite length_firstn. destruct (Nat.le_gt_cases k (length s)).
  - now rewrite Nat.min_l.
  - rewrite Nat.min_r by lia. rewrite firstn_all. symmetry. apply firstn_all2. lia.
Qed.

Lemma id_match_here_head (prev : option ascii) (c : ascii) (s m : str) :
  Re.id_match_here prev (c :: s) = Some m ->
  Char.is_decimal c = true
  /\ forallb Char.is_decimal (firstn (length m - 1) s) = true.
Proof.
  intros H. destruct (id_match_here_sound _ _ _ H) as (L & D & k & E).
  destruct k as [|k]; [subst m; cbn in L; lia|].
  cbn [firstn] in E. subst m. cbn [forallb] in D.
  apply andb_prop in D. destruct D as [Dc Ds].
  split; [exact Dc|].
  replace (length (c :: firstn k s) - 1) with (length (firstn k s))
    by (cbn [length]; lia).
  now rewrite firstn_length_firstn.
Qed.

Lemma id_findall_from_all_positions (s : str) :
  forall skip prev,
    skip = 0 \/ (Re.word_opt prev = true
                 /\ forallb Char.is_decimal (firstn skip s) = true) ->
    Re.id_findall_from skip prev s = id_matches_from prev s.
Proof.
  induction s as [|c s IH]; intros skip prev Inv; [reflexivity|].
  cbn [Re.id_findall_from id_matches_from]. destruct skip as [|k].
  - destruct (Re.id_match_here prev (c :: s)) as [m|] eqn:E.
    + f_equal. destruct (id_match_here_head _ _ _ _ E) as [Dc Ds].
      apply IH. right. split; [|exact Ds].
      cbn [Re.word_opt]. now apply decimal_is_word.
    + apply IH. now left.
  - destruct Inv as [Inv|[Hp Hd]]; [discriminate|].
    cbn [firstn forallb] in Hd. apply andb_prop in Hd. destruct Hd as [Dc Ds].
    rewrite (id_match_here_inside_word prev c s Hp Dc).
    apply IH. destruct k; [now left|right]. split; [|exact Ds].
    cbn [Re.word_opt]. now apply decimal_is_word.
Qed.

(** [re.findall] lists the matches of all positions. *)
Lemma id_findall_all_positions (s : str) :
  Re.id_findall s = id_matches_from None s.
Proof. apply id_findall_from_all_positions. now left. Qed.

Lemma id_matches_from_sound (s : str) :
  forall prev m, In m (id_matches_from prev s) -> id_token m.
Proof.
  induction s as [|c s IH]; intros prev m; cbn [id_matches_from]; [contradiction|].
  destruct (Re.id_match_here prev (c :: s)) as [m'|] eqn:E; [|apply IH].
  intros [<-|H]; [|now apply (IH (Some c))].
  destruct (id_match_here_sound _ _ _ E) as (L & D & _). now split.
Qed.

(** Every element of the list [re.findall] returns is 7 to 9 decimal
    digits long. *)
Lemma id_findall_sound (s m : str) : In m (Re.id_findall s) -> id_token m.
Proof. rewrite id_findall_all_positions. apply id_matches_from_sound. Qed.

End Scan.

(** ** The identifier cache *)

Section Cache.

Lemma get_set_same (k v : str) (d : Dict.t) :
  Dict.get k (Dict.set k v d) = Some v.
Proof.
  induction d as [|[k' v'] d IH]; cbn [Dict.set Dict.get].
  - now rewrite str_eqb_refl.
  - destruct (str_eqb k k') eqn:E; cbn [Dict.get].
    + now rewrite str_eqb_refl.
    + now rewrite E.
Qed.

Lemma get_set_other (k k' v : str) (d : Dict.t) :
  k' <> k -> Dict.get k' (Dict.set k v d) = Dict.get k' d.
Proof.
  intros Hne. induction d as [|[k0 v0] d IH]; cbn [Dict.set Dict.get].
  - apply str_eqb_neq in Hne. now rewrite Hne.
  - destruct (str_eqb k k0) eqn:E; cbn [Dict.get].
    + apply str_eqb_eq in E. subst k0.
      apply str_eqb_neq in Hne. now rewrite Hne.
    + destruct (str_eqb k' k0); [reflexivity | exact IH].
Qed.

Lemma lit_inj (s t : String.string) : lit s = lit t -> s = t.
Proof.
  unfold lit. intros H.
  rewrite <- (string_of_list_ascii_of_string s),
          <- (string_of_list_ascii_of_string t).
  now rewrite H.
Qed.

Lemma of_nat_inj (n m : nat) : Str.of_nat n = Str.of_nat m -> n = m.
Proof.
  unfold Str.of_nat. intros H. apply lit_inj in H.
  apply Unsigned.to_uint_inj.
  assert (E : Some (Nat.to_uint n) = Some (Nat.to_uint m))
    by now rewrite <- !NilEmpty.usu, H.
  now injection E.
Qed.

Lemma cache_key_inj (i j : nat) : cache_key i = cache_key j -> i = j.
Proof.
  unfold cache_key. intros H. apply app_inv_head in H.
  apply of_nat_inj in H. lia.
Qed.

Lemma cache_ids_untouched (ids : list str) :
  forall i cache k,
    (forall j, j < length ids -> k <> cache_key (i + j)) ->
    Dict.get k (Agent.cache_ids i ids cache) = Dict.get k cache.
Proof.
  induction ids as [|pid ids IH]; intros i cache k H; cbn [Agent.cache_ids];
    [reflexivity|].
  rewrite IH.
  - apply get_set_other. rewrite <- (Nat.add_0_r i) at 1.
    apply (H 0). cbn [length]. lia.
  - intros j Hj. replace (S i + j) with (i + S j) by lia.
    apply H. cbn [length]. lia.
Qed.

Lemma cache_ids_written (ids : list str) :
  forall i cache j pid,
    nth_error ids j = Some pid ->
    Dict.get (cache_key (i + j)) (Agent.cache_ids i ids cache) = Some pid.
Proof.
  induction ids as [|p ids IH]; intros i cache j pid H.
  - destruct j; discriminate.
  - cbn [Agent.cache_ids]. destruct j as [|j]; cbn [nth_error] in H.
    + injection H as ->. rewrite cache_ids_untouched.
      * rewrite Nat.add_0_r. apply get_set_same.
      * intros j _ E. apply cache_key_inj in E. lia.
    + replace (i + S j) with (S i + j) by lia. now apply IH.
Qed.

Lemma cache_ids_get (ids : list str) :
  forall i cache k v,
    Dict.get k (Agent.cache_ids i ids cache) = Some v ->
    Dict.get k cache = Some v \/ In v ids.
Proof.
  induction ids as [|pid ids IH]; intros i cache k v H; cbn [Agent.cache_ids] in H.
  - now left.
  - destruct (IH _ _ _ _ H) as [G|G]; [|right; now right].
    destruct (list_eq_dec ascii_dec k (lit "paper_" ++ Str.of_nat (i + 1)))
      as [->|Hne].
    + rewrite get_set_same in G. injection G as ->. right. now left.
    + rewrite get_set_other in G by exact Hne. now left.
Qed.



End Cache.

(** The first shortcut is tried first: an utterance that names the one
    topic the agent knows and also carries an identifier with a trigger
    word is answered with that identifier, not the cached one. *)
Lemma cached_title_shortcut_is_second :
  let u := lit "Get the cavity architecture paper, not 12345678" in
  let a := Agent.with_cache [(lit "paper_1", lit "37635766")] Agent.init in
  Str.contains (lit "cavity architecture") (Str.lower u) = true
  /\ In (lit "paper_1", lit "37635766") (Agent.paper_id_cache a)
  /\ snd (Agent.think_and_act record_world u a [])
     = [Invoke DetailsTool (lit "12345678"); HttpFetch (lit "12345678")]
  /\ ~ In (Invoke DetailsTool (lit "37635766"))
          (snd (Agent.think_and_act record_world u a [])).
Proof.
  split; [reflexivity|]. split; [now left|]. split; [reflexivity|].
  vm_compute. intros [H|[H|[]]]; discriminate H.
Qed.



(** C9 at its failing input.  In a session the author search of the first
    turn caches the identifier 40125545 and shows its record, whose title
    starts with [HgutMgene-Miner].  The second turn asks for more on that
    paper: the cache still holds the identifier, but the agent does not
    fetch it; it sends the utterance to the model and replies with what
    the model says, and no record is fetched in that turn. *)
Theorem seen_topic_goes_to_model :
  let u1 := lit "Show papers by Jane Doe" in
  let u2 := lit "More on the HgutMgene-Miner paper" in
  let run1 := Agent.think_and_act topic_world u1 Agent.init [] in
  let a1 := snd (fst run1) in
  let run2 := Agent.think_and_act topic_world u2 a1 (snd run1) in
  Agent.paper_id_cache a1 = [(lit "paper_1", lit "40125545")]
  /\ fetcher_calls (snd run1) = [lit "40125545"]
  /\ (exists reply,
        fst (fst run1) = Agent.Reply reply
        /\ Str.contains (lit "Paper ID: 40125545") reply = true
        /\ Str.contains (lit "Title: HgutMgene-Miner") reply = true)
  /\ Agent.id_request u2 = None
  /\ snd run2 = snd run1 ++ [llm_event u2 a1]
  /\ fetcher_calls (snd run2) = fetcher_calls (snd run1)
  /\ fst (fst run2) = Agent.Reply (lit "Which paper do you mean?")
  /\ Agent.paper_id_cache (snd (fst run2)) = [(lit "paper_1", lit "40125545")].
Proof.
  cbv zeta.
  split; [vm_compute; reflexivity|].
  split; [vm_compute; reflexivity|].
  split.
  { eexists. split; [vm_compute; reflexivity|].
    split; vm_compute; reflexivity. }
  repeat apply conj; vm_compute; reflexivity.
Qed.

(** ** Author search in the dispatch loop *)

Section AuthorTurn.

Variable w : world.

Lemma act_author (arg : str) (a : Agent.agent) (tr : trace) :
  Agent.act w AUTHOR_TOOL arg a tr
  = let (result, tr1) := Agent.search_papers_by_author w arg tr in
    let a1 := Agent.remember (lit "Tool: " ++ AUTHOR_TOOL ++ lit ", Result: "
                              ++ firstn 200 result ++ lit "...") a in
    if Str.contains (lit "Paper IDs:") result then
      let ids := Re.id_findall result in
      let (details, tr2) :=
        mapM (Agent.get_paper_details w) (firstn 3 ids) tr1 in
      (Agent.Reply (Agent.format_multiple_papers
                      (Str.join (NL ++ NL) (result :: details))
                      (length (firstn 3 ids))),
       Agent.with_cache (Agent.cache_ids 0 (firstn 5 ids) (Agent.paper_id_cache a)) a1,
       tr2)
    else (Agent.Reply (Agent.format_response result), a1, tr1).
Proof.
  unfold Agent.act, Agent.execute_tool, bind, ret.
  change (existsb (str_eqb AUTHOR_TOOL) Agent.tools) with true.
  change (Str.contains (lit "author") AUTHOR_TOOL) with true.
  change (str_eqb AUTHOR_TOOL (lit "search_papers_by_author")) with true.
  cbv iota.
  destruct (Agent.search_papers_by_author w arg tr) as [result tr1].
  destruct (Str.contains (lit "Paper IDs:") result); cbn [andb]; [|reflexivity].
  destruct (mapM (Agent.get_paper_details w) (firstn 3 (Re.id_findall result)) tr1)
    as [details tr2].
  reflexivity.
Qed.

(** The cache after an author search whose summary holds the marker. *)
Lemma author_turn_cache (u : str) (a : Agent.agent) (tr : trace) (arg : str) :
  routes_to w u a tr AUTHOR_TOOL arg ->
  let result := fst (Agent.search_papers_by_author w arg (tr ++ [llm_event u a])) in
  Str.contains (lit "Paper IDs:") result = true ->
  Agent.paper_id_cache (snd (fst (Agent.think_and_act w u a tr)))
  = Agent.cache_ids 0 (firstn 5 (Re.id_findall result)) (Agent.paper_id_cache a).
Proof.
  intros R result Hm.
  rewrite (think_and_act_routed w u a tr _ _ R), act_author.
  unfold result in *.
  destruct (Agent.search_papers_by_author w arg (tr ++ [llm_event u a]))
    as [res tr1].
  cbn [fst] in Hm. rewrite Hm.
  destruct (mapM _ _ tr1) as [details tr2]. reflexivity.
Qed.

(** The record fetches after an author search whose summary holds the
    marker. *)
Lemma author_turn_trace (u : str) (a : Agent.agent) (tr : trace) (arg : str) :
  routes_to w u a tr AUTHOR_TOOL arg ->
  let search := Agent.search_papers_by_author w arg (tr ++ [llm_event u a]) in
  Str.contains (lit "Paper IDs:") (fst search) = true ->
  snd (Agent.think_and_act w u a tr)
  = snd (mapM (Agent.get_paper_details w)
           (firstn 3 (Re.id_findall (fst search))) (snd search)).
Proof.
  intros R search Hm.
  rewrite (think_and_act_routed w u a tr _ _ R), act_author.
  unfold search in *.
  destruct (Agent.search_papers_by_author w arg (tr ++ [llm_event u a]))
    as [res tr1].
  cbn [fst snd] in *. rewrite Hm.
  destruct (mapM _ _ tr1) as [details tr2]. reflexivity.
Qed.

End AuthorTurn.

(** C4 as stated fails: the cache is written key by key and never
    emptied.  After a search that cached five identifiers, a search that
    yields two leaves the third entry of the earlier search in place. *)
Lemma stale_cache_entry_survives :
  let w := two_author_world in
  let '(a1, tr1) := after (Agent.think_and_act w (lit "Jane Doe") Agent.init []) in
  let '(a2, tr2) := after (Agent.think_and_act w (lit "John Roe") a1 tr1) in
  Re.id_findall (fst (Agent.search_papers_by_author w (lit "John Roe") []))
  = [lit "6666661"; lit "6666662"]
  /\ Dict.get (lit "paper_3") (Agent.paper_id_cache a2) = Some (lit "3333333")
  /\ Agent.paper_id_cache a2
     = [(lit "paper_1", lit "6666661"); (lit "paper_2", lit "6666662");
        (lit "paper_3", lit "3333333"); (lit "paper_4", lit "4444444");
        (lit "paper_5", lit "5555555")].
Proof. vm_compute. repeat split. Qed.

(** C4, amended.  After every author search whose summary lists
    identifiers, the keys [paper_1] to [paper_k] hold the first [k]
    identifiers found in that summary, in order, where [k] is at most 5;
    every other key keeps the value it had before the search. *)
Theorem author_search_overwrites_leading_keys
    (w : world) (u : str) (a : Agent.agent) (tr : trace) (arg : str) :
  routes_to w u a tr AUTHOR_TOOL arg ->
  let result := fst (Agent.search_papers_by_author w arg (tr ++ [llm_event u a])) in
  Str.contains (lit "Paper IDs:") result = true ->
  let ids := firstn 5 (Re.id_findall result) in
  let cache' := Agent.paper_id_cache (snd (fst (Agent.think_and_act w u a tr))) in
  (forall j pid, nth_error ids j = Some pid ->
     Dict.get (cache_key j) cache' = Some pid)
  /\ (forall k, (forall j, j < length ids -> k <> cache_key j) ->
        Dict.get k cache' = Dict.get k (Agent.paper_id_cache a)).
Proof.
  intros R result Hm ids cache'.
  unfold cache'. rewrite (author_turn_cache w u a tr arg R Hm).
  fold result. fold ids. split.
  - intros j pid H. apply (cache_ids_written ids 0 _ j pid H).
  - intros k H. apply cache_ids_untouched. exact H.
Qed.

Lemma author_search_overwrites_leading_keys_witness :
  let a1 := Agent.with_cache [(lit "paper_3", lit "3333333")] Agent.init in
  let cache' := Agent.paper_id_cache
                  (snd (fst (Agent.think_and_act two_author_world
                               (lit "John Roe") a1 []))) in
  Dict.get (lit "paper_2") cache' = Some (lit "6666662")
  /\ Dict.get (lit "paper_3") cache' = Some (lit "3333333").
Proof.
  intros a1 cache'.
  assert (R : routes_to two_author_world (lit "John Roe") a1 [] AUTHOR_TOOL
                (lit "John Roe")).
  { route. }
  destruct (author_search_overwrites_leading_keys two_author_world
              (lit "John Roe") a1 [] (lit "John Roe") R eq_refl) as [Hw Hu].
  unfold cache'. split.
  - apply (Hw 1 (lit "6666662")). reflexivity.
  - rewrite (Hu (lit "paper_3")); [reflexivity|].
    intros j Hj. change (j < 2) in Hj.
    destruct j as [|[|j]]; [discriminate | discriminate | lia].
Defined.

(** ** Identifiers in a rendered summary *)

Section SummaryScan.

Lemma id_match_here_nondecimal (prev : option ascii) (c : ascii) (s : str) :
  Char.is_decimal c = false -> Re.id_match_here prev (c :: s) = None.
Proof.
  intros Hc. destruct (Re.id_match_here prev (c :: s)) as [m|] eqn:E; [|reflexivity].
  destruct (id_match_here_head _ _ _ _ E) as [Dc _]. congruence.
Qed.

Lemma digits_then_boundary_short (k : nat) (s : str) :
  length s < k -> Re.digits_then_boundary k s = None.
Proof.
  intros H. unfold Re.digits_then_boundary.
  rewrite firstn_all2 by lia.
  destruct (length s =? k) eqn:E; [|reflexivity].
  apply Nat.eqb_eq in E. lia.
Qed.

Lemma last_decimal_word (s : str) :
  s <> [] -> forallb Char.is_decimal s = true ->
  Re.word_opt (hd_error (rev s)) = true.
Proof.
  intros Hne D. destruct (rev s) as [|z r] eqn:E.
  - apply (f_equal (@rev ascii)) in E. rewrite rev_involutive in E. contradiction.
  - cbn [hd_error Re.word_opt]. apply decimal_is_word.
    rewrite forallb_forall in D. apply D. apply in_rev. rewrite E. now left.
Qed.

Lemma digits_then_boundary_exact (s rest : str) :
  s <> [] -> forallb Char.is_decimal s = true ->
  Re.word_opt (hd_error rest) = false ->
  Re.digits_then_boundary (length s) (s ++ rest) = Some s.
Proof.
  intros Hne D Hr. unfold Re.digits_then_boundary.
  rewrite firstn_app, Nat.sub_diag, firstn_all. cbn [firstn]. rewrite app_nil_r.
  rewrite Nat.eqb_refl, D. cbn [andb].
  rewrite skipn_app, Nat.sub_diag, skipn_all. cbn [skipn app].
  unfold Re.boundary. now rewrite (last_decimal_word s Hne D), Hr.
Qed.

Lemma digits_then_boundary_over (k : nat) (s rest : str) :
  length s < k -> Re.word_opt (hd_error rest) = false ->
  Re.digits_then_boundary k (s ++ rest) = None.
Proof.
  intros Hk Hr. unfold Re.digits_then_boundary.
  rewrite firstn_app, (firstn_all2 s) by lia.
  destruct rest as [|q rest].
  - cbn [firstn]. rewrite firstn_nil, app_nil_r.
    destruct (length s =? k) eqn:E; [|reflexivity].
    apply Nat.eqb_eq in E. lia.
  - destruct (k - length s) as [|j] eqn:Ej; [lia|]. cbn [firstn].
    rewrite forallb_app. cbn [forallb].
    cbn [hd_error Re.word_opt] in Hr.
    destruct (Char.is_decimal q) eqn:Dq.
    + apply decimal_is_word in Dq. congruence.
    + now rewrite andb_false_r, andb_false_r.
Qed.

(** A token standing between two non-word positions is matched whole. *)
Lemma id_match_here_token (prev : option ascii) (tok rest : str) :
  id_token tok -> Re.word_opt prev = false ->
  Re.word_opt (hd_error rest) = false ->
  Re.id_match_here prev (tok ++ rest) = Some tok.
Proof.
  intros [L D] Hp Hr.
  assert (Hne : tok <> []) by (intros ->; cbn in L; lia).
  unfold Re.id_match_here.
  assert (Hb : Re.boundary prev (hd_error (tok ++ rest)) = true).
  { destruct tok as [|c tok]; [congruence|].
    cbn [app hd_error Re.word_opt]. unfold Re.boundary. rewrite Hp.
    cbn [forallb] in D. apply andb_prop in D. destruct D as [Dc _].
    cbn [Re.word_opt]. now rewrite (decimal_is_word c Dc). }
  rewrite Hb.
  assert (C : length tok = 9 \/ length tok = 8 \/ length tok = 7) by lia.
  destruct C as [C|[C|C]].
  - rewrite <- C at 1. now rewrite digits_then_boundary_exact.
  - rewrite (digits_then_boundary_over 9) by (assumption || lia).
    rewrite <- C at 1. now rewrite digits_then_boundary_exact.
  - rewrite (digits_then_boundary_over 9) by (assumption || lia).
    rewrite (digits_then_boundary_over 8) by (assumption || lia).
    rewrite <- C at 1. now rewrite digits_then_boundary_exact.
Qed.

(** What follows a text does not change the matches inside it, when the
    text holds a character that is not a decimal digit at its end, or when
    what follows does not start with a word character. *)
Lemma digits_then_boundary_app (k : nat) (t rest : str) :
  t <> [] ->
  (forall u, forallb Char.is_decimal (t ++ u) = false)
  \/ Re.word_opt (hd_error rest) = false ->
  Re.digits_then_boundary k (t ++ rest) = Re.digits_then_boundary k t.
Proof.
  intros Hne Hc.
  destruct (Nat.lt_trichotomy k (length t)) as [Hk|[Hk|Hk]].
  - unfold Re.digits_then_boundary.
    rewrite firstn_app, skipn_app.
    replace (k - length t) with 0 by lia. cbn [firstn skipn]. rewrite app_nil_r.
    destruct (skipn k t) as [|x r] eqn:E; [|reflexivity].
    apply (f_equal (@length ascii)) in E. rewrite length_skipn in E.
    cbn in E. lia.
  - subst k. destruct Hc as [Hc|Hc].
    + unfold Re.digits_then_boundary.
      rewrite firstn_app, Nat.sub_diag, !firstn_all. cbn [firstn].
      rewrite app_nil_r. specialize (Hc []). rewrite app_nil_r in Hc.
      now rewrite Hc, !andb_false_r.
    + destruct (forallb Char.is_decimal t) eqn:D.
      * rewrite digits_then_boundary_exact by assumption.
        rewrite <- (app_nil_r t) at 3.
        now rewrite digits_then_boundary_exact.
      * unfold Re.digits_then_boundary.
        rewrite firstn_app, Nat.sub_diag, !firstn_all. cbn [firstn].
        rewrite app_nil_r. now rewrite D, !andb_false_r.
  - rewrite (digits_then_boundary_short k t Hk).
    destruct Hc as [Hc|Hc].
    + unfold Re.digits_then_boundary.
      rewrite firstn_app, (firstn_all2 t) by lia.
      now rewrite Hc, !andb_false_r.
    + now apply digits_then_boundary_over.
Qed.

Lemma id_match_here_app (prev : option ascii) (t rest : str) :
  t <> [] ->
  (forall u, forallb Char.is_decimal (t ++ u) = false)
  \/ Re.word_opt (hd_error rest) = false ->
  Re.id_match_here prev (t ++ rest) = Re.id_match_here prev t.
Proof.
  intros Hne Hc. unfold Re.id_match_here.
  rewrite !(digits_then_boundary_app _ t rest Hne Hc).
  destruct t; [congruence | reflexivity].
Qed.

Lemma last_char_cons (prev : option ascii) (c : ascii) (t : str) :
  last_char prev (c :: t) = last_char (Some c) t.
Proof.
  unfold last_char. cbn [rev]. destruct (rev t); reflexivity.
Qed.

Lemma id_matches_from_app_boundary (t rest : str) (prev : option ascii) :
  Re.word_opt (hd_error rest) = false ->
  id_matches_from prev (t ++ rest)
  = id_matches_from prev t ++ id_matches_from (last_char prev t) rest.
Proof.
  intros Hr. revert prev. induction t as [|c t IH]; intros prev; [reflexivity|].
  rewrite last_char_cons. cbn [app id_matches_from].
  change (c :: t ++ rest) with ((c :: t) ++ rest).
  rewrite (id_match_here_app prev (c :: t) rest) by (discriminate || now right).
  rewrite IH. destruct (Re.id_match_here prev (c :: t)); reflexivity.
Qed.

Lemma id_matches_from_app_nondecimal (p : str) (z : ascii) (rest : str)
    (prev : option ascii) :
  Char.is_decimal z = false ->
  id_matches_from prev ((p ++ [z]) ++ rest)
  = id_matches_from prev (p ++ [z]) ++ id_matches_from (Some z) rest.
Proof.
  intros Hz. revert prev. induction p as [|c p IH]; intros prev.
  - cbn [app id_matches_from]. now rewrite !id_match_here_nondecimal.
  - cbn [app id_matches_from].
    change (c :: (p ++ [z]) ++ rest) with ((c :: p ++ [z]) ++ rest).
    rewrite (id_match_here_app prev (c :: p ++ [z]) rest).
    + rewrite IH. destruct (Re.id_match_here prev (c :: p ++ [z])); reflexivity.
    + discriminate.
    + left. intros u. cbn [app forallb]. rewrite <- app_assoc, forallb_app.
      cbn [app forallb]. rewrite Hz. cbn [andb]. now rewrite !andb_false_r.
Qed.

Lemma id_matches_from_prev (s : str) (prev prev' : option ascii) :
  Re.word_opt prev = Re.word_opt prev' ->
  id_matches_from prev s = id_matches_from prev' s.
Proof.
  intros H. destruct s as [|c s]; [reflexivity|]. cbn [id_matches_from].
  unfold Re.id_match_here, Re.boundary. now rewrite H.
Qed.

Lemma id_matches_from_inside_run (s : str) (prev : option ascii) :
  Re.word_opt prev = true -> forallb Char.is_decimal s = true ->
  id_matches_from prev s = [].
Proof.
  revert prev. induction s as [|c s IH]; intros prev Hp D; [reflexivity|].
  cbn [forallb] in D. apply andb_prop in D. destruct D as [Dc Ds].
  cbn [id_matches_from]. rewrite (id_match_here_inside_word prev c s Hp Dc).
  apply IH; [|exact Ds]. cbn [Re.word_opt]. now apply decimal_is_word.
Qed.

Lemma id_matches_from_token (tok rest : str) (prev : option ascii) :
  id_token tok -> Re.word_opt prev = false ->
  Re.word_opt (hd_error rest) = false ->
  id_matches_from prev (tok ++ rest)
  = tok :: id_matches_from (last_char prev tok) rest.
Proof.
  intros T Hp Hr.
  rewrite (id_matches_from_app_boundary tok rest prev Hr).
  assert (E : id_matches_from prev tok = [tok]); [|now rewrite E].
  pose proof (id_match_here_token prev tok [] T Hp eq_refl) as M.
  rewrite app_nil_r in M. destruct T as [L D].
  destruct tok as [|c tok]; [cbn in L; lia|].
  cbn [id_matches_from]. rewrite M. f_equal.
  cbn [forallb] in D. apply andb_prop in D. destruct D as [Dc Ds].
  apply id_matches_from_inside_run; [|exact Ds].
  cbn [Re.word_opt]. now apply decimal_is_word.
Qed.

Lemma id_matches_from_join (ids : list str) (prev : option ascii) :
  Forall id_token ids -> Re.word_opt prev = false ->
  id_matches_from prev (Str.join (lit ", ") ids) = ids.
Proof.
  intros F. revert prev. induction F as [|i ids Ti F IH]; intros prev Hp;
    [reflexivity|].
  destruct ids as [|j ids].
  - cbn [Str.join]. rewrite <- (app_nil_r i) at 1.
    now rewrite (id_matches_from_token i [] prev Ti Hp eq_refl).
  - change (Str.join (lit ", ") (i :: j :: ids))
      with (i ++ lit ", " ++ Str.join (lit ", ") (j :: ids)).
    rewrite (id_matches_from_token i _ prev Ti Hp) by reflexivity.
    f_equal. change (lit ", " ++ Str.join (lit ", ") (j :: ids))
      with (","%char :: " "%char :: Str.join (lit ", ") (j :: ids)).
    cbn [id_matches_from]. rewrite !id_match_here_nondecimal by reflexivity.
    now apply IH.
Qed.

Lemma Forall_id_token_firstn (n : nat) (ids : list str) :
  Forall id_token ids -> Forall id_token (firstn n ids).
Proof.
  intros F. revert n. induction F as [|i ids Ti F IH]; intros [|n];
    cbn [firstn]; constructor; auto.
Qed.

(** The identifiers found in the summary of an author search whose count
    is 5: exactly the listed identifiers, when each is a token and the
    author name holds none. *)
Lemma found_by_ids (name : str) (ids : list str) :
  Forall id_token ids -> Re.id_findall name = [] ->
  Re.id_findall (Agent.found_by name {| count := lit "5" ; idlist := ids |})
  = firstn 10 ids.
Proof.
  intros F Hn. rewrite id_findall_all_positions in *.
  unfold Agent.found_by. cbn [count idlist].
  change (lit "Found " ++ lit "5" ++ lit " papers by " ++ name
          ++ lit ". Paper IDs: " ++ Str.join (lit ", ") (firstn 10 ids))
    with ((lit "Found 5 papers by" ++ [" "%char])
          ++ name ++ (lit ". Paper IDs:" ++ [" "%char])
          ++ Str.join (lit ", ") (firstn 10 ids)).
  rewrite id_matches_from_app_nondecimal by reflexivity.
  change (id_matches_from None (lit "Found 5 papers by" ++ [" "%char])) with (@nil str).
  cbn [app].
  rewrite id_matches_from_app_boundary by reflexivity.
  rewrite (id_matches_from_prev name (Some " "%char) None eq_refl), Hn. cbn [app].
  rewrite id_matches_from_app_nondecimal by reflexivity.
  replace (id_matches_from (last_char (Some " "%char) name)
             (lit ". Paper IDs:" ++ [" "%char])) with (@nil str).
  - cbn [app]. apply id_matches_from_join; [|reflexivity].
    now apply Forall_id_token_firstn.
  - change (lit ". Paper IDs:" ++ [" "%char])
      with ("."%char :: lit " Paper IDs: ").
    cbn [id_matches_from]. now rewrite id_match_here_nondecimal.
Qed.

End SummaryScan.

(** ** Auto-expansion *)

Section Expansion.

Variable w : world.

Lemma mapM_fetch (ids : list str) :
  Forall id_token ids ->
  forall tr,
    snd (mapM (Agent.get_paper_details w) ids tr)
    = tr ++ flat_map fetch_events ids
    /\ length (fst (mapM (Agent.get_paper_details w) ids tr)) = length ids.
Proof.
  induction 1 as [|i ids [L D] F IH]; intros tr; cbn [mapM flat_map].
  - unfold ret. cbn [fst snd]. now rewrite app_nil_r.
  - unfold bind, ret.
    rewrite (get_paper_details_valid w i tr (id_token_isdigit i L D)).
    destruct (IH (tr ++ [Invoke DetailsTool i; HttpFetch i])) as [Et El].
    destruct (mapM (Agent.get_paper_details w) ids
                (tr ++ [Invoke DetailsTool i; HttpFetch i])) as [ys tr'].
    cbn [fst snd length] in *. split.
    + rewrite Et. unfold fetch_events at 2. now rewrite <- app_assoc.
    + now rewrite El.
Qed.

Lemma found_by_has_marker (name : str) (d : esearch_result) :
  Str.contains (lit "Paper IDs:") (Agent.found_by name d) = true.
Proof.
  unfold Agent.found_by. do 4 apply contains_after. now apply contains_before.
Qed.

Lemma search_papers_by_author_found (arg : str) (tr : trace) (d : esearch_result) :
  let name := cleaned_name arg in
  let tr0 := tr ++ [Invoke AuthorTool arg] in
  esearch w tr0 (name ++ lit "[Author]") 20 = Ok d ->
  str_eqb (count d) (lit "0") = false ->
  Agent.search_papers_by_author w arg tr
  = (Agent.found_by name d, tr0 ++ [HttpSearch (name ++ lit "[Author]") 20]).
Proof.
  intros name tr0 He Hc.
  unfold Agent.search_papers_by_author, bind, emit, http_search, ret.
  fold name. fold tr0. now rewrite He, Hc.
Qed.

End Expansion.

(** C10.  In a turn that runs the author search and whose summary holds
    the marker, the identifiers that are cached (the first five) and the
    ones that are fetched (the first three) are the matches of the
    identifier pattern in the rendered summary, not the list the index
    returned: every one of them is 7 to 9 decimal digits long, so a
    returned identifier of another length is never among them.  And there
    is a search (count 1234567, identifiers 111 and 40125545) after which
    the count is cached under [paper_1] and fetched like an identifier,
    while the identifier 111 is neither cached nor fetched. *)
Theorem identifiers_are_scanned_from_summary :
  (forall (w : world) (u : str) (a : Agent.agent) (tr : trace) (arg : str),
     routes_to w u a tr AUTHOR_TOOL arg ->
     let search := Agent.search_papers_by_author w arg (tr ++ [llm_event u a]) in
     Str.contains (lit "Paper IDs:") (fst search) = true ->
     let ids := Re.id_findall (fst search) in
     let run := Agent.think_and_act w u a tr in
     Agent.paper_id_cache (snd (fst run))
     = Agent.cache_ids 0 (firstn 5 ids) (Agent.paper_id_cache a)
     /\ snd run = snd search ++ flat_map fetch_events (firstn 3 ids)
     /\ (forall pid, In pid ids -> id_token pid)
     /\ (forall pid, length pid < 7 \/ 9 < length pid -> ~ In pid ids)
     /\ (forall k v,
           Dict.get k (Agent.paper_id_cache (snd (fst run))) = Some v ->
           Dict.get k (Agent.paper_id_cache a) = Some v \/ id_token v))
  /\ (let found := {| count := lit "1234567" ;
                      idlist := [lit "111"; lit "40125545"] |} in
      let w := staged_world (tool_call_text AUTHOR_TOOL (lit "Jane Doe"))
                 found None in
      let run := Agent.think_and_act w (lit "Show papers by Jane Doe")
                   Agent.init [] in
      Agent.paper_id_cache (snd (fst run))
      = [(lit "paper_1", lit "1234567"); (lit "paper_2", lit "40125545")]
      /\ fetcher_calls (snd run) = [lit "1234567"; lit "40125545"]).
Proof.
  split.
  - intros w u a tr arg R search Hm ids run.
    assert (T : forall pid, In pid ids -> id_token pid)
      by (intros pid; apply id_findall_sound).
    assert (F : forall n, Forall id_token (firstn n ids)).
    { intros n. apply Forall_id_token_firstn. apply Forall_forall. exact T. }
    pose proof (author_turn_cache w u a tr arg R Hm) as Ec.
    split; [exact Ec|].
    split; [|split; [exact T|split]].
    + unfold run. rewrite (author_turn_trace w u a tr arg R Hm).
      apply mapM_fetch. apply F.
    + intros pid Hl Hin. destruct (T pid Hin) as [L _]. lia.
    + intros k v. unfold run. rewrite Ec. intros G.
      destruct (cache_ids_get _ _ _ _ _ G) as [G'|G']; [now left | right].
      pose proof (F 5) as F5. rewrite Forall_forall in F5. now apply F5.
  - vm_compute. split; reflexivity.
Qed.

Lemma identifiers_are_scanned_from_summary_witness :
  let a1 := Agent.with_cache [(lit "paper_3", lit "3333333")] Agent.init in
  snd (Agent.think_and_act two_author_world (lit "John Roe") a1 [])
  = snd (Agent.search_papers_by_author two_author_world (lit "John Roe")
           [llm_event (lit "John Roe") a1])
    ++ flat_map fetch_events [lit "6666661"; lit "6666662"].
Proof.
  intros a1.
  assert (R : routes_to two_author_world (lit "John Roe") a1 [] AUTHOR_TOOL
                (lit "John Roe")).
  { route. }
  exact (proj1 (proj2 (proj1 identifiers_are_scanned_from_summary
                         two_author_world (lit "John Roe") a1 []
                         (lit "John Roe") R eq_refl))).
Defined.

(** ** Cutting a text at a separator *)

Section Split.

Variable sep : str.

Lemma split_aux_skip (p cur rest : str) :
  Str.split_aux sep (length p) cur (p ++ rest) = Str.split_aux sep 0 cur rest.
Proof.
  induction p as [|c p IH]; [reflexivity|].
  cbn [length app Str.split_aux]. exact IH.
Qed.

Lemma split_aux_hit (cur rest : str) :
  sep <> [] ->
  Str.split_aux sep 0 cur (sep ++ rest)
  = rev cur :: Str.split_aux sep 0 [] rest.
Proof.
  intros Hne. pose proof (startswith_app sep rest) as S.
  pose proof (split_aux_skip (tl sep) [] rest) as K.
  destruct sep as [|a q]; [congruence|].
  cbn [tl] in K. cbn [app Str.split_aux]. cbn [app] in S. rewrite S.
  replace (length (a :: q) - 1) with (length q) by (cbn [length]; lia).
  now rewrite K.
Qed.

Lemma split_aux_miss (x cur rest : str) :
  no_start sep x rest = true ->
  Str.split_aux sep 0 cur (x ++ rest)
  = Str.split_aux sep 0 (rev x ++ cur) rest.
Proof.
  revert cur. induction x as [|c x IH]; intros cur H; [reflexivity|].
  cbn [no_start] in H. apply andb_prop in H. destruct H as [H1 H2].
  apply negb_true_iff in H1.
  cbn [app Str.split_aux]. cbn [app] in H1. rewrite H1.
  rewrite (IH (c :: cur) H2). cbn [rev]. now rewrite <- app_assoc.
Qed.

Lemma split_piece (x rest : str) :
  sep <> [] -> no_start sep x (sep ++ rest) = true ->
  Str.split sep (x ++ sep ++ rest) = x :: Str.split sep rest.
Proof.
  intros Hne H. unfold Str.split.
  rewrite (split_aux_miss x [] _ H), (split_aux_hit _ rest Hne).
  now rewrite app_nil_r, rev_involutive.
Qed.

Lemma split_last (x : str) :
  no_start sep x [] = true -> Str.split sep x = [x].
Proof.
  intros H. unfold Str.split.
  rewrite <- (app_nil_r x) at 1. rewrite (split_aux_miss x [] [] H).
  cbn [Str.split_aux]. now rewrite app_nil_r, rev_involutive.
Qed.

Lemma no_start_app (x z rest : str) :
  no_start sep (x ++ z) rest
  = no_start sep x (z ++ rest) && no_start sep z rest.
Proof.
  induction x as [|c x IH]; [reflexivity|].
  cbn [app no_start]. rewrite IH, <- app_assoc. cbn [app].
  now rewrite andb_assoc.
Qed.

Lemma startswith_over (x : str) (c : ascii) (rest : str) :
  ~ In c sep ->
  Str.startswith sep (x ++ c :: rest) = true -> Str.startswith sep x = true.
Proof.
  revert x. induction sep as [|a q IH]; intros x Hc H; [reflexivity|].
  destruct x as [|d x]; cbn [app Str.startswith] in *.
  - apply andb_prop in H. destruct H as [H _].
    apply Ascii.eqb_eq in H. subst. exfalso. apply Hc. now left.
  - apply andb_prop in H. destruct H as [H1 H2]. rewrite H1. cbn [andb].
    apply IH; [|exact H2]. intros Hin. apply Hc. now right.
Qed.

Lemma no_start_free (x : str) (c : ascii) (rest : str) :
  ~ In c sep -> Str.contains sep x = false ->
  no_start sep x (c :: rest) = true.
Proof.
  intros Hc. induction x as [|d x IH]; intros H; [reflexivity|].
  cbn [Str.contains] in H. apply orb_false_iff in H. destruct H as [H1 H2].
  cbn [no_start]. rewrite (IH H2), andb_true_r. apply negb_true_iff.
  destruct (Str.startswith sep ((d :: x) ++ c :: rest)) eqn:S; [|reflexivity].
  apply (startswith_over _ _ _ Hc) in S. congruence.
Qed.

Lemma no_start_end (x : str) :
  Str.contains sep x = false -> no_start sep x [] = true.
Proof.
  induction x as [|d x IH]; intros H; [reflexivity|].
  cbn [Str.contains] in H. apply orb_false_iff in H. destruct H as [H1 H2].
  cbn [no_start]. now rewrite app_nil_r, H1, (IH H2).
Qed.

End Split.

(** A text without the first character of the separator. *)
Lemma no_start_head (a : ascii) (q x rest : str) :
  forallb (fun c => negb (Ascii.eqb a c)) x = true ->
  no_start (a :: q) x rest = true.
Proof.
  induction x as [|c x IH]; intros H; [reflexivity|].
  cbn [forallb] in H. apply andb_prop in H. destruct H as [H1 H2].
  cbn [no_start app Str.startswith]. apply negb_true_iff in H1.
  now rewrite H1, (IH H2).
Qed.

Lemma contains_char (a : ascii) (x : str) :
  Str.contains [a] x = false ->
  forallb (fun c => negb (Ascii.eqb a c)) x = true.
Proof.
  induction x as [|c x IH]; intros H; [reflexivity|].
  cbn [Str.contains Str.startswith] in H.
  apply orb_false_iff in H. destruct H as [H1 H2].
  rewrite andb_true_r in H1. cbn [forallb]. now rewrite H1, (IH H2).
Qed.

Lemma join_forallb (p : ascii -> bool) (sep : str) (xs : list str) :
  forallb p sep = true -> Forall (fun x => forallb p x = true) xs ->
  forallb p (Str.join sep xs) = true.
Proof.
  intros Hs F. induction F as [|x xs Hx F IH]; [reflexivity|].
  destruct xs as [|y ys]; [exact Hx|].
  change (Str.join sep (x :: y :: ys)) with (x ++ sep ++ Str.join sep (y :: ys)).
  now rewrite !forallb_app, Hx, Hs, IH.
Qed.

Lemma tokens_avoid (a : ascii) (ids : list str) :
  Char.is_decimal a = false ->
  forallb (fun c => negb (Ascii.eqb a c)) (lit ", ") = true ->
  Forall id_token ids ->
  forallb (fun c => negb (Ascii.eqb a c)) (Str.join (lit ", ") ids) = true.
Proof.
  intros Ha Hs F. apply join_forallb; [exact Hs|].
  apply Forall_forall. intros tok Hin.
  rewrite Forall_forall in F. destruct (F tok Hin) as [_ D].
  apply forallb_forall. intros c Hc.
  rewrite forallb_forall in D. specialize (D c Hc).
  destruct (Ascii.eqb_spec a c) as [->|]; [congruence | reflexivity].
Qed.

(** White space at the end of a text does not change [strip]. *)
Lemma dropwhile_app_all p (z x : str) :
  forallb p z = true -> Str.dropwhile p (z ++ x) = Str.dropwhile p x.
Proof.
  induction z as [|c z IH]; intros H; [reflexivity|].
  cbn [forallb] in H. apply andb_prop in H. destruct H as [H1 H2].
  cbn [app Str.dropwhile]. now rewrite H1, (IH H2).
Qed.

Lemma rstrip_app_spaces (x z : str) :
  forallb Char.isspace z = true -> Str.rstrip (x ++ z) = Str.rstrip x.
Proof.
  intros H. unfold Str.rstrip. rewrite rev_app_distr.
  rewrite dropwhile_app_all; [reflexivity|].
  rewrite forallb_forall in *. intros c Hc. apply H. now apply in_rev.
Qed.

Lemma strip_app_spaces (x z : str) :
  forallb Char.isspace z = true -> Str.strip (x ++ z) = Str.strip x.
Proof.
  intros H. unfold Str.strip, Str.lstrip.
  induction x as [|c x IH].
  - cbn [app]. rewrite <- (app_nil_r z) at 1.
    rewrite (dropwhile_app_all _ z [] H). reflexivity.
  - cbn [app Str.dropwhile]. destruct (Char.isspace c); [exact IH|].
    apply (rstrip_app_spaces (c :: x) z H).
Qed.

Lemma no_start_nil (sep x : str) :
  sep <> [] -> no_start sep x [] = negb (Str.contains sep x).
Proof.
  intros Hne. induction x as [|c x IH].
  - destruct sep; [congruence | reflexivity].
  - cbn [no_start Str.contains]. now rewrite app_nil_r, IH, negb_orb.
Qed.

Lemma render_details_heading (paper_id : str) (a : article) :
  Agent.render_details paper_id a = NL ++ HEADING ++ card_body paper_id a.
Proof. reflexivity. Qed.

Lemma nl_not_in_heading : ~ In (ascii_of_nat 10) HEADING.
Proof.
  intros H. cbn in H.
  repeat (destruct H as [H|H]; [discriminate H|]). exact H.
Qed.

Lemma dot_not_in_heading : ~ In "."%char HEADING.
Proof.
  intros H. cbn in H.
  repeat (destruct H as [H|H]; [discriminate H|]). exact H.
Qed.

Section Rendering.

Variables summary b1 b2 b3 : str.

Hypothesis one_line :
  forallb (fun c => negb (Ascii.eqb (ascii_of_nat 10) c)) summary = true.
Hypothesis found : Str.contains (lit "Found") summary = true.
Hypothesis free0 : Str.contains HEADING summary = false.
Hypothesis free1 : Str.contains HEADING b1 = false.
Hypothesis free2 : Str.contains HEADING b2 = false.
Hypothesis free3 : Str.contains HEADING b3 = false.

Variable combined : str.

Hypothesis joined :
  combined
  = Str.join (NL ++ NL)
      [summary; NL ++ HEADING ++ b1; NL ++ HEADING ++ b2; NL ++ HEADING ++ b3].

Lemma combined_lines :
  exists rest, Str.split NL combined = summary :: rest.
Proof.
  assert (E : exists rest0, combined = summary ++ NL ++ rest0).
  { eexists. rewrite joined. cbn [Str.join].
    rewrite <- !app_assoc. reflexivity. }
  destruct E as [rest0 ->]. eexists.
  apply split_piece; [discriminate|].
  apply (no_start_head (ascii_of_nat 10) []). exact one_line.
Qed.

Lemma piece_before_heading (x rest : str) :
  Str.contains HEADING x = false ->
  no_start HEADING (x ++ NL ++ NL ++ NL) (HEADING ++ rest) = true.
Proof.
  intros H. rewrite no_start_app. apply andb_true_intro. split.
  - apply (no_start_free HEADING x (ascii_of_nat 10)); [|exact H].
    exact nl_not_in_heading.
  - reflexivity.
Qed.

Lemma combined_papers :
  Str.split HEADING combined
  = [summary ++ NL ++ NL ++ NL; b1 ++ NL ++ NL ++ NL; b2 ++ NL ++ NL ++ NL; b3].
Proof.
  assert (Hne : HEADING <> []) by discriminate.
  replace combined
    with ((summary ++ NL ++ NL ++ NL) ++ HEADING
          ++ (b1 ++ NL ++ NL ++ NL) ++ HEADING
          ++ (b2 ++ NL ++ NL ++ NL) ++ HEADING ++ b3)
    by (rewrite joined; cbn [Str.join]; now rewrite <- !app_assoc).
  rewrite (split_piece HEADING _ _ Hne (piece_before_heading _ _ free0)).
  rewrite (split_piece HEADING _ _ Hne (piece_before_heading _ _ free1)).
  rewrite (split_piece HEADING _ _ Hne (piece_before_heading _ _ free2)).
  rewrite (split_last HEADING b3); [reflexivity|].
  now rewrite (no_start_nil HEADING b3 Hne), free3.
Qed.

Lemma format_three_papers :
  Agent.format_multiple_papers combined 3
  = Agent.BOOKS ++ lit " " ++ summary ++ NL ++ NL
    ++ lit "Here are details for the first 3 papers:" ++ NL
    ++ Str.rep "="%char 50 ++ NL
    ++ NL ++ Agent.PAGE ++ lit " PAPER 1:" ++ NL ++ Str.strip b1
    ++ NL ++ Str.rep "-"%char 50 ++ NL
    ++ NL ++ Agent.PAGE ++ lit " PAPER 2:" ++ NL ++ Str.strip b2
    ++ NL ++ Str.rep "-"%char 50 ++ NL
    ++ NL ++ Agent.PAGE ++ lit " PAPER 3:" ++ NL ++ Str.strip b3
    ++ NL ++ NL ++ Agent.BULB
    ++ lit " Need more papers or specific details? Just ask!".
Proof.
  unfold Agent.format_multiple_papers. cbv zeta.
  change (lit "PAPER DETAILS:") with HEADING.
  destruct combined_lines as [rest ->]. rewrite combined_papers.
  cbn [find]. rewrite found.
  cbn [tl length Agent.paper_blocks].
  rewrite !(strip_app_spaces _ (NL ++ NL ++ NL)) by reflexivity.
  cbn [Nat.ltb Nat.leb Nat.sub].
  rewrite <- !app_assoc. reflexivity.
Qed.

End Rendering.

Section Summary.

Variables (name : str) (ids : list str).

Hypothesis tokens : Forall id_token ids.

Variable summary : str.

Hypothesis summary_parts :
  summary = lit "Found 5 papers by " ++ name ++ lit ". Paper IDs: "
            ++ Str.join (lit ", ") (firstn 10 ids).

Lemma summary_one_line :
  Str.contains NL name = false ->
  forallb (fun c => negb (Ascii.eqb (ascii_of_nat 10) c)) summary = true.
Proof.
  intros H. rewrite summary_parts, !forallb_app.
  rewrite (contains_char _ _ H).
  rewrite (tokens_avoid (ascii_of_nat 10) (firstn 10 ids) eq_refl eq_refl
             (Forall_id_token_firstn 10 ids tokens)).
  reflexivity.
Qed.

Lemma summary_found : Str.contains (lit "Found") summary = true.
Proof. rewrite summary_parts. apply (contains_head (lit "Found")). Qed.

Lemma summary_no_heading :
  Str.contains HEADING name = false ->
  Str.contains HEADING summary = false.
Proof.
  intros H. apply negb_true_iff.
  rewrite <- (no_start_nil HEADING summary) by discriminate.
  rewrite summary_parts, !no_start_app, !app_nil_r.
  rewrite (no_start_head "P"%char (lit "APER DETAILS:") (lit "Found 5 papers by "))
    by reflexivity.
  change (lit ". Paper IDs: " ++ Str.join (lit ", ") (firstn 10 ids))
    with ("."%char :: lit " Paper IDs: " ++ Str.join (lit ", ") (firstn 10 ids))
    at 1.
  rewrite (no_start_free HEADING name "."%char _ dot_not_in_heading H).
  assert (J : no_start HEADING (Str.join (lit ", ") (firstn 10 ids)) [] = true).
  { apply (no_start_head "P"%char (lit "APER DETAILS:")), tokens_avoid;
      [reflexivity | reflexivity | apply Forall_id_token_firstn, tokens]. }
  rewrite J. reflexivity.
Qed.

End Summary.

(** The three fetches of the expansion, when the record source answers
    each with a record. *)
Lemma mapM_three_records (w : world) (tr : trace) (i1 i2 i3 : str)
    (a1 a2 a3 : article) :
  Forall id_token [i1; i2; i3] ->
  efetch w (tr ++ [Invoke DetailsTool i1]) i1 = Ok (Some a1) ->
  efetch w ((tr ++ fetch_events i1) ++ [Invoke DetailsTool i2]) i2
  = Ok (Some a2) ->
  efetch w (((tr ++ fetch_events i1) ++ fetch_events i2)
            ++ [Invoke DetailsTool i3]) i3 = Ok (Some a3) ->
  fst (mapM (Agent.get_paper_details w) [i1; i2; i3] tr)
  = [Agent.render_details i1 a1; Agent.render_details i2 a2;
     Agent.render_details i3 a3].
Proof.
  intros F H1 H2 H3.
  inversion F as [|? ? [L1 D1] F1]; subst.
  inversion F1 as [|? ? [L2 D2] F2]; subst.
  inversion F2 as [|? ? [L3 D3] _]; subst.
  cbn [mapM]. unfold bind, ret.
  rewrite (get_paper_details_valid w i1 tr (id_token_isdigit i1 L1 D1)), H1.
  change (tr ++ [Invoke DetailsTool i1; HttpFetch i1])
    with (tr ++ fetch_events i1).
  rewrite (get_paper_details_valid w i2 _ (id_token_isdigit i2 L2 D2)), H2.
  change ((tr ++ fetch_events i1) ++ [Invoke DetailsTool i2; HttpFetch i2])
    with ((tr ++ fetch_events i1) ++ fetch_events i2).
  rewrite (get_paper_details_valid w i3 _ (id_token_isdigit i3 L3 D3)), H3.
  reflexivity.
Qed.

Lemma dropwhile_app_stop p (l m : str) :
  existsb (fun c => negb (p c)) l = true ->
  Str.dropwhile p (l ++ m) = Str.dropwhile p l ++ m.
Proof.
  induction l as [|c l IH]; intros H; [discriminate|].
  cbn [existsb] in H. cbn [app Str.dropwhile].
  destruct (p c); [|reflexivity]. cbn [negb orb] in H. now apply IH.
Qed.

Lemma rstrip_app_solid (x y : str) :
  existsb (fun c => negb (Char.isspace c)) y = true ->
  Str.rstrip (x ++ y) = x ++ Str.rstrip y.
Proof.
  intros H. unfold Str.rstrip. rewrite rev_app_distr.
  rewrite dropwhile_app_stop.
  - now rewrite rev_app_distr, rev_involutive.
  - apply existsb_exists in H. destruct H as (c & Hc & Hp).
    apply existsb_exists. exists c. split; [now apply in_rev in Hc | exact Hp].
Qed.

Lemma strip_card_body (paper_id : str) (a : article) :
  Str.strip (card_body paper_id a)
  = (lit "==============" ++ NL
     ++ lit "Paper ID: " ++ paper_id ++ NL
     ++ lit "Title: "
     ++ Agent.or_default (article_title a) (lit "No title") ++ NL
     ++ lit "Authors: "
     ++ match Agent.author_names a with
        | [] => lit "No authors listed"
        | names => Str.join (lit ", ") names
        end ++ NL
     ++ lit "Journal: "
     ++ Agent.or_default (journal_title a) (lit "Unknown journal")
     ++ lit " (" ++ Agent.or_default (pub_year a) (lit "Unknown year")
     ++ lit ")" ++ NL
     ++ lit "DOI: "
     ++ Agent.or_else (Agent.doi_of a) (lit "Not available") ++ NL)
    ++ Str.rstrip (NL ++ lit "ABSTRACT:" ++ NL ++ Agent.abstract_of a ++ NL).
Proof.
  rewrite <- rstrip_app_solid by reflexivity.
  unfold Str.strip. f_equal.
  unfold card_body, Agent.render_details. rewrite <- !app_assoc. reflexivity.
Qed.

Lemma card_holds_fields (paper_id : str) (a : article) :
  holds_fields paper_id a (Str.strip (card_body paper_id a)).
Proof.
  rewrite strip_card_body. unfold holds_fields.
  repeat apply conj; apply contains_before.
  - do 2 apply contains_after. apply contains_starts.
    eexists. rewrite <- !app_assoc. reflexivity.
  - do 5 apply contains_after. apply contains_starts.
    eexists. rewrite <- !app_assoc. reflexivity.
  - do 8 apply contains_after. apply contains_starts.
    eexists. rewrite <- !app_assoc. reflexivity.
  - do 11 apply contains_after. apply contains_starts.
    eexists. rewrite <- !app_assoc. reflexivity.
  - do 17 apply contains_after. apply contains_starts.
    eexists. rewrite <- !app_assoc. reflexivity.
Qed.

(** C5 as stated fails: identifiers are recovered from the summary text
    by the 7-to-9-digit pattern.  With an index that returns the count 5
    and the five identifiers 101 to 105, nothing is cached and the Record
    Fetcher is not called at all.  And with five identifiers of eight
    digits, a number of that shape in the author name is taken for the
    first identifier.  The reply is cut from the texts as well: a record
    whose title holds the heading of a card is shown as two blocks, so that
    the reply announces three papers and numbers six; a line break in the
    author name cuts the summary at that place; and when the record source
    has no record, the three fetches are made and the reply holds no card
    at all. *)
Lemma short_identifiers_are_not_expanded :
  (let found := {| count := lit "5" ;
                   idlist := map lit ["101"; "102"; "103"; "104"; "105"]%string |} in
   let w := staged_world (tool_call_text AUTHOR_TOOL (lit "Dr. Jane Doe"))
              found (Some demo_article) in
   let run := Agent.think_and_act w (lit "Show papers by Dr. Jane Doe")
                Agent.init [] in
   snd run = [llm_event (lit "Show papers by Dr. Jane Doe") Agent.init;
              Invoke AuthorTool (lit "Dr. Jane Doe");
              HttpSearch (lit "Jane Doe[Author]") 20]
   /\ fetcher_calls (snd run) = []
   /\ Agent.paper_id_cache (snd (fst run)) = [])
  /\ (let found := {| count := lit "5" ;
                      idlist := map lit ["11111111"; "22222222"; "33333333";
                                         "44444444"; "55555555"]%string |} in
      let w := staged_world (tool_call_text AUTHOR_TOOL (lit "Doe 7654321"))
                 found (Some demo_article) in
      let run := Agent.think_and_act w (lit "Show papers by that Doe")
                   Agent.init [] in
      fetcher_calls (snd run)
      = [lit "7654321"; lit "11111111"; lit "22222222"])
  /\ (let w := staged_world (tool_call_text AUTHOR_TOOL (lit "Jane Doe"))
                 five_found (Some heading_article) in
      let run := Agent.think_and_act w (lit "Show papers by Jane Doe")
                   Agent.init [] in
      fetcher_calls (snd run)
      = [lit "11111111"; lit "22222222"; lit "33333333"]
      /\ Str.contains (lit "Here are details for the first 3 papers:")
           (reply_text run) = true
      /\ Str.contains (lit "PAPER 6:") (reply_text run) = true)
  /\ (let w := staged_world
                 (tool_call_text AUTHOR_TOOL (lit "Jane" ++ NL ++ lit "Doe"))
                 five_found (Some demo_article) in
      let run := Agent.think_and_act w (lit "Show papers by Jane Doe")
                   Agent.init [] in
      fetcher_calls (snd run)
      = [lit "11111111"; lit "22222222"; lit "33333333"]
      /\ Str.startswith (Agent.BOOKS ++ lit " Found 5 papers by Jane" ++ NL)
           (reply_text run) = true
      /\ Str.contains (lit "Paper IDs:") (reply_text run) = false)
  /\ (let run := Agent.think_and_act two_author_world (lit "Jane Doe")
                   Agent.init [] in
      fetcher_calls (snd run) = [lit "1111111"; lit "2222222"; lit "3333333"]
      /\ Str.contains (lit "Here are details for the first 3 papers:")
           (reply_text run) = true
      /\ Str.contains (lit "PAPER 1:") (reply_text run) = false).
Proof. vm_compute. repeat split. Qed.

(** C5, amended.  When the index answers an author search with the count
    5 and five identifiers that are each 7 to 9 decimal digits long, the
    cleaned author name holds no such number, no line break and not the
    heading of a card, and the record source answers the three fetches with
    records whose cards hold the heading once, then the loop caches the
    five identifiers under [paper_1] to [paper_5], invokes the Record
    Fetcher exactly three times, on the first three identifiers in order,
    and replies with the summary of the search followed by the three cards
    in that order: the summary line, the announcement of three papers, and
    for each of the three identifiers in turn a numbered block that holds
    the card of its record without the heading, with the lines of the
    identifier, the title, the authors, the journal and the DOI of that
    record, the blocks separated by a rule. *)
Theorem author_search_expands_first_three
    (w : world) (u : str) (a : Agent.agent) (tr : trace) (arg : str)
    (i1 i2 i3 i4 i5 : str) (a1 a2 a3 : article) :
  routes_to w u a tr AUTHOR_TOOL arg ->
  let name := cleaned_name arg in
  let ids := [i1; i2; i3; i4; i5] in
  let found := {| count := lit "5" ; idlist := ids |} in
  let tr0 := (tr ++ [llm_event u a]) ++ [Invoke AuthorTool arg] in
  let tr1 := tr0 ++ [HttpSearch (name ++ lit "[Author]") 20] in
  let tr2 := tr1 ++ fetch_events i1 in
  let tr3 := tr2 ++ fetch_events i2 in
  esearch w tr0 (name ++ lit "[Author]") 20 = Ok found ->
  Forall id_token ids ->
  Re.id_findall name = [] ->
  Str.contains NL name = false ->
  Str.contains HEADING name = false ->
  efetch w (tr1 ++ [Invoke DetailsTool i1]) i1 = Ok (Some a1) ->
  efetch w (tr2 ++ [Invoke DetailsTool i2]) i2 = Ok (Some a2) ->
  efetch w (tr3 ++ [Invoke DetailsTool i3]) i3 = Ok (Some a3) ->
  Str.contains HEADING (card_body i1 a1) = false ->
  Str.contains HEADING (card_body i2 a2) = false ->
  Str.contains HEADING (card_body i3 a3) = false ->
  let run := Agent.think_and_act w u a tr in
  let summary := lit "Found 5 papers by " ++ name ++ lit ". Paper IDs: "
                 ++ Str.join (lit ", ") ids in
  let block1 := Str.strip (card_body i1 a1) in
  let block2 := Str.strip (card_body i2 a2) in
  let block3 := Str.strip (card_body i3 a3) in
  Agent.paper_id_cache (snd (fst run))
  = Agent.cache_ids 0 ids (Agent.paper_id_cache a)
  /\ (forall j pid, nth_error ids j = Some pid ->
        Dict.get (cache_key j) (Agent.paper_id_cache (snd (fst run))) = Some pid)
  /\ snd run = tr1 ++ fetch_events i1 ++ fetch_events i2 ++ fetch_events i3
  /\ fst (fst run)
     = Agent.Reply
         (Agent.BOOKS ++ lit " " ++ summary ++ NL ++ NL
          ++ lit "Here are details for the first 3 papers:" ++ NL
          ++ Str.rep "="%char 50 ++ NL
          ++ NL ++ Agent.PAGE ++ lit " PAPER 1:" ++ NL ++ block1
          ++ NL ++ Str.rep "-"%char 50 ++ NL
          ++ NL ++ Agent.PAGE ++ lit " PAPER 2:" ++ NL ++ block2
          ++ NL ++ Str.rep "-"%char 50 ++ NL
          ++ NL ++ Agent.PAGE ++ lit " PAPER 3:" ++ NL ++ block3
          ++ NL ++ NL ++ Agent.BULB
          ++ lit " Need more papers or specific details? Just ask!")
  /\ holds_fields i1 a1 block1
  /\ holds_fields i2 a2 block2
  /\ holds_fields i3 a3 block3.
Proof.
  intros R name ids found tr0 tr1 tr2 tr3 He F Hn Hl Hh H1 H2 H3 B1 B2 B3
    run summary block1 block2 block3.
  pose proof (search_papers_by_author_found w arg (tr ++ [llm_event u a])
                found He eq_refl) as Es.
  fold name in Es. fold tr0 in Es. fold tr1 in Es.
  pose proof (found_by_ids name ids F Hn) as Ei.
  change (firstn 10 ids) with ids in Ei. fold found in Ei.
  assert (F3 : Forall id_token [i1; i2; i3]).
  { exact (Forall_id_token_firstn 3 ids F). }
  destruct (mapM_fetch w [i1; i2; i3] F3 tr1) as [Et El].
  assert (Ec : Agent.paper_id_cache (snd (fst run))
               = Agent.cache_ids 0 ids (Agent.paper_id_cache a)).
  { unfold run. rewrite (author_turn_cache w u a tr arg R); rewrite Es; cbn [fst].
    - now rewrite Ei.
    - apply found_by_has_marker. }
  split; [exact Ec|]. split; [|split; [|split]].
  - intros j pid H. rewrite Ec. apply (cache_ids_written ids 0 _ j pid H).
  - unfold run. rewrite (author_turn_trace w u a tr arg R); rewrite Es; cbn [fst snd].
    + rewrite Ei. change (firstn 3 ids) with [i1; i2; i3]. rewrite Et.
      cbn [flat_map]. now rewrite app_nil_r.
    + apply found_by_has_marker.
  - unfold run. rewrite (think_and_act_routed w u a tr _ _ R), act_author, Es.
    cbv zeta. rewrite found_by_has_marker, Ei.
    change (firstn 3 ids) with [i1; i2; i3].
    pose proof (mapM_three_records w tr1 i1 i2 i3 a1 a2 a3 F3 H1 H2 H3) as Ed.
    destruct (mapM (Agent.get_paper_details w) [i1; i2; i3] tr1) as [ds tr'].
    cbn [fst] in Ed. subst ds. cbn [fst length]. f_equal.
    rewrite !render_details_heading.
    apply (format_three_papers (Agent.found_by name found)
             (card_body i1 a1) (card_body i2 a2) (card_body i3 a3)).
    + apply (summary_one_line name ids F _ eq_refl Hl).
    + apply (summary_found name ids _ eq_refl).
    + apply (summary_no_heading name ids F _ eq_refl Hh).
    + exact B1.
    + exact B2.
    + exact B3.
    + reflexivity.
  - repeat apply conj; apply card_holds_fields.
Qed.

Lemma author_search_expands_first_three_witness :
  let w := staged_world (tool_call_text AUTHOR_TOOL (lit "Dr. Jane Doe"))
             five_found (Some demo_article) in
  let run := Agent.think_and_act w (lit "Show papers by Dr. Jane Doe")
               Agent.init [] in
  fetcher_calls (snd run) = [lit "11111111"; lit "22222222"; lit "33333333"]
  /\ Str.contains (lit " PAPER 3:" ++ NL ++ lit "==============" ++ NL
                   ++ lit "Paper ID: 33333333" ++ NL
                   ++ lit "Title: Cavity architecture" ++ NL)
       (reply_text run) = true.
Proof.
  intros w run.
  assert (R : routes_to w (lit "Show papers by Dr. Jane Doe") Agent.init []
                AUTHOR_TOOL (lit "Dr. Jane Doe")).
  { route. }
  assert (F : Forall id_token (idlist five_found)).
  { repeat constructor; cbn; lia. }
  pose proof (author_search_expands_first_three w
                (lit "Show papers by Dr. Jane Doe") Agent.init []
                (lit "Dr. Jane Doe") _ _ _ _ _
                demo_article demo_article demo_article
                R eq_refl F eq_refl eq_refl eq_refl eq_refl eq_refl eq_refl
                eq_refl eq_refl eq_refl) as H.
  destruct H as (_ & _ & Ht & Hr & _).
  unfold reply_text. fold run in Ht, Hr. rewrite Ht, Hr.
  split; vm_compute; reflexivity.
Defined.

(** ** Pagination *)

Section Pagination.

Open Scope Z_scope.

Lemma total_pages_ceil (n s : Z) :
  0 < s -> AppV2.total_pages n s = ceil_div n s.
Proof.
  intros Hs. unfold AppV2.total_pages, ceil_div.
  pose proof (Z.div_mod n s ltac:(lia)) as E.
  pose proof (Z.mod_pos_bound n s Hs) as B.
  destruct (n mod s =? 0) eqn:R.
  - apply Z.eqb_eq in R. symmetry.
    apply (Z.div_unique _ s _ (s - 1)); lia.
  - apply Z.eqb_neq in R. symmetry.
    apply (Z.div_unique _ s _ (n mod s - 1)); lia.
Qed.

Lemma total_pages_bounds (n s : Z) :
  0 < s ->
  (AppV2.total_pages n s - 1) * s < n <= AppV2.total_pages n s * s.
Proof.
  intros Hs. unfold AppV2.total_pages.
  pose proof (Z.div_mod (n + s - 1) s ltac:(lia)) as E.
  pose proof (Z.mod_pos_bound (n + s - 1) s Hs) as B.
  nia.
Qed.

Lemma page_of_settle (s total : Z) (st : AppV2.session_state) :
  AppV2.page_of (AppV2.settle s total st)
  = Z.max 1 (Z.min total (requested_page s st)).
Proof.
  unfold AppV2.settle, AppV2.page_of, requested_page.
  destruct st as [[p|] [c|]]; cbn [AppV2.prev_papers_per_page AppV2.current_page];
    rewrite ?Z.eqb_refl; cbn [negb AppV2.current_page];
    try destruct (p =? s); cbn [negb AppV2.current_page];
    repeat match goal with
           | |- context [?x >? ?y] =>
               rewrite (Z.gtb_ltb x y); destruct (Z.ltb_spec y x)
           | |- context [?x <? ?y] => destruct (Z.ltb_spec x y)
           end; lia.
Qed.

Lemma fetcher_calls_app (a b : trace) :
  fetcher_calls (a ++ b) = fetcher_calls a ++ fetcher_calls b.
Proof. apply flat_map_app. Qed.

Lemma mapM_v2_calls (w : world) (ids : list str) :
  forall tr,
    fetcher_calls (snd (mapM (AppV2.get_paper_details w) ids tr))
    = fetcher_calls tr ++ ids.
Proof.
  induction ids as [|i ids IH]; intros tr; cbn [mapM].
  - unfold ret. cbn [snd]. now rewrite app_nil_r.
  - unfold bind, ret.
    assert (E : fetcher_calls (snd (AppV2.get_paper_details w i tr))
                = fetcher_calls tr ++ [i]).
    { destruct (Str.isdigit i) eqn:D.
      - rewrite (get_paper_details_v2_trace w i tr D).
        now rewrite fetcher_calls_app.
      - rewrite (get_paper_details_v2_invalid w i tr D). cbn [snd].
        now rewrite fetcher_calls_app. }
    destruct (AppV2.get_paper_details w i tr) as [y tr1]. cbn [snd] in E.
    specialize (IH tr1).
    destruct (mapM (AppV2.get_paper_details w) ids tr1) as [ys tr2].
    cbn [snd] in *. rewrite IH, E. now rewrite <- app_assoc.
Qed.

Lemma display_calls (w : world) (paper_ids : list str) (s : Z)
    (st : AppV2.session_state) (tr : trace) :
  fetcher_calls (snd (AppV2.display_all_author_papers w paper_ids s st tr))
  = fetcher_calls tr
    ++ AppV2.current_page_ids (snd (AppV2.view paper_ids s st)).
Proof.
  unfold AppV2.display_all_author_papers.
  destruct (AppV2.view paper_ids s st) as [st1 v1]. cbn [snd].
  unfold bind, ret.
  pose proof (mapM_v2_calls w (AppV2.current_page_ids v1) tr) as C.
  destruct (mapM (AppV2.get_paper_details w) (AppV2.current_page_ids v1) tr).
  exact C.
Qed.

Lemma slice_nth (a b : Z) (xs : list str) (i : nat) :
  (i < Z.to_nat (b - a))%nat ->
  nth_error (AppV2.slice a b xs) i = nth_error xs (Z.to_nat a + i).
Proof.
  intros Hi. unfold AppV2.slice.
  rewrite nth_error_firstn, nth_error_skipn.
  destruct (Nat.ltb_spec i (Z.to_nat (b - a))); [reflexivity | lia].
Qed.

Lemma slice_length (a b : Z) (xs : list str) :
  0 <= a -> b <= Z.of_nat (length xs) ->
  length (AppV2.slice a b xs) = Z.to_nat (b - a).
Proof.
  intros Ha Hb. unfold AppV2.slice.
  rewrite length_firstn, length_skipn. lia.
Qed.

End Pagination.

(** C8 as stated fails on the empty identifier list: there are 0 pages,
    the page is set to 1, and 1 is not in the empty range from 1 to 0.
    And a change of the page size does not clamp the tracked page, it
    resets it: from page 2 of 23 identifiers by 10, the size 5 leads to
    page 1 of 5. *)
Lemma empty_list_page_out_of_range :
  (let v := snd (AppV2.view [] 10 fresh_session) in
   AppV2.view_total_pages v = 0%Z
   /\ AppV2.view_page v = 1%Z
   /\ ~ (1 <= AppV2.view_page v <= AppV2.view_total_pages v)%Z)
  /\ (let v := snd (AppV2.view (map Str.of_nat (seq 1 23)) 5 (on_page 2 10)) in
      AppV2.view_total_pages v = 5%Z /\ AppV2.view_page v = 1%Z).
Proof.
  split.
  - vm_compute. repeat split. intros [_ H]. now apply H.
  - vm_compute. split; reflexivity.
Qed.

(** C8, amended.  For every identifier list of length [n] and page size
    [s] of at least 1: the number of pages is the ceiling of [n / s]; the
    page shown is the requested page (1 after a change of page size),
    lowered to the number of pages when above it and then raised to 1 when
    below, which lies between 1 and the number of pages whenever the list
    is not empty, and is 1 with 0 pages and nothing to fetch when it is
    empty; the identifiers fetched are exactly those of the half-open
    slice from [(page-1)*s] to [min (page*s) n], in order.  For 23
    identifiers and page size 10 there are 3 pages, page 2 is the slice
    from 10 to 20, and a requested page 5 becomes page 3. *)
Theorem paginator_slices_pages
    (w : world) (tr : trace) (paper_ids : list str) (s : Z)
    (st : AppV2.session_state) :
  (0 < s)%Z ->
  let n := Z.of_nat (length paper_ids) in
  let st' := fst (AppV2.view paper_ids s st) in
  let v := snd (AppV2.view paper_ids s st) in
  let page := AppV2.view_page v in
  let total := AppV2.view_total_pages v in
  (total = ceil_div n s /\ ((total - 1) * s < n <= total * s)%Z)
  /\ page = Z.max 1 (Z.min total (requested_page s st))
  /\ AppV2.current_page st' = Some page
  /\ ((0 < n)%Z -> (1 <= page <= total)%Z)
  /\ (n = 0%Z -> total = 0%Z /\ page = 1%Z /\ AppV2.current_page_ids v = [])
  /\ (AppV2.start_idx v = ((page - 1) * s)%Z
      /\ AppV2.end_idx v = Z.min (page * s) n)
  /\ (length (AppV2.current_page_ids v)
      = Z.to_nat (AppV2.end_idx v - AppV2.start_idx v)
      /\ forall i, i < Z.to_nat (AppV2.end_idx v - AppV2.start_idx v) ->
           nth_error (AppV2.current_page_ids v) i
           = nth_error paper_ids (Z.to_nat (AppV2.start_idx v) + i))
  /\ fetcher_calls
       (snd (AppV2.display_all_author_papers w paper_ids s st tr))
     = fetcher_calls tr ++ AppV2.current_page_ids v
  /\ (length paper_ids = 23 -> s = 10%Z ->
      total = 3%Z
      /\ (requested_page s st = 2%Z ->
          AppV2.start_idx v = 10%Z /\ AppV2.end_idx v = 20%Z)
      /\ (requested_page s st = 5%Z -> page = 3%Z)).
Proof.
  intros Hs n st' v page total.
  pose proof (total_pages_bounds n s Hs) as B.
  assert (Et : total = AppV2.total_pages n s) by reflexivity.
  assert (Ep : page = Z.max 1 (Z.min total (requested_page s st))).
  { unfold page, v, AppV2.view. cbn [snd AppV2.view_page].
    apply page_of_settle. }
  assert (Es : AppV2.start_idx v = ((page - 1) * s)%Z) by reflexivity.
  assert (Ee : AppV2.end_idx v = Z.min (page * s) n).
  { unfold v, AppV2.view. cbn [snd AppV2.end_idx]. fold n. fold total.
    change (AppV2.page_of (AppV2.settle s (AppV2.total_pages n s) st)) with page.
    f_equal. ring. }
  assert (Ei : AppV2.current_page_ids v
               = AppV2.slice (AppV2.start_idx v) (AppV2.end_idx v) paper_ids)
    by reflexivity.
  rewrite <- Et in B.
  split; [split; [rewrite Et; now apply total_pages_ceil | exact B]|].
  split; [exact Ep|].
  split; [reflexivity|].
  split; [intros Hn; nia|].
  split.
  { intros Hn. assert (total = 0%Z) by nia. assert (page = 1%Z) by lia.
    repeat split; try assumption.
    rewrite Ei. unfold AppV2.slice. destruct paper_ids; [|discriminate Hn].
    now rewrite skipn_nil, firstn_nil. }
  split; [now split|].
  split.
  { split.
    - rewrite Ei. apply slice_length; [nia | fold n; lia].
    - intros i Hi. rewrite Ei. now apply slice_nth. }
  split.
  { apply display_calls. }
  intros Hl ->. assert (Hn : n = 23%Z) by (unfold n; rewrite Hl; reflexivity).
  assert (total = 3%Z) by (rewrite Et, Hn; reflexivity).
  split; [assumption|]. split.
  - intros Hr. rewrite Hr in Ep. rewrite Es, Ee. lia.
  - intros Hr. rewrite Hr in Ep. lia.
Qed.

Lemma paginator_slices_pages_witness :
  let ids := map Str.of_nat (seq 1 23) in
  AppV2.current_page_ids (snd (AppV2.view ids 10 (on_page 5 10)))
  = map Str.of_nat [21; 22; 23]
  /\ AppV2.view_page (snd (AppV2.view ids 10 (on_page 5 10))) = 3%Z.
Proof.
  intros ids. split; [reflexivity|].
  assert (P : (0 < 10)%Z) by lia.
  destruct (paginator_slices_pages record_world [] ids 10 (on_page 5 10) P)
    as (_ & _ & _ & _ & _ & _ & _ & _ & H).
  destruct (H eq_refl eq_refl) as (_ & _ & H5). now apply H5.
Defined.

(** ** Further facts *)

Section Further.

Variable w : world.

(** The search of the identifier pattern returns the first of the matches
    of all positions. *)
Lemma id_search_from_first (s : str) (prev : option ascii) :
  Re.id_search_from prev s = hd_error (id_matches_from prev s).
Proof.
  revert prev. induction s as [|c s IH]; intros prev;
    cbn [Re.id_search_from id_matches_from].
  - destruct (Re.id_match_here prev []) as [m|] eqn:E; [|reflexivity].
    destruct (id_match_here_sound _ _ _ E) as (L & _ & k & ->).
    rewrite firstn_nil in L. cbn in L. lia.
  - destruct (Re.id_match_here prev (c :: s)); [reflexivity | apply IH].
Qed.

(** X16.  An utterance that holds a 7-to-9-digit number standing as a word
    of its own always gives the search a match: that number when nothing
    before it matches. *)
Lemma id_search_finds_token (pre tok post : str) :
  id_token tok ->
  Re.word_opt (last_char None pre) = false ->
  Re.word_opt (hd_error post) = false ->
  (exists pid, Re.id_search (pre ++ tok ++ post) = Some pid)
  /\ (Re.id_findall pre = [] -> Re.id_search (pre ++ tok ++ post) = Some tok).
Proof.
  intros T Hp Hq. unfold Re.id_search. rewrite id_search_from_first.
  rewrite id_findall_all_positions.
  assert (E : id_matches_from None (pre ++ tok ++ post)
              = id_matches_from None pre
                ++ tok :: id_matches_from (last_char (last_char None pre) tok) post).
  { destruct (rev pre) as [|z r] eqn:Er.
    - assert (pre = []) as ->.
      { apply (f_equal (@rev ascii)) in Er. now rewrite rev_involutive in Er. }
      cbn [app id_matches_from]. now apply id_matches_from_token.
    - assert (Ep : pre = rev r ++ [z]).
      { apply (f_equal (@rev ascii)) in Er. now rewrite rev_involutive in Er. }
      assert (Hz : Char.is_word z = false).
      { unfold last_char in Hp. now rewrite Er in Hp. }
      assert (Dz : Char.is_decimal z = false).
      { destruct (Char.is_decimal z) eqn:Dz; [|reflexivity].
        apply decimal_is_word in Dz. congruence. }
      assert (El : last_char None pre = Some z)
        by (unfold last_char; now rewrite Er).
      rewrite El. rewrite Ep at 1.
      rewrite (id_matches_from_app_nondecimal (rev r) z _ None Dz).
      rewrite <- Ep. f_equal. now apply id_matches_from_token. }
  rewrite E. split.
  - destruct (id_matches_from None pre) as [|m ms]; cbn [app hd_error]; eauto.
  - now intros ->.
Qed.

(** Whatever the turn, the cache afterwards is the cache before with a
    list of 7-to-9-digit numbers written over its leading keys. *)
Lemma think_and_act_cache (u : str) (a : Agent.agent) (tr : trace) :
  exists ids,
    Forall id_token ids
    /\ Agent.paper_id_cache (snd (fst (Agent.think_and_act w u a tr)))
       = Agent.cache_ids 0 ids (Agent.paper_id_cache a).
Proof.
  assert (same : forall (r : Agent.outcome * Agent.agent * trace),
             Agent.paper_id_cache (snd (fst r)) = Agent.paper_id_cache a ->
             exists ids, Forall id_token ids
                         /\ Agent.paper_id_cache (snd (fst r))
                            = Agent.cache_ids 0 ids (Agent.paper_id_cache a)).
  { intros r H. exists []. split; [constructor | exact H]. }
  assert (look : forall pid a0 tr0,
             Agent.paper_id_cache (snd (fst (Agent.lookup w pid a0 tr0)))
             = Agent.paper_id_cache a0).
  { intros pid a0 tr0. unfold Agent.lookup, bind, ret.
    now destruct (Agent.get_paper_details w pid tr0). }
  unfold Agent.think_and_act.
  destruct (Agent.id_request u); [apply same; now rewrite look|].
  destruct (Agent.cached_title_request u _); [apply same; now rewrite look|].
  unfold Agent.decide, bind, ask_llm, ret.
  destruct (llm w tr u _) as [out|msg]; [|now apply same].
  destruct (Str.startswith (lit "Direct:") out); [now apply same|].
  destruct (Agent.parse_tool_call out) as [[name arg]|]; [|now apply same].
  unfold Agent.act, bind, ret.
  destruct (Agent.execute_tool w name arg _) as [result tr1].
  destruct (Str.contains (lit "Paper IDs:") result).
  - exists (firstn 5 (Re.id_findall result)). split.
    + apply Forall_id_token_firstn, Forall_forall. intros m. apply id_findall_sound.
    + destruct (str_eqb name _ && true); [|reflexivity].
      now destruct (mapM _ _ tr1).
  - rewrite andb_false_r. now apply same.
Qed.

Lemma extends_ret {A : Type} (x : A) : extends (ret x).
Proof. intros tr. exists []. cbn. now rewrite app_nil_r. Qed.

Lemma extends_bind {A B : Type} (m : M A) (k : A -> M B) :
  extends m -> (forall x, extends (k x)) -> extends (bind m k).
Proof.
  intros Hm Hk tr. unfold bind.
  destruct (Hm tr) as [e1 E1]. destruct (m tr) as [x tr1]. cbn [snd] in E1.
  destruct (Hk x tr1) as [e2 E2]. exists (e1 ++ e2).
  now rewrite E2, E1, app_assoc.
Qed.

Lemma extends_emit (e : event) : extends (emit e).
Proof. intros tr. now exists [e]. Qed.

Lemma extends_http_search (term : str) (n : nat) :
  extends (http_search w term n).
Proof. intros tr. now exists [HttpSearch term n]. Qed.

Lemma extends_http_fetch (id : str) : extends (http_fetch w id).
Proof. intros tr. now exists [HttpFetch id]. Qed.

Lemma extends_get_paper_details (id : str) :
  extends (Agent.get_paper_details w id).
Proof.
  unfold Agent.get_paper_details.
  apply extends_bind; [apply extends_emit|]. intros _.
  destruct (negb (Str.isdigit id)); [apply extends_ret|].
  apply extends_bind; [apply extends_http_fetch|].
  intros [[art|]|msg]; apply extends_ret.
Qed.

Lemma extends_search_papers_by_author (arg : str) :
  extends (Agent.search_papers_by_author w arg).
Proof.
  unfold Agent.search_papers_by_author.
  apply extends_bind; [apply extends_emit|]. intros _.
  apply extends_bind; [apply extends_http_search|].
  intros [d1|msg]; [|apply extends_ret].
  destruct (str_eqb (count d1) (lit "0")); [|apply extends_ret].
  apply extends_bind; [apply extends_http_search|].
  intros [d2|msg]; [|apply extends_ret].
  destruct (negb _); apply extends_ret.
Qed.

Lemma extends_search_paper_by_title (title : str) :
  extends (Agent.search_paper_by_title w title).
Proof.
  unfold Agent.search_paper_by_title.
  apply extends_bind; [apply extends_emit|]. intros _.
  apply extends_bind; [apply extends_http_search|].
  intros [d1|msg]; [|apply extends_ret].
  destruct (idlist d1); [|apply extends_get_paper_details].
  apply extends_bind; [apply extends_http_search|].
  intros [d2|msg]; [|apply extends_ret].
  destruct (idlist d2); [apply extends_ret | apply extends_get_paper_details].
Qed.

Lemma extends_mapM {A B : Type} (f : A -> M B) (xs : list A) :
  (forall x, extends (f x)) -> extends (mapM f xs).
Proof.
  intros Hf. induction xs as [|x xs IH]; cbn [mapM]; [apply extends_ret|].
  apply extends_bind; [apply Hf|]. intros y.
  apply extends_bind; [exact IH|]. intros ys. apply extends_ret.
Qed.

Lemma extends_act (name arg : str) (a : Agent.agent) :
  extends (Agent.act w name arg a).
Proof.
  unfold Agent.act. apply extends_bind.
  - unfold Agent.execute_tool.
    destruct (existsb _ _); [|apply extends_ret].
    destruct (Str.contains _ _); [apply extends_search_papers_by_author|].
    destruct (str_eqb _ _); [apply extends_get_paper_details|].
    destruct (str_eqb _ _); [apply extends_search_paper_by_title|].
    apply extends_ret.
  - intros result. destruct (_ && _); [|apply extends_ret].
    apply extends_bind; [|intros; apply extends_ret].
    apply extends_mapM. apply extends_get_paper_details.
Qed.

(** X17.  The agent knows no other topic: an utterance that the first
    shortcut leaves alone and that does not hold the phrase
    [cavity architecture] goes to the model, whatever the cache holds. *)
Lemma other_topics_go_to_model (u : str) (a : Agent.agent) (tr : trace) :
  Agent.id_request u = None ->
  Str.contains (lit "cavity architecture") (Str.lower u) = false ->
  exists evs, snd (Agent.think_and_act w u a tr) = tr ++ llm_event u a :: evs.
Proof.
  intros Hid Hp. unfold Agent.think_and_act, Agent.cached_title_request.
  rewrite Hid, Hp. cbn [andb].
  unfold Agent.decide, bind at 1, ask_llm. fold (llm_event u a).
  assert (E : forall (m : M (Agent.outcome * Agent.agent)),
             extends m ->
             exists evs, snd (m (tr ++ [llm_event u a]))
                         = tr ++ llm_event u a :: evs).
  { intros m Hm. destruct (Hm (tr ++ [llm_event u a])) as [evs E].
    exists evs. now rewrite E, <- app_assoc. }
  destruct (llm w tr u _) as [out|msg]; [|apply E, extends_ret].
  destruct (Str.startswith _ out); [apply E, extends_ret|].
  destruct (Agent.parse_tool_call out) as [[name arg]|];
    [apply E, extends_act | apply E, extends_ret].
Qed.

Lemma get_paper_details_v2_resolved (first : str) (tr : trace) :
  resolved_v2 w first tr (AppV2.get_paper_details w first tr).
Proof.
  unfold resolved_v2. destruct (Str.isdigit first) eqn:D.
  - rewrite (get_paper_details_v2_valid w first tr D). cbn [fst snd].
    split; [reflexivity|].
    destruct (efetch w (tr ++ [Invoke DetailsTool first]) first) as [[a|]|msg];
      [|reflexivity|reflexivity].
    eexists. split; [reflexivity|]. cbn. repeat apply conj; reflexivity.
  - apply (get_paper_details_v2_invalid w first tr D).
Qed.

(** X18.  Title search of the web variant follows the protocol of the
    agent.  The quoted title is queried first; with a non-empty list the
    Record Fetcher is invoked on the first identifier, one request is
    sent for it, and the result is the dictionary of the record the record
    source answers with, every field filled from that record (or the
    failure dictionary of the Record Fetcher).  With an empty list the
    unquoted title is queried and resolved in the same way, and when both
    lists are empty the result is the failure dictionary of a title
    without match, with no request to the record source. *)
Lemma search_paper_by_title_v2_protocol
    (title : str) (tr : trace) (d1 : esearch_result) :
  let tr0 := tr ++ [Invoke TitleTool title] in
  let tr1 := tr0 ++ [HttpSearch (Agent.quoted_title_term title) 5] in
  let tr2 := tr1 ++ [HttpSearch (Agent.plain_title_term title) 5] in
  let run := AppV2.search_paper_by_title w title tr in
  esearch w tr0 (Agent.quoted_title_term title) 5 = Ok d1 ->
  (forall first rest, idlist d1 = first :: rest -> resolved_v2 w first tr1 run)
  /\ (idlist d1 = [] ->
      forall d2, esearch w tr1 (Agent.plain_title_term title) 5 = Ok d2 ->
        (forall first rest, idlist d2 = first :: rest ->
           resolved_v2 w first tr2 run)
        /\ (idlist d2 = [] ->
            run = (AppV2.Failure (lit "No papers found with this title."), tr2))).
Proof.
  intros tr0 tr1 tr2 run H1.
  unfold run, AppV2.search_paper_by_title, bind, emit, http_search.
  fold tr0. rewrite H1. fold tr1. split.
  - intros first rest E. rewrite E. apply get_paper_details_v2_resolved.
  - intros E d2 H2. rewrite E, H2. fold tr2. split.
    + intros first rest E2. rewrite E2. apply get_paper_details_v2_resolved.
    + intros E2. now rewrite E2.
Qed.

End Further.

(** * More of the code *)

(** ** The tools of the agent *)

(** X1.  Author search of the agent.  The cleaned name is queried first.
    A count other than 0 ends the search with the summary of that answer
    and no second query.  A count of 0 is followed by exactly one more
    query, for the last word of the cleaned name: its answer gives the
    last-name summary when its count is not 0, and otherwise the summary of
    zero papers by the cleaned name, which is a value and not an error. *)
Theorem search_papers_by_author_fallback
    (w : world) (arg : str) (tr : trace) (d1 : esearch_result) :
  let name := cleaned_name arg in
  let last := Agent.last_token name in
  let tr0 := tr ++ [Invoke AuthorTool arg] in
  let tr1 := tr0 ++ [HttpSearch (name ++ lit "[Author]") 20] in
  let tr2 := tr1 ++ [HttpSearch (last ++ lit "[Author]") 20] in
  let run := Agent.search_papers_by_author w arg tr in
  esearch w tr0 (name ++ lit "[Author]") 20 = Ok d1 ->
  (count d1 <> lit "0" -> run = (Agent.found_by name d1, tr1))
  /\ (count d1 = lit "0" ->
      snd run = tr2
      /\ forall d2, esearch w tr1 (last ++ lit "[Author]") 20 = Ok d2 ->
           (count d2 <> lit "0" -> fst run = Agent.found_by_last_name last d2)
           /\ (count d2 = lit "0" -> fst run = Agent.found_by name d2)).
Proof.
  intros name last tr0 tr1 tr2 run H1.
  unfold run, Agent.search_papers_by_author, bind, emit, http_search, ret.
  fold name. fold tr0. rewrite H1. fold tr1. split.
  - intros Hc. apply str_eqb_neq in Hc. now rewrite Hc.
  - intros Hc. rewrite Hc. rewrite str_eqb_refl. fold last. split.
    + destruct (esearch w tr1 (last ++ lit "[Author]") 20) as [d2|msg];
        [|reflexivity].
      now destruct (negb (str_eqb (count d2) (lit "0"))).
    + intros d2 H2. rewrite H2. split.
      * intros Hd. apply str_eqb_neq in Hd. now rewrite Hd.
      * intros Hd. now rewrite Hd, str_eqb_refl.
Qed.

Lemma search_papers_by_author_fallback_witness :
  Agent.search_papers_by_author last_name_world (lit "Dr. Jane Doe") []
  = (lit "Found 2 papers by authors with last name 'Doe'. Paper IDs: 11111111, 22222222",
     [Invoke AuthorTool (lit "Dr. Jane Doe");
      HttpSearch (lit "Jane Doe[Author]") 20;
      HttpSearch (lit "Doe[Author]") 20]).
Proof.
  pose proof (search_papers_by_author_fallback last_name_world
                (lit "Dr. Jane Doe") [] _ eq_refl) as H.
  destruct H as [_ H]. destruct (H eq_refl) as [Ht Hr].
  destruct (Hr _ eq_refl) as [Hf _].
  specialize (Hf ltac:(discriminate)).
  rewrite (surjective_pairing (Agent.search_papers_by_author _ _ _)).
  rewrite Ht, Hf. reflexivity.
Defined.

(** X2.  A failure of the index never leaves a tool as an exception: on
    the first query and on the retry alike, the author search and the
    title search return their error text with the message of the failure,
    and the Record Fetcher is not invoked. *)
Theorem index_failures_are_values (w : world) (arg : str) (tr : trace)
    (msg : str) :
  let name := cleaned_name arg in
  let a0 := tr ++ [Invoke AuthorTool arg] in
  let a1 := a0 ++ [HttpSearch (name ++ lit "[Author]") 20] in
  let a2 := a1 ++ [HttpSearch (Agent.last_token name ++ lit "[Author]") 20] in
  let t0 := tr ++ [Invoke TitleTool arg] in
  let t1 := t0 ++ [HttpSearch (Agent.quoted_title_term arg) 5] in
  let t2 := t1 ++ [HttpSearch (Agent.plain_title_term arg) 5] in
  (esearch w a0 (name ++ lit "[Author]") 20 = Raise msg ->
     Agent.search_papers_by_author w arg tr
     = (lit "Error searching papers: " ++ msg, a1))
  /\ (forall d1, esearch w a0 (name ++ lit "[Author]") 20 = Ok d1 ->
        count d1 = lit "0" ->
        esearch w a1 (Agent.last_token name ++ lit "[Author]") 20 = Raise msg ->
        Agent.search_papers_by_author w arg tr
        = (lit "Error searching papers: " ++ msg, a2))
  /\ (esearch w t0 (Agent.quoted_title_term arg) 5 = Raise msg ->
        Agent.search_paper_by_title w arg tr
        = (lit "Error searching paper by title: " ++ msg, t1))
  /\ (forall d1, esearch w t0 (Agent.quoted_title_term arg) 5 = Ok d1 ->
        idlist d1 = [] ->
        esearch w t1 (Agent.plain_title_term arg) 5 = Raise msg ->
        Agent.search_paper_by_title w arg tr
        = (lit "Error searching paper by title: " ++ msg, t2)).
Proof.
  intros name a0 a1 a2 t0 t1 t2. repeat split.
  - intros H. unfold Agent.search_papers_by_author, bind, emit, http_search, ret.
    fold name. fold a0. now rewrite H.
  - intros d1 H1 Hc H2.
    unfold Agent.search_papers_by_author, bind, emit, http_search, ret.
    fold name. fold a0. rewrite H1, Hc, str_eqb_refl. fold a1. now rewrite H2.
  - intros H. unfold Agent.search_paper_by_title, bind, emit, http_search, ret.
    fold t0. now rewrite H.
  - intros d1 H1 He H2.
    unfold Agent.search_paper_by_title, bind, emit, http_search, ret.
    fold t0. rewrite H1, He. fold t1. now rewrite H2.
Qed.

Lemma index_failures_are_values_witness :
  Agent.search_paper_by_title broken_index_world (lit "cavity") []
  = (lit "Error searching paper by title: timed out",
     [Invoke TitleTool (lit "cavity");
      HttpSearch (Agent.quoted_title_term (lit "cavity")) 5]).
Proof.
  exact (proj1 (proj2 (proj2
           (index_failures_are_values broken_index_world (lit "cavity") []
              (lit "timed out")))) eq_refl).
Defined.

(** ** The last word of a name *)

Lemma split_ws_aux_word (word : str) :
  no_space word = true ->
  forall cur, cur <> [] \/ word <> [] ->
    Str.split_ws_aux cur word = [rev cur ++ word].
Proof.
  induction word as [|c word IH]; intros Hn cur Hne.
  - destruct Hne as [Hne|Hne]; [|congruence].
    cbn [Str.split_ws_aux]. rewrite app_nil_r.
    destruct cur; [congruence | reflexivity].
  - cbn [no_space forallb] in Hn. apply andb_prop in Hn. destruct Hn as [Hc Hw].
    apply negb_true_iff in Hc. cbn [Str.split_ws_aux]. rewrite Hc.
    rewrite (IH Hw) by (left; discriminate).
    cbn [rev]. now rewrite <- app_assoc.
Qed.

Lemma split_ws_aux_last (pre : str) (sp : ascii) (word : str) :
  Char.isspace sp = true -> no_space word = true -> word <> [] ->
  forall cur, exists t,
    rev (Str.split_ws_aux cur (pre ++ sp :: word)) = word :: t.
Proof.
  intros Hs Hn Hne.
  assert (W : Str.split_ws_aux [] word = [word]).
  { rewrite (split_ws_aux_word word Hn) by (now right). reflexivity. }
  induction pre as [|c pre IH]; intros cur; cbn [app Str.split_ws_aux].
  - rewrite Hs. destruct cur as [|x cur]; rewrite W.
    + now exists [].
    + now exists [rev (x :: cur)].
  - destruct (Char.isspace c).
    + destruct cur as [|x cur]; [apply IH|].
      destruct (IH []) as [t E]. exists (t ++ [rev (x :: cur)]).
      cbn [rev]. cbn [rev] in E. now rewrite E.
    + apply IH.
Qed.

(** X3.  The retry of the author search uses the last word of the cleaned
    name: what follows the last white-space character of the name, and the
    whole name when it holds no white space, in which case the retry
    repeats the first query. *)
Theorem last_token_is_last_word :
  (forall name, no_space name = true -> Agent.last_token name = name)
  /\ (forall pre sp word,
        Char.isspace sp = true -> no_space word = true -> word <> [] ->
        Agent.last_token (pre ++ sp :: word) = word)
  /\ (forall arg, no_space (cleaned_name arg) = true ->
        Agent.last_token (cleaned_name arg) ++ lit "[Author]"
        = cleaned_name arg ++ lit "[Author]").
Proof.
  assert (A : forall name, no_space name = true -> Agent.last_token name = name).
  { intros name Hn. unfold Agent.last_token, Str.split_ws.
    destruct name as [|c name]; [reflexivity|].
    rewrite (split_ws_aux_word (c :: name) Hn) by (right; discriminate).
    reflexivity. }
  split; [exact A|]. split.
  - intros pre sp word Hs Hn Hne. unfold Agent.last_token, Str.split_ws.
    destruct (split_ws_aux_last pre sp word Hs Hn Hne []) as [t E].
    now rewrite E.
  - intros arg Hn. now rewrite A.
Qed.

Lemma last_token_is_last_word_witness :
  Agent.last_token (lit "Jane van Doe") = lit "Doe"
  /\ Agent.last_token (lit "Doe") = lit "Doe".
Proof.
  split.
  - apply (proj1 (proj2 last_token_is_last_word) (lit "Jane van") " "%char (lit "Doe"));
      [reflexivity | reflexivity | discriminate].
  - apply (proj1 last_token_is_last_word). reflexivity.
Defined.

(** ** Reading the answer of the model *)

Lemma word_not_space (c : ascii) :
  Char.is_word c = true -> Char.isspace c = false.
Proof.
  destruct c as [[] [] [] [] [] [] [] []]; vm_compute; congruence.
Qed.

Lemma takewhile_stop (p : ascii -> bool) (a : str) (c : ascii) (r : str) :
  forallb p a = true -> p c = false ->
  Str.takewhile p (a ++ c :: r) = a /\ Str.dropwhile p (a ++ c :: r) = c :: r.
Proof.
  intros Ha Hc. induction a as [|x a IH]; cbn [app Str.takewhile Str.dropwhile].
  - now rewrite Hc.
  - cbn [forallb] in Ha. apply andb_prop in Ha. destruct Ha as [Hx Ha].
    rewrite Hx. destruct (IH Ha) as [-> ->]. now split.
Qed.

(** X4.  Writing a tool call and parsing it back: for a name made of word
    characters and an argument without double quote, both non-empty, the
    text [Tool: name("argument")], whatever follows it, is parsed as that
    name and that argument. *)
Theorem parse_tool_call_round_trip (name arg rest : str) :
  name <> [] -> forallb Char.is_word name = true ->
  arg <> [] -> forallb Re.not_dquote arg = true ->
  Agent.parse_tool_call (tool_call_text name arg ++ rest) = Some (name, arg).
Proof.
  intros Hn Hw Ha Hq.
  unfold Agent.parse_tool_call, tool_call_text.
  destruct name as [|n name]; [congruence|].
  destruct arg as [|x arg]; [congruence|].
  assert (Hs : Char.isspace n = false).
  { apply word_not_space. cbn [forallb] in Hw. now apply andb_prop in Hw. }
  rewrite <- !app_assoc.
  change (lit "Tool: " ++ (n :: name) ++ lit "(" ++ [Re.DQUOTE] ++ (x :: arg)
          ++ [Re.DQUOTE] ++ lit ")" ++ rest)
    with (lit "Tool:" ++ " "%char :: (n :: name)
          ++ "("%char :: Re.DQUOTE :: (x :: arg) ++ Re.DQUOTE :: ")"%char :: rest).
  set (tail := Re.DQUOTE :: (x :: arg) ++ Re.DQUOTE :: ")"%char :: rest).
  assert (M : Re.tool_match_here
                (lit "Tool:" ++ " "%char :: (n :: name) ++ "("%char :: tail)
              = Some (n :: name, x :: arg)).
  { unfold Re.tool_match_here. rewrite startswith_app.
    change (skipn 5 (lit "Tool:" ++ " "%char :: (n :: name) ++ "("%char :: tail))
      with (" "%char :: (n :: name) ++ "("%char :: tail).
    change (Str.dropwhile Char.isspace (" "%char :: (n :: name) ++ "("%char :: tail))
      with (Str.dropwhile Char.isspace ((n :: name) ++ "("%char :: tail)).
    replace (Str.dropwhile Char.isspace ((n :: name) ++ "("%char :: tail))
      with ((n :: name) ++ "("%char :: tail)
      by (cbn [app Str.dropwhile]; now rewrite Hs).
    destruct (takewhile_stop Char.is_word (n :: name) "("%char tail Hw eq_refl)
      as [-> ->].
    unfold tail.
    change (Str.startswith (lit "(" ++ [Re.DQUOTE])
              ("("%char :: Re.DQUOTE :: (x :: arg) ++ Re.DQUOTE :: ")"%char :: rest))
      with (Str.startswith [] ((x :: arg) ++ Re.DQUOTE :: ")"%char :: rest)).
    cbn [Str.startswith].
    change (skipn 2 ("("%char :: Re.DQUOTE :: (x :: arg)
                     ++ Re.DQUOTE :: ")"%char :: rest))
      with ((x :: arg) ++ Re.DQUOTE :: ")"%char :: rest).
    destruct (takewhile_stop Re.not_dquote (x :: arg) Re.DQUOTE
                (")"%char :: rest) Hq eq_refl) as [-> ->].
    change (Str.startswith (Re.DQUOTE :: lit ")") (Re.DQUOTE :: ")"%char :: rest))
      with true.
    reflexivity. }
  cbn [app] in M.
  destruct (lit "Tool:" ++ " "%char :: (n :: name) ++ "("%char :: tail) eqn:E;
    cbn [Re.tool_search]; cbn [app] in E; rewrite <- E; cbn [app]; now rewrite M.
Qed.

Lemma parse_tool_call_round_trip_witness :
  Agent.parse_tool_call
    (tool_call_text (lit "get_paper_details") (lit "40125545") ++ lit " please")
  = Some (lit "get_paper_details", lit "40125545").
Proof.
  apply parse_tool_call_round_trip;
    [discriminate | reflexivity | discriminate | reflexivity].
Defined.

Lemma tool_search_without_marker (s : str) :
  Str.contains (lit "Tool:") s = false -> Re.tool_search s = None.
Proof.
  induction s as [|c s IH]; cbn [Str.contains Re.tool_search]; intros H.
  - reflexivity.
  - apply orb_false_iff in H. destruct H as [H1 H2].
    unfold Re.tool_match_here. rewrite H1. now apply IH.
Qed.

(** ** Turns that call no tool *)

(** X5.  When neither shortcut applies, the model is asked once.  If its
    answer starts with [Direct:], the reply is the rest of the answer
    without surrounding white space, even when a tool call follows in the
    answer; if it does not and holds no [Tool:] anywhere, the reply is the
    fixed clarification text; if the call fails, the failure leaves the
    turn.  In the three cases no tool is invoked, nothing is fetched, the
    cache is kept and the history gains the user line only. *)
Theorem answers_without_tool
    (w : world) (u : str) (a : Agent.agent) (tr : trace) :
  Agent.id_request u = None ->
  Agent.cached_title_request u (Agent.paper_id_cache a) = false ->
  let a0 := Agent.remember (lit "User: " ++ u) a in
  let asked := llm w tr u (Str.join NL (Agent.last3 (Agent.conversation_history a0))) in
  let run := Agent.think_and_act w u a tr in
  (forall out, asked = Ok out -> Str.startswith (lit "Direct:") out = true ->
     run = (Agent.Reply (Str.strip (skipn 7 out)), a0, tr ++ [llm_event u a])
     /\ stripped (Str.strip (skipn 7 out)))
  /\ (forall out, asked = Ok out -> Str.startswith (lit "Direct:") out = false ->
        Str.contains (lit "Tool:") out = false ->
        run = (Agent.Reply Agent.clarification, a0, tr ++ [llm_event u a]))
  /\ (forall msg, asked = Raise msg ->
        run = (Agent.Propagated msg, a0, tr ++ [llm_event u a])).
Proof.
  intros Hid Hc a0 asked run.
  assert (E : run = Agent.decide w u a0 tr).
  { unfold run, Agent.think_and_act. rewrite Hid.
    change (Agent.paper_id_cache (Agent.remember (lit "User: " ++ u) a))
      with (Agent.paper_id_cache a). now rewrite Hc. }
  rewrite E. unfold Agent.decide, bind, ask_llm, ret. fold asked.
  split; [|split].
  - intros out H Hd. rewrite H, Hd. split; [reflexivity | apply strip_idem].
  - intros out H Hd Hm. rewrite H, Hd. unfold Agent.parse_tool_call.
    now rewrite (tool_search_without_marker out Hm).
  - intros msg H. now rewrite H.
Qed.

Lemma answers_without_tool_witness :
  let out := lit "Direct:  PubMed is an index. " ++ tool_call_text (lit "x") (lit "y") in
  fst (fst (Agent.think_and_act (scripted_world out) (lit "What is PubMed?")
              Agent.init []))
  = Agent.Reply (lit "PubMed is an index. Tool: x(" ++ [Re.DQUOTE] ++ lit "y"
                 ++ [Re.DQUOTE] ++ lit ")").
Proof.
  intros out.
  pose proof (answers_without_tool (scripted_world out) (lit "What is PubMed?")
                Agent.init [] eq_refl eq_refl) as H.
  destruct H as [H _]. destruct (H out eq_refl eq_refl) as [E _].
  rewrite E. reflexivity.
Defined.

(** X6.  The history is an append-only log: after a turn it is the history
    before, then the user line, then at most one more line.  On the first
    shortcut that line is [Tool Result:] with the whole text the Record
    Fetcher returned for the identifier of the utterance, and on the
    second shortcut the same for the identifier 37635766; neither is
    truncated.  When the model chose a tool, the line names the tool and
    holds the first 200 characters of what the tool returned, so its
    length is bounded by the length of the name plus 219. *)
Theorem history_is_appended
    (w : world) (u : str) (a : Agent.agent) (tr : trace) :
  let h := Agent.conversation_history a in
  let h' :=
    Agent.conversation_history (snd (fst (Agent.think_and_act w u a tr))) in
  let user := lit "User: " ++ u in
  (exists extra, h' = h ++ user :: extra /\ length extra <= 1)
  /\ (forall pid, Agent.id_request u = Some pid ->
        h' = h ++ [user; lit "Tool Result: "
                         ++ fst (Agent.get_paper_details w pid tr)])
  /\ (Agent.id_request u = None ->
      Agent.cached_title_request u (Agent.paper_id_cache a) = true ->
      h' = h ++ [user; lit "Tool Result: "
                       ++ fst (Agent.get_paper_details w (lit "37635766") tr)])
  /\ (forall name arg, routes_to w u a tr name arg ->
        let result :=
          fst (Agent.execute_tool w name arg (tr ++ [llm_event u a])) in
        let line := lit "Tool: " ++ name ++ lit ", Result: "
                    ++ firstn 200 result ++ lit "..." in
        h' = h ++ [user; line] /\ length line <= length name + 219).
Proof.
  intros h h' user.
  set (a0 := Agent.remember (lit "User: " ++ u) a).
  assert (H0 : Agent.conversation_history a0 = h ++ [user]) by reflexivity.
  assert (look : forall pid,
             Agent.conversation_history (snd (fst (Agent.lookup w pid a0 tr)))
             = h ++ [user; lit "Tool Result: "
                           ++ fst (Agent.get_paper_details w pid tr)]).
  { intros pid. unfold Agent.lookup, bind, ret.
    destruct (Agent.get_paper_details w pid tr) as [result tr1].
    cbn [fst snd]. change (Agent.conversation_history
                             (Agent.remember (lit "Tool Result: " ++ result) a0))
      with (Agent.conversation_history a0 ++ [lit "Tool Result: " ++ result]).
    now rewrite H0, <- app_assoc. }
  assert (tool : forall name arg,
             Agent.conversation_history
               (snd (fst (Agent.act w name arg a0 (tr ++ [llm_event u a]))))
             = h ++ [user; lit "Tool: " ++ name ++ lit ", Result: "
                           ++ firstn 200
                                (fst (Agent.execute_tool w name arg
                                        (tr ++ [llm_event u a])))
                           ++ lit "..."]).
  { intros name arg. unfold Agent.act, bind, ret.
    destruct (Agent.execute_tool w name arg _) as [result tr1]. cbn [fst].
    set (line := lit "Tool: " ++ name ++ lit ", Result: "
                 ++ firstn 200 result ++ lit "...").
    assert (E : forall d,
               Agent.conversation_history
                 (Agent.with_cache d (Agent.remember line a0))
               = h ++ [user; line]).
    { intros d.
      change (Agent.conversation_history
                (Agent.with_cache d (Agent.remember line a0)))
        with (Agent.conversation_history a0 ++ [line]).
      now rewrite H0, <- app_assoc. }
    assert (E' : Agent.conversation_history (Agent.remember line a0)
                 = h ++ [user; line]).
    { change (Agent.conversation_history (Agent.remember line a0))
        with (Agent.conversation_history a0 ++ [line]).
      now rewrite H0, <- app_assoc. }
    destruct (Str.contains (lit "Paper IDs:") result);
      destruct (str_eqb name (lit "search_papers_by_author")); cbn [andb];
      try (cbn [fst snd]; first [apply E | exact E']).
    destruct (mapM _ _ tr1) as [details tr2]. cbn [fst snd]. apply E. }
  split; [|split; [|split]].
  - unfold h', Agent.think_and_act. fold a0.
    destruct (Agent.id_request u) as [pid|];
      [rewrite look; eexists; split; [reflexivity | cbn; lia]|].
    destruct (Agent.cached_title_request u _);
      [rewrite look; eexists; split; [reflexivity | cbn; lia]|].
    unfold Agent.decide, bind, ask_llm, ret.
    fold (llm_event u a).
    destruct (llm w tr u _) as [out|msg];
      [|exists []; split; [exact H0 | cbn; lia]].
    destruct (Str.startswith (lit "Direct:") out);
      [exists []; split; [exact H0 | cbn; lia]|].
    destruct (Agent.parse_tool_call out) as [[name arg]|];
      [|exists []; split; [exact H0 | cbn; lia]].
    rewrite tool. eexists. split; [reflexivity | cbn; lia].
  - intros pid Hid. unfold h', Agent.think_and_act. fold a0. rewrite Hid.
    apply look.
  - intros Hid Hc. unfold h', Agent.think_and_act. fold a0. rewrite Hid.
    change (Agent.paper_id_cache a0) with (Agent.paper_id_cache a).
    rewrite Hc. apply look.
  - intros name arg R result line. split.
    + unfold h'. rewrite (think_and_act_routed w u a tr _ _ R). apply tool.
    + unfold line. rewrite !length_app, length_firstn.
      change (length (lit "Tool: ")) with 6.
      change (length (lit ", Result: ")) with 10.
      change (length (lit "...")) with 3. lia.
Qed.

Lemma history_is_appended_witness :
  Agent.conversation_history
    (snd (fst (Agent.think_and_act record_world
                 (lit "Tell me about paper 37635766") Agent.init [])))
  = [lit "User: Tell me about paper 37635766";
     lit "Tool Result: "
     ++ fst (Agent.get_paper_details record_world (lit "37635766") [])].
Proof.
  exact (proj1 (proj2 (history_is_appended record_world
                         (lit "Tell me about paper 37635766") Agent.init []))
           (lit "37635766") eq_refl).
Defined.

(** ** The cache over a whole session *)

Lemma set_keys (k v : str) (d : Dict.t) :
  (In k (map fst d) -> map fst (Dict.set k v d) = map fst d)
  /\ (~ In k (map fst d) -> map fst (Dict.set k v d) = map fst d ++ [k]).
Proof.
  induction d as [|[k' v'] d [IH1 IH2]]; cbn [Dict.set map fst app].
  - split; [contradiction | reflexivity].
  - destruct (str_eqb k k') eqn:E; cbn [map fst].
    + apply str_eqb_eq in E. subst k'. split; [reflexivity|].
      intros H. exfalso. apply H. now left.
    + apply str_eqb_neq in E. split.
      * intros [H|H]; [congruence|]. now rewrite IH1.
      * intros H. rewrite IH2; [reflexivity|]. intros G. apply H. now right.
Qed.

Lemma set_forall (P : str * str -> Prop) (k v : str) (d : Dict.t) :
  P (k, v) -> Forall P d -> Forall P (Dict.set k v d).
Proof.
  intros Hp F. induction F as [|[k' v'] d Hx F IH]; cbn [Dict.set].
  - now constructor.
  - destruct (str_eqb k k'); constructor; auto.
Qed.

Lemma set_ok (k v : str) (d : Dict.t) :
  cache_ok d -> In k five_keys -> id_token v -> cache_ok (Dict.set k v d).
Proof.
  intros [N F] Hk Hv. split.
  - destruct (in_dec (list_eq_dec ascii_dec) k (map fst d)) as [Hin|Hin].
    + now rewrite (proj1 (set_keys k v d) Hin).
    + rewrite (proj2 (set_keys k v d) Hin).
      apply NoDup_rev in N. rewrite <- (rev_involutive (map fst d ++ [k])).
      apply NoDup_rev. rewrite rev_app_distr. cbn [rev app].
      constructor; [|exact N]. intros G. apply Hin. now apply in_rev.
  - apply set_forall; [now split | exact F].
Qed.

Lemma cache_key_among_five (i : nat) : i < 5 -> In (cache_key i) five_keys.
Proof.
  intros H. do 5 (destruct i as [|i]; [vm_compute; tauto|]). lia.
Qed.

Lemma cache_ids_ok (ids : list str) :
  forall i d,
    cache_ok d -> Forall id_token ids -> i + length ids <= 5 ->
    cache_ok (Agent.cache_ids i ids d).
Proof.
  induction ids as [|pid ids IH]; intros i d Hd F L; cbn [Agent.cache_ids];
    [exact Hd|].
  inversion F as [|? ? Hp F']. subst. cbn [length] in L.
  apply IH; [|exact F' | lia].
  apply set_ok; [exact Hd | | exact Hp].
  apply (cache_key_among_five i). lia.
Qed.

Lemma think_and_act_keeps_cache_ok
    (w : world) (u : str) (a : Agent.agent) (tr : trace) :
  cache_ok (Agent.paper_id_cache a) ->
  cache_ok (Agent.paper_id_cache (snd (fst (Agent.think_and_act w u a tr)))).
Proof.
  intros Hc.
  assert (look : forall pid a0 tr0,
             Agent.paper_id_cache (snd (fst (Agent.lookup w pid a0 tr0)))
             = Agent.paper_id_cache a0).
  { intros pid a0 tr0. unfold Agent.lookup, bind, ret.
    now destruct (Agent.get_paper_details w pid tr0). }
  unfold Agent.think_and_act.
  destruct (Agent.id_request u); [now rewrite look|].
  destruct (Agent.cached_title_request u _); [now rewrite look|].
  unfold Agent.decide, bind, ask_llm, ret.
  destruct (llm w tr u _) as [out|msg]; [|exact Hc].
  destruct (Str.startswith (lit "Direct:") out); [exact Hc|].
  destruct (Agent.parse_tool_call out) as [[name arg]|]; [|exact Hc].
  unfold Agent.act, bind, ret.
  destruct (Agent.execute_tool w name arg _) as [result tr1].
  assert (G : cache_ok (Agent.cache_ids 0 (firstn 5 (Re.id_findall result))
                          (Agent.paper_id_cache a))).
  { apply cache_ids_ok; [exact Hc | | rewrite length_firstn; lia].
    apply Forall_id_token_firstn, Forall_forall. intros m. apply id_findall_sound. }
  destruct (Str.contains (lit "Paper IDs:") result);
    destruct (str_eqb name (lit "search_papers_by_author")); cbn [andb];
    try exact G; try exact Hc.
  now destruct (mapM _ _ tr1).
Qed.

Lemma loop_keeps_cache_ok (w : world) (lines : list str) :
  forall a tr,
    cache_ok (Agent.paper_id_cache a) ->
    cache_ok (Agent.paper_id_cache (snd (fst (Main.loop w lines a tr)))).
Proof.
  induction lines as [|line rest IH]; intros a tr Hc; cbn [Main.loop].
  - exact Hc.
  - destruct (existsb _ Main.farewells); [exact Hc|].
    destruct (Str.strip line) as [|c user_input] eqn:E; [now apply IH|].
    unfold bind.
    pose proof (think_and_act_keeps_cache_ok w (c :: user_input) a tr Hc) as H1.
    destruct (Agent.think_and_act w (c :: user_input) a tr) as [[out a1] tr1].
    cbn [fst snd] in H1. destruct out as [response|msg]; [|exact H1].
    specialize (IH a1 tr1 H1). unfold ret.
    destruct (Main.loop w rest a1 tr1) as [[rs a2] tr2]. exact IH.
Qed.

(** X7.  Whatever is typed during a session of the command-line agent,
    and whatever the model, the index and the record source answer, the
    cache never holds more than five entries: its keys are distinct and
    among [paper_1] to [paper_5], and every value is a string of 7 to 9
    decimal digits. *)
Theorem session_cache_is_bounded (w : world) (lines : list str) (tr : trace) :
  let cache :=
    Agent.paper_id_cache (snd (fst (Main.loop w lines Agent.init tr))) in
  length cache <= 5
  /\ NoDup (map fst cache)
  /\ (forall k v, In (k, v) cache -> In k five_keys /\ id_token v).
Proof.
  intros cache.
  assert (H : cache_ok cache).
  { apply loop_keeps_cache_ok. split; constructor. }
  destruct H as [N F]. split; [|split; [exact N|]].
  - rewrite <- (length_map fst).
    apply (NoDup_incl_length N (l' := five_keys)).
    intros k Hk. apply in_map_iff in Hk. destruct Hk as ([k' v] & <- & Hin).
    rewrite Forall_forall in F. now apply (F (k', v)).
  - intros k v Hin. rewrite Forall_forall in F. now apply (F (k, v)).
Qed.

(** ** The command-line loop *)

Lemma farewell_test (x : str) :
  existsb (str_eqb x) Main.farewells = true <-> In x Main.farewells.
Proof.
  rewrite existsb_exists. split.
  - intros (y & Hy & E). apply str_eqb_eq in E. now subst.
  - intros H. exists x. split; [exact H | apply str_eqb_refl].
Qed.

(** X8.  The command-line loop stops at the first line that is one of
    quit, exit or bye, in any letter case and with white space around it:
    no line after it is read.  A line of white space only is passed over
    without a turn. *)
Theorem loop_stops_and_skips (w : world) :
  (forall pre q rest a tr,
     In (Str.lower (Str.strip q)) Main.farewells ->
     Main.loop w (pre ++ q :: rest) a tr = Main.loop w (pre ++ [q]) a tr)
  /\ (forall pre blank rest a tr,
        Str.strip blank = [] ->
        Main.loop w (pre ++ blank :: rest) a tr = Main.loop w (pre ++ rest) a tr).
Proof.
  split.
  - intros pre q rest a tr Hq. apply farewell_test in Hq.
    revert a tr. induction pre as [|line pre IH]; intros a tr; cbn [app Main.loop].
    + now rewrite Hq.
    + destruct (existsb (str_eqb (Str.lower (Str.strip line))) Main.farewells);
        [reflexivity|].
      destruct (Str.strip line) as [|c user_input]; [apply IH|].
      unfold bind.
      destruct (Agent.think_and_act w (c :: user_input) a tr) as [[out a1] tr1].
      destruct out; [|reflexivity]. now rewrite IH.
  - intros pre blank rest a tr Hb.
    revert a tr. induction pre as [|line pre IH]; intros a tr; cbn [app Main.loop].
    + rewrite Hb. reflexivity.
    + destruct (existsb (str_eqb (Str.lower (Str.strip line))) Main.farewells);
        [reflexivity|].
      destruct (Str.strip line) as [|c user_input]; [apply IH|].
      unfold bind.
      destruct (Agent.think_and_act w (c :: user_input) a tr) as [[out a1] tr1].
      destruct out; [|reflexivity]. now rewrite IH.
Qed.

Lemma loop_stops_and_skips_witness :
  Main.loop record_world
    [lit "   "; lit "  QUIT "; lit "Get details for paper ID 37635766"]
    Agent.init []
  = ([], Agent.init, []).
Proof.
  refine (eq_trans (proj2 (loop_stops_and_skips record_world) [] (lit "   ")
                      _ Agent.init [] eq_refl) _).
  refine (eq_trans (proj1 (loop_stops_and_skips record_world) [] (lit "  QUIT ")
                      _ Agent.init [] _) _).
  - left. reflexivity.
  - reflexivity.
Defined.

(** ** Page buttons *)

Section Buttons.

Open Scope Z_scope.

Lemma range_In (a b p : Z) : In p (AppV2.range a b) <-> a <= p < b.
Proof.
  unfold AppV2.range. rewrite in_map_iff. split.
  - intros (i & <- & Hi). apply in_seq in Hi. lia.
  - intros H. exists (Z.to_nat (p - a)). split; [lia|].
    apply in_seq. lia.
Qed.

Lemma range_length (a b : Z) : length (AppV2.range a b) = Z.to_nat (b - a).
Proof. unfold AppV2.range. now rewrite length_map, length_seq. Qed.

Lemma range_five (lo : Z) :
  AppV2.range lo (lo + 5) = [lo; lo + 1; lo + 2; lo + 3; lo + 4].
Proof.
  unfold AppV2.range. replace (lo + 5 - lo) with 5 by lia.
  change (seq 0 (Z.to_nat 5)) with [0%nat; 1%nat; 2%nat; 3%nat; 4%nat].
  cbn [map]. change (Z.of_nat 0) with 0. change (Z.of_nat 1) with 1.
  change (Z.of_nat 2) with 2. change (Z.of_nat 3) with 3.
  change (Z.of_nat 4) with 4. now rewrite Z.add_0_r.
Qed.

(** The page numbers drawn are a run of consecutive pages around the
    current one. *)
Lemma pages_to_show_window (current total : Z) :
  1 <= current <= total ->
  exists lo,
    AppV2.pages_to_show current total = AppV2.range lo (lo + Z.min 5 total)
    /\ 1 <= lo /\ lo + Z.min 5 total - 1 <= total
    /\ lo <= current < lo + Z.min 5 total.
Proof.
  intros H. unfold AppV2.pages_to_show.
  destruct (Z.leb_spec total 5).
  - exists 1. rewrite Z.min_r by lia.
    replace (1 + total) with (total + 1) by lia. repeat split; lia.
  - rewrite Z.min_l by lia. destruct (Z.leb_spec current 3).
    + exists 1. rewrite range_five. repeat split; lia.
    + rewrite Z.geb_leb. destruct (Z.leb_spec (total - 2) current).
      * exists (total - 4). rewrite range_five. repeat split; try lia.
        repeat (apply (f_equal2 (@cons Z)); [lia|]). reflexivity.
      * exists (current - 2). rewrite range_five. repeat split; try lia.
        repeat (apply (f_equal2 (@cons Z)); [lia|]). reflexivity.
Qed.

Lemma firstn_five_pages (current total : Z) :
  1 <= current <= total ->
  firstn 5 (AppV2.pages_to_show current total)
  = AppV2.pages_to_show current total.
Proof.
  intros H. destruct (pages_to_show_window current total H) as (lo & E & _).
  apply firstn_all2. rewrite E, range_length. lia.
Qed.

End Buttons.

(** X9.  For a current page between 1 and the number of pages, the page
    buttons are consecutive page numbers in ascending order, as many as
    there are pages but no more than five; every one of them is an
    existing page, and the current page is among them. *)
Theorem page_buttons_window (current total : Z) :
  (1 <= current <= total)%Z ->
  let pages := AppV2.pages_to_show current total in
  length pages = Z.to_nat (Z.min 5 total)
  /\ In current pages
  /\ (forall p, In p pages -> (1 <= p <= total)%Z)
  /\ (exists lo, pages = AppV2.range lo (lo + Z.min 5 total))
  /\ firstn 5 pages = pages.
Proof.
  intros H pages.
  destruct (pages_to_show_window current total H) as (lo & E & H1 & H2 & H3).
  unfold pages. rewrite E. repeat split.
  - rewrite range_length. f_equal. lia.
  - apply range_In. lia.
  - apply range_In in H0. lia.
  - apply range_In in H0. lia.
  - now exists lo.
  - apply firstn_all2. rewrite range_length. lia.
Qed.

Lemma page_buttons_window_witness :
  AppV2.pages_to_show 7 9 = [5; 6; 7; 8; 9]%Z
  /\ In 7%Z (AppV2.pages_to_show 7 9).
Proof.
  split; [reflexivity|].
  apply (proj1 (proj2 (page_buttons_window 7 9 ltac:(lia)))).
Defined.

(** X10.  The page each button of the paginator is wired to.  For a
    current page between 1 and the number of pages, the handler of every
    button that is drawn and not disabled assigns an existing page other
    than the current one: [Previous] the page before and [Next] the page
    after, so the clamps [max] and [min] of the two handlers never act, and
    a page button its own number, which is one of the pages to show. *)
Theorem enabled_buttons_target_existing_pages
    (current total : Z) (b : AppV2.button) :
  (1 <= current <= total)%Z ->
  AppV2.drawn current total b = true ->
  AppV2.disabled current total b = false ->
  let target := AppV2.clicked current total b in
  (1 <= target <= total)%Z
  /\ target <> current
  /\ (b = AppV2.Previous -> target = (current - 1)%Z)
  /\ (b = AppV2.Next -> target = (current + 1)%Z)
  /\ (forall p, b = AppV2.PageNumber p ->
        target = p /\ In p (AppV2.pages_to_show current total)).
Proof.
  intros Hp Hd Hx target. unfold target.
  destruct b as [|p|]; cbn [AppV2.clicked AppV2.disabled AppV2.drawn] in *.
  - apply Z.leb_gt in Hx.
    repeat apply conj; try lia; try discriminate.
  - apply Z.eqb_neq in Hx.
    apply existsb_exists in Hd. destruct Hd as (q & Hq & Eq).
    apply Z.eqb_eq in Eq. subst q.
    rewrite (firstn_five_pages current total Hp) in Hq.
    assert (Hr : (1 <= p <= total)%Z).
    { destruct (pages_to_show_window current total Hp)
        as (lo & E & H1 & H2 & H3).
      rewrite E in Hq. apply range_In in Hq. lia. }
    repeat apply conj; try exact Hx; try lia; try discriminate.
    intros p' Ep. injection Ep as <-. now split.
  - rewrite Z.geb_leb in Hx. apply Z.leb_gt in Hx.
    repeat apply conj; try lia; try discriminate.
Qed.

Lemma enabled_buttons_target_existing_pages_witness :
  AppV2.clicked 7 9 (AppV2.PageNumber 5) = 5%Z
  /\ In 5%Z (AppV2.pages_to_show 7 9).
Proof.
  assert (P : (1 <= 7 <= 9)%Z) by lia.
  exact (proj2 (proj2 (proj2 (proj2
           (enabled_buttons_target_existing_pages 7 9 (AppV2.PageNumber 5)
              P eq_refl eq_refl)))) 5%Z eq_refl).
Defined.

(** ** What the web page shows *)

(** X11.  In the web variant a failure is never told to the user: whenever
    the processing of a query ends in a failure dictionary (an invalid
    identifier, a record that is not found, a title without match, a
    failure of the index or of the record source), the page shows the same
    card without content, with the paper ID [N/A], and a copy button, and
    neither depends on the error text. *)
Theorem web_failure_shows_blank_card
    (int_of_str : str -> Z + str) (w : world) (s : Z)
    (st : AppV2.session_state) (query : str) (tr : trace) (error : str) :
  query <> [] ->
  fst (AppV2.process_query int_of_str w query tr)
  = AppV2.Dict (AppV2.Failure error) ->
  AppV2.search int_of_str w s st query tr
  = ((st, blank_page), snd (AppV2.process_query int_of_str w query tr)).
Proof.
  intros Hq Hf. unfold AppV2.search.
  destruct query as [|c query]; [congruence|]. unfold bind.
  destruct (AppV2.process_query int_of_str w (c :: query) tr) as [r tr1].
  cbn [fst snd] in *. subst r. reflexivity.
Qed.

Lemma web_failure_shows_blank_card_witness :
  AppV2.search small_int (scripted_world [])
    10 fresh_session (lit "Get details for paper ID 37635766") []
  = ((fresh_session, blank_page),
     [Invoke DetailsTool (lit "37635766"); HttpFetch (lit "37635766")]).
Proof.
  exact (web_failure_shows_blank_card small_int (scripted_world []) 10
           fresh_session (lit "Get details for paper ID 37635766") []
           (lit "No article found for ID 37635766")
           ltac:(discriminate) eq_refl).
Defined.

(** X12.  In the web variant an author search that finds nothing, on the
    first query and on the retry, is shown through the paginator: the
    page reads page 1 of 0 and papers 1 to 0 of 0, no record is fetched,
    and the session is left on page 1. *)
Theorem web_empty_author_search
    (int_of_str : str -> Z + str) (w : world) (s : Z)
    (st : AppV2.session_state) (arg : str) (tr : trace) :
  (0 < s)%Z ->
  int_of_str (lit "0") = inl 0%Z ->
  let name := cleaned_name arg in
  let tr0 := tr ++ [Invoke AuthorTool arg] in
  let tr1 := tr0 ++ [HttpSearch (name ++ lit "[Author]") 50] in
  let tr2 := tr1 ++ [HttpSearch (Agent.last_token name ++ lit "[Author]") 50] in
  esearch w tr0 (name ++ lit "[Author]") 50 = Ok nothing_found ->
  esearch w tr1 (Agent.last_token name ++ lit "[Author]") 50 = Ok nothing_found ->
  AppV2.search_papers_by_author int_of_str w arg tr
  = (AppV2.Authors 0 name [], tr2)
  /\ forall tr',
       AppV2.display_results w s st (AppV2.Dict (AppV2.Authors 0 name [])) tr'
       = ((on_page 1 s,
           [AppV2.StatsBar 0 name 0;
            AppV2.PageHeading 1 0;
            AppV2.DebugLine 1 0 s;
            AppV2.PaginationInfo 1 0 0 0]),
          tr').
Proof.
  intros Hs Hi name tr0 tr1 tr2 H1 H2. split.
  - unfold AppV2.search_papers_by_author, bind, emit, http_search, ret.
    fold name. fold tr0. rewrite H1. cbn [count nothing_found].
    rewrite str_eqb_refl. fold tr1. rewrite H2.
    unfold AppV2.authors_dict. cbn [count idlist nothing_found]. now rewrite Hi.
  - intros tr'.
    assert (T : AppV2.total_pages 0 s = 0%Z).
    { unfold AppV2.total_pages. apply Z.div_small. lia. }
    assert (P : AppV2.page_of (AppV2.settle s 0 st) = 1%Z).
    { rewrite page_of_settle. lia. }
    assert (S1 : AppV2.settle s 0 st = on_page 1 s).
    { assert (Hprev : AppV2.prev_papers_per_page (AppV2.settle s 0 st) = Some s).
      { unfold AppV2.settle. cbn [AppV2.prev_papers_per_page].
        destruct (AppV2.prev_papers_per_page st) as [p|].
        - destruct (Z.eqb_spec p s) as [->|]; reflexivity.
        - now rewrite Z.eqb_refl. }
      assert (Hcur : AppV2.current_page (AppV2.settle s 0 st) = Some 1%Z).
      { unfold AppV2.page_of in P. unfold AppV2.settle in *.
        cbn [AppV2.current_page] in *. f_equal. exact P. }
      destruct (AppV2.settle s 0 st) as [pp cp].
      cbn [AppV2.prev_papers_per_page AppV2.current_page] in *.
      now subst. }
    unfold AppV2.display_results, AppV2.author_page,
      AppV2.display_all_author_papers, AppV2.view, bind, ret.
    cbn [length Z.of_nat]. rewrite T, S1.
    cbn [AppV2.page_of on_page AppV2.current_page].
    replace ((1 - 1) * s)%Z with 0%Z by lia.
    replace (Z.min (0 + s) 0) with 0%Z by lia.
    reflexivity.
Qed.

Lemma web_empty_author_search_witness :
  AppV2.search_papers_by_author small_int (scripted_world [])
    (lit "Dr. Nobody") []
  = (AppV2.Authors 0 (lit "Nobody") [],
     [Invoke AuthorTool (lit "Dr. Nobody");
      HttpSearch (lit "Nobody[Author]") 50;
      HttpSearch (lit "Nobody[Author]") 50]).
Proof.
  exact (proj1 (web_empty_author_search small_int (scripted_world []) 10
                  fresh_session (lit "Dr. Nobody") []
                  eq_refl eq_refl eq_refl eq_refl)).
Defined.

(** X13.  A text result is scanned for identifiers only when it holds
    both [Found] and [papers by]: then the first three matches of the
    7-to-9-digit pattern are fetched, in order, and in every other case
    nothing is fetched.  So a text never costs more than three fetches. *)
Theorem text_result_fetches (w : world) (s : Z) (st : AppV2.session_state)
    (text : str) (tr : trace) :
  let run := AppV2.display_results w s st (AppV2.Text text) tr in
  fetcher_calls (snd run)
  = fetcher_calls tr
    ++ (if Str.contains (lit "Found") text && Str.contains (lit "papers by") text
        then firstn 3 (Re.id_findall text) else [])
  /\ length (fetcher_calls (snd run)) <= length (fetcher_calls tr) + 3
  /\ fst (fst run) = st.
Proof.
  intros run. unfold run, AppV2.display_results.
  assert (L : forall ids : list str, length (firstn 3 ids) <= 3)
    by (intros ids; rewrite length_firstn; lia).
  destruct (Str.contains (lit "Found") text && Str.contains (lit "papers by") text).
  - destruct (Re.id_findall text) as [|i ids] eqn:E.
    + unfold ret. cbn [fst snd firstn]. rewrite app_nil_r.
      repeat split. lia.
    + unfold bind, ret.
      pose proof (mapM_v2_calls w (firstn 3 (i :: ids)) tr) as C.
      destruct (mapM (AppV2.get_paper_details w) (firstn 3 (i :: ids)) tr)
        as [cards tr1].
      cbn [fst snd] in *. rewrite C. repeat split.
      rewrite length_app. specialize (L (i :: ids)). lia.
  - destruct (Str.contains (lit "Error") text); unfold ret; cbn [fst snd];
      rewrite app_nil_r; repeat split; lia.
Qed.

Example web_empty_author_search_run :
  AppV2.search small_int
    (scripted_world (tool_call_text AUTHOR_TOOL (lit "Nobody")))
    10 fresh_session (lit "papers by Nobody") []
  = ((on_page 1 10,
      [AppV2.StatsBar 0 (lit "Nobody") 0;
       AppV2.PageHeading 1 0;
       AppV2.DebugLine 1 0 10;
       AppV2.PaginationInfo 1 0 0 0]),
     [LLMCall (lit "papers by Nobody") [];
      Invoke AuthorTool (lit "Nobody");
      HttpSearch (lit "Nobody[Author]") 50;
      HttpSearch (lit "Nobody[Author]") 50]).
Proof. reflexivity. Qed.

(** ** The Record Fetcher *)

(** X14.  The Record Fetcher never sends more than one request and never
    asks the index: its log is its invocation alone when the identifier
    fails [isdigit], and the invocation followed by one fetch otherwise.
    Unless the record source failed, the text it returns holds the
    identifier it was given; and the dictionary of the web variant, when it
    is a record, carries that identifier and no other. *)
Theorem record_fetcher_outcomes (w : world) (id : str) (tr : trace) :
  let run := Agent.get_paper_details w id tr in
  let web := AppV2.get_paper_details w id tr in
  (snd run = tr ++ (if Str.isdigit id
                    then [Invoke DetailsTool id; HttpFetch id]
                    else [Invoke DetailsTool id]))
  /\ snd web = snd run
  /\ ((forall msg, efetch w (tr ++ [Invoke DetailsTool id]) id <> Raise msg) ->
      Str.contains id (fst run) = true)
  /\ (forall p, fst web = AppV2.Paper p ->
        AppV2.paper_id p = id /\ Str.isdigit id = true).
Proof.
  intros run web. unfold run, web. destruct (Str.isdigit id) eqn:D.
  - rewrite (get_paper_details_valid w id tr D),
            (get_paper_details_v2_valid w id tr D). cbn [fst snd].
    split; [reflexivity|]. split; [reflexivity|]. split.
    + intros H. destruct (efetch w (tr ++ [Invoke DetailsTool id]) id)
        as [[art|]|msg].
      * apply render_details_contains_id.
      * apply contains_after. rewrite <- (app_nil_r id) at 2. apply contains_head.
      * exfalso. now apply (H msg).
    + intros p. destruct (efetch w (tr ++ [Invoke DetailsTool id]) id)
        as [[art|]|msg]; intros H; try discriminate H.
      injection H as <-. now split.
  - rewrite (get_paper_details_invalid w id tr D),
            (get_paper_details_v2_invalid w id tr D). cbn [fst snd].
    split; [reflexivity|]. split; [reflexivity|]. split.
    + intros _. unfold Agent.invalid_id. apply contains_after, contains_head.
    + intros p H. discriminate H.
Qed.

Lemma record_fetcher_outcomes_witness :
  Str.contains (lit "12ab")
    (fst (Agent.get_paper_details record_world (lit "12ab") [])) = true.
Proof.
  apply (proj1 (proj2 (proj2
           (record_fetcher_outcomes record_world (lit "12ab") [])))).
  intros msg. discriminate.
Defined.

(** X15.  A record without DOI.  When no article identifier of type doi
    is present, or the first one has no text, the text of the agent reads
    [DOI: Not available]; the card of the web variant shows the text None
    when there is no DOI at all, and in neither case a DOI link. *)
Theorem absent_doi_rendering (id : str) (a : article) :
  (Agent.doi_of a = None \/ Agent.doi_of a = Some []) ->
  Str.contains (lit "DOI: Not available") (Agent.render_details id a) = true
  /\ forall p n,
       AppV2.doi p = Agent.doi_of a ->
       (forall d, ~ In (AppV2.DoiLink d)
                    (AppV2.display_paper_card (AppV2.Paper p) n))
       /\ (Agent.doi_of a = None ->
           AppV2.card_doi (AppV2.card_of (AppV2.Paper p) n) = lit "None").
Proof.
  intros H. split.
  - unfold Agent.render_details.
    assert (E : Agent.or_else (Agent.doi_of a) (lit "Not available")
                = lit "Not available") by (destruct H as [-> | ->]; reflexivity).
    rewrite E. do 20 apply contains_after.
    change (lit "DOI: " ++ lit "Not available" ++ NL ++ NL ++ lit "ABSTRACT:"
            ++ NL ++ Agent.abstract_of a ++ NL)
      with (lit "DOI: Not available" ++ NL ++ NL ++ lit "ABSTRACT:"
            ++ NL ++ Agent.abstract_of a ++ NL).
    apply contains_head.
  - intros p n Hp. split.
    + intros d. unfold AppV2.display_paper_card. rewrite Hp.
      intros Hin. repeat (apply in_app_or in Hin; destruct Hin as [Hin|Hin]);
        cbn [In] in Hin.
      * destruct Hin as [Hin|[]]. discriminate Hin.
      * destruct (AppV2.abstract p) as [|c t]; [destruct Hin|].
        destruct (str_eqb (c :: t) (lit "No abstract available"));
          [destruct Hin | destruct Hin as [Hin|[]]; discriminate Hin].
      * destruct H as [E|E]; rewrite E in Hin; destruct Hin.
      * destruct (AppV2.paper_id p); [destruct Hin|].
        destruct Hin as [Hin|[]]; discriminate Hin.
      * destruct Hin as [Hin|[]]. discriminate Hin.
    + intros E. unfold AppV2.card_of. cbn [AppV2.card_doi]. now rewrite Hp, E.
Qed.

Lemma absent_doi_rendering_witness :
  let a := {| article_title := None ; abstract_texts := [] ; authors := [] ;
              journal_title := None ; pub_year := None ; article_ids := [] |} in
  Str.contains (lit "DOI: Not available")
    (Agent.render_details (lit "40125545") a) = true.
Proof.
  intros a.
  apply (proj1 (absent_doi_rendering (lit "40125545") a (or_introl eq_refl))).
Defined.

(** ** Witnesses of earlier facts *)

Lemma id_search_finds_token_witness :
  Re.id_search (lit "Tell me about paper 37635766, please")
  = Some (lit "37635766").
Proof.
  apply (proj2 (id_search_finds_token (lit "Tell me about paper ")
                  (lit "37635766") (lit ", please")
                  (conj (conj (le_S _ _ (le_n 7)) (le_S _ _ (le_n 8))) eq_refl)
                  eq_refl eq_refl)).
  reflexivity.
Defined.

Lemma other_topics_go_to_model_witness :
  exists evs,
    snd (Agent.think_and_act (scripted_world (lit "Direct: no idea"))
           (lit "more on the gut microbiome paper")
           (Agent.with_cache [(lit "paper_1", lit "40125545")] Agent.init) [])
    = [] ++ llm_event (lit "more on the gut microbiome paper")
              (Agent.with_cache [(lit "paper_1", lit "40125545")] Agent.init)
            :: evs.
Proof.
  exact (other_topics_go_to_model (scripted_world (lit "Direct: no idea"))
           (lit "more on the gut microbiome paper")
           (Agent.with_cache [(lit "paper_1", lit "40125545")] Agent.init) []
           eq_refl eq_refl).
Defined.

Lemma search_paper_by_title_v2_protocol_witness :
  exists p,
    AppV2.search_paper_by_title title_world (lit "cavity architecture") []
    = (AppV2.Paper p,
       [Invoke TitleTool (lit "cavity architecture");
        HttpSearch (Agent.quoted_title_term (lit "cavity architecture")) 5;
        HttpSearch (Agent.plain_title_term (lit "cavity architecture")) 5;
        Invoke DetailsTool (lit "37635766"); HttpFetch (lit "37635766")])
    /\ AppV2.paper_id p = lit "37635766"
    /\ AppV2.title p = lit "Cavity architecture".
Proof.
  pose proof (proj1 (proj2 (search_paper_by_title_v2_protocol title_world
                (lit "cavity architecture") [] _ eq_refl) eq_refl _ eq_refl)
                _ _ eq_refl) as H.
  destruct H as [Et [p [Er [Ei [Etitle _]]]]].
  exists p. split; [|split; [exact Ei | exact Etitle]].
  apply injective_projections; [exact Er | exact Et].
Defined.

(** ** An author search without result *)

Lemma found_by_nothing (name : str) :
  Re.id_findall name = [] ->
  Re.id_findall (Agent.found_by name nothing_found) = [].
Proof.
  intros Hn. rewrite id_findall_all_positions in *.
  unfold Agent.found_by. cbn [count idlist nothing_found firstn Str.join].
  change (lit "Found " ++ lit "0" ++ lit " papers by " ++ name
          ++ lit ". Paper IDs: " ++ [])
    with ((lit "Found 0 papers by" ++ [" "%char])
          ++ name ++ lit ". Paper IDs: ").
  rewrite id_matches_from_app_nondecimal by reflexivity.
  change (id_matches_from None (lit "Found 0 papers by" ++ [" "%char]))
    with (@nil str).
  cbn [app].
  rewrite id_matches_from_app_boundary by reflexivity.
  rewrite (id_matches_from_prev name (Some " "%char) None eq_refl), Hn.
  cbn [app].
  change (lit ". Paper IDs: ") with ("."%char :: lit " Paper IDs: ").
  cbn [id_matches_from]. now rewrite id_match_here_nondecimal.
Qed.

(** X19.  An author search of the agent that finds nothing, on the first
    query and on the retry, is still treated as a list of papers: no
    record is fetched and the cache and the rest of the state are as after
    any tool call, but the reply is the multi-paper rendering for a count
    of 0, which announces the details of the first 0 papers. *)
Theorem agent_empty_author_search
    (w : world) (u : str) (a : Agent.agent) (tr : trace) (arg : str) :
  routes_to w u a tr AUTHOR_TOOL arg ->
  let name := cleaned_name arg in
  let tr0 := (tr ++ [llm_event u a]) ++ [Invoke AuthorTool arg] in
  let tr1 := tr0 ++ [HttpSearch (name ++ lit "[Author]") 20] in
  let tr2 := tr1 ++ [HttpSearch (Agent.last_token name ++ lit "[Author]") 20] in
  esearch w tr0 (name ++ lit "[Author]") 20 = Ok nothing_found ->
  esearch w tr1 (Agent.last_token name ++ lit "[Author]") 20 = Ok nothing_found ->
  Re.id_findall name = [] ->
  let summary := lit "Found 0 papers by " ++ name ++ lit ". Paper IDs: " in
  let reply := Agent.format_multiple_papers summary 0 in
  Agent.think_and_act w u a tr
  = (Agent.Reply reply,
     Agent.remember (lit "Tool: " ++ AUTHOR_TOOL ++ lit ", Result: "
                     ++ firstn 200 summary ++ lit "...")
       (Agent.remember (lit "User: " ++ u) a),
     tr2)
  /\ Str.contains (lit "Here are details for the first 0 papers:") reply = true.
Proof.
  intros R name tr0 tr1 tr2 H1 H2 Hn summary reply.
  assert (Es : Agent.search_papers_by_author w arg (tr ++ [llm_event u a])
               = (summary, tr2)).
  { unfold Agent.search_papers_by_author, bind, emit, http_search, ret.
    fold name. fold tr0. rewrite H1. cbn [count nothing_found].
    rewrite str_eqb_refl. fold tr1. rewrite H2. cbn [count nothing_found].
    rewrite str_eqb_refl. reflexivity. }
  split.
  - rewrite (think_and_act_routed w u a tr _ _ R), act_author, Es. cbv zeta.
    change summary with (Agent.found_by name nothing_found).
    rewrite found_by_has_marker, (found_by_nothing name Hn). reflexivity.
  - unfold reply, Agent.format_multiple_papers. do 5 apply contains_after.
    change (lit "Here are details for the first " ++ Str.of_nat 0
            ++ lit " papers:" ++ NL ++ Str.rep "="%char 50 ++ NL
            ++ Agent.paper_blocks
                 (length (Str.split (lit "PAPER DETAILS:") summary)) 1
                 (tl (Str.split (lit "PAPER DETAILS:") summary))
            ++ NL ++ NL ++ Agent.BULB
            ++ lit " Need more papers or specific details? Just ask!")
      with (lit "Here are details for the first 0 papers:"
            ++ NL ++ Str.rep "="%char 50 ++ NL
            ++ Agent.paper_blocks
                 (length (Str.split (lit "PAPER DETAILS:") summary)) 1
                 (tl (Str.split (lit "PAPER DETAILS:") summary))
            ++ NL ++ NL ++ Agent.BULB
            ++ lit " Need more papers or specific details? Just ask!").
    apply contains_head.
Qed.

Lemma agent_empty_author_search_witness :
  snd (Agent.think_and_act
         (scripted_world (tool_call_text AUTHOR_TOOL (lit "Dr. Nobody")))
         (lit "Show papers by Dr. Nobody") Agent.init [])
  = [llm_event (lit "Show papers by Dr. Nobody") Agent.init;
     Invoke AuthorTool (lit "Dr. Nobody");
     HttpSearch (lit "Nobody[Author]") 20;
     HttpSearch (lit "Nobody[Author]") 20].
Proof.
  assert (R : routes_to
                (scripted_world (tool_call_text AUTHOR_TOOL (lit "Dr. Nobody")))
                (lit "Show papers by Dr. Nobody") Agent.init [] AUTHOR_TOOL
                (lit "Dr. Nobody")).
  { route. }
  rewrite (proj1 (agent_empty_author_search _ _ _ _ _ R eq_refl eq_refl eq_refl)).
  reflexivity.
Defined.
